(** * MBA strategy agent: execution controller and report export

  A shallow embedding of [MBA-course/report_export.py] and
  [MBA-course/run_agent.py], and the properties of the two that the
  project's specification states; then [run_agent.load] with the
  [get_config] of [MBA-course/config_ui.py], and further properties of
  the code.

  Python strings are sequences of Unicode code points; the output stream,
  the module globals of [report_export], the files, the operator and the
  workflow engine are fields of one explicit world that the functions of
  the two modules pass along. *)

From Stdlib Require Import ZArith NArith List String Ascii Bool Lia.
From Stdlib Require Import DecimalString PrimFloat FloatOps SpecFloat Uint63.
From stdpp Require Import base option list gmap.
Import ListNotations.

Set Warnings "-inexact-float".

Set Implicit Arguments.
Local Open Scope N_scope.

(** ** Python [str] *)

Module PyStr.

(** A character is its code point; a [str] is the sequence of them. *)
Definition char : Type := N.
Definition str : Type := list N.

(** An ASCII literal of the source, as a [str]. *)
Definition lit (s : string) : str :=
  List.map N_of_ascii (list_ascii_of_string s).

Definition newline : char := 10.
Definition star : char := 42.

(** [str.isspace] on one character: the code points CPython lists in
    [_PyUnicode_IsWhitespace]. *)
Definition is_space (c : char) : bool :=
  ((9 <=? c) && (c <=? 13)) || ((28 <=? c) && (c <=? 32))
  || (c =? 133) || (c =? 160) || (c =? 5760)
  || ((8192 <=? c) && (c <=? 8202))
  || (c =? 8232) || (c =? 8233) || (c =? 8239) || (c =? 8287) || (c =? 12288).

Fixpoint lstrip (s : str) : str :=
  match s with
  | c :: s' => if is_space c then lstrip s' else s
  | [] => []
  end.

Definition rstrip (s : str) : str := rev (lstrip (rev s)).

(** [s.strip()] *)
Definition strip (s : str) : str := rstrip (lstrip s).

(** [s.startswith(p)] *)
Fixpoint startswith (p s : str) : bool :=
  match p, s with
  | [], _ => true
  | a :: p', b :: s' => (a =? b) && startswith p' s'
  | _ :: _, [] => false
  end.

(** [s.endswith(p)] *)
Definition endswith (p s : str) : bool := startswith (rev p) (rev s).

(** An index of a slice, as Python clamps it for a sequence of length
    [len]: a negative one counts from the end. *)
Definition clamp (len i : Z) : nat :=
  let i' := if (i <? 0)%Z then (i + len)%Z else i in
  Z.to_nat (Z.max 0 (Z.min len i')).

(** [s[i:j]] *)
Definition slice (i j : Z) (s : str) : str :=
  let len := Z.of_nat (length s) in
  let a := clamp len i in
  let b := clamp len j in
  firstn (b - a)%nat (skipn a s).

(** [s[i:]] *)
Definition slice_from (i : Z) (s : str) : str :=
  skipn (clamp (Z.of_nat (length s)) i) s.

(** [text.split(sep)] for a separator of one character: the pieces
    between the separators, at least one. *)
Fixpoint split_on (sep : char) (s : str) : list str :=
  match s with
  | [] => [[]]
  | c :: s' =>
      if c =? sep then [] :: split_on sep s'
      else match split_on sep s' with
           | piece :: pieces => (c :: piece) :: pieces
           | [] => [[c]]
           end
  end.

(** [sep.join(pieces)] *)
Fixpoint join (sep : str) (pieces : list str) : str :=
  match pieces with
  | [] => []
  | [p] => p
  | p :: rest => p ++ sep ++ join sep rest
  end.

(** [str(n)] for a natural number. *)
Definition str_of_nat (n : nat) : str :=
  lit (NilZero.string_of_uint (Nat.to_uint n)).

(** The truth value of a [str]: non-empty. *)
Definition truthy (s : str) : bool :=
  match s with [] => false | _ :: _ => true end.

(** Lexicographic order on code points, the order of [sorted] on [str]. *)
Fixpoint ltb (a b : str) : bool :=
  match a, b with
  | [], [] => false
  | [], _ :: _ => true
  | _ :: _, [] => false
  | x :: a', y :: b' => (x <? y) || ((x =? y) && ltb a' b')
  end.

End PyStr.
Export PyStr.

(** ** The fragment of [re] the renderer uses *)

Module Re.

(** Patterns: one character of a class, a lazy repetition of a class
    ([.*?] is [LazyStar dot]), sequence, and ordered alternative. *)
Inductive regex : Type :=
| Chr (cls : char -> bool)
| LazyStar (cls : char -> bool)
| Seq (r1 r2 : regex)
| Alt (r1 r2 : regex).

Definition only (c : char) : char -> bool := N.eqb c.

(** [.] without DOTALL: any character but the newline. *)
Definition dot (c : char) : bool := negb (c =? newline).

(** The backtracking matcher, in continuation-passing style: [k] is what
    has to match after [r]; the result is the text left after the whole
    match. A lazy repetition tries the continuation before it takes one
    more character; an alternative tries the left branch first. *)
Fixpoint rmatch (r : regex) (s : str) (k : str -> option str) : option str :=
  match r with
  | Chr cls =>
      match s with
      | c :: s' => if cls c then k s' else None
      | [] => None
      end
  | LazyStar cls =>
      (fix lazy (s : str) : option str :=
         match k s with
         | Some rest => Some rest
         | None =>
             match s with
             | c :: s' => if cls c then lazy s' else None
             | [] => None
             end
         end) s
  | Seq r1 r2 => rmatch r1 s (fun s' => rmatch r2 s' k)
  | Alt r1 r2 =>
      match rmatch r1 s k with
      | Some rest => Some rest
      | None => rmatch r2 s k
      end
  end.

(** The length of the match of [r] at the start of [s], if there is one. *)
Definition match_len (r : regex) (s : str) : option nat :=
  match rmatch r s Some with
  | Some rest => Some (length s - length rest)%nat
  | None => None
  end.

(** [re.split] for a pattern that is one capturing group: the text
    between the matches, and each match itself, in order. The scan looks
    for a match at every position outside a match; [inside] counts the
    characters of the current match still to pass. (No pattern of the
    program matches the empty string; an empty match is passed over.) *)
Fixpoint split_scan (r : regex) (s : str) (inside : nat) (piece : str)
  : list str :=
  match s with
  | [] => [rev piece]
  | c :: s' =>
      match inside with
      | S n => split_scan r s' n piece
      | O =>
          match match_len r s with
          | Some (S n) => rev piece :: firstn (S n) s :: split_scan r s' n []
          | _ => split_scan r s' O (c :: piece)
          end
      end
  end.

Definition split (r : regex) (text : str) : list str :=
  split_scan r text O [].

End Re.

(** ** The document model of the python-docx backend *)

Module Docx.

(** Lengths are in English Metric Units, as [docx.shared] has them. *)
Definition Pt (n : Z) : Z := (n * 12700)%Z.
(** [Cm(x)] for [x] given in millimetres: [Cm(2.5)] is [Cm_mm 25]. *)
Definition Cm_mm (n : Z) : Z := (n * 36000)%Z.

Record RGBColor : Type := rgb { red : Z; green : Z; blue : Z }.

(** A run: text with its character formatting; [None] is a property
    that was not set. *)
Record run : Type := mk_run {
  run_text : str;
  run_bold : option bool;
  run_italic : option bool;
  run_size : option Z;
  run_color : option RGBColor
}.

Definition plain_run (text : str) : run := mk_run text None None None None.
Definition set_bold (b : bool) (r : run) : run :=
  mk_run (run_text r) (Some b) (run_italic r) (run_size r) (run_color r).
Definition set_italic (b : bool) (r : run) : run :=
  mk_run (run_text r) (run_bold r) (Some b) (run_size r) (run_color r).
Definition set_size (n : Z) (r : run) : run :=
  mk_run (run_text r) (run_bold r) (run_italic r) (Some n) (run_color r).
Definition set_color (c : RGBColor) (r : run) : run :=
  mk_run (run_text r) (run_bold r) (run_italic r) (run_size r) (Some c).

Inductive alignment : Type := CENTER.

Record paragraph : Type := mk_paragraph {
  p_style : option str;
  p_alignment : option alignment;
  p_space_before : option Z;
  p_space_after : option Z;
  p_runs : list run
}.

(** The paragraph [doc.add_paragraph(style=style)] creates. *)
Definition new_paragraph (style : option str) : paragraph :=
  mk_paragraph style None None None [].

(** [paragraph.add_run(text)], the run with the properties set on it
    right after. *)
Definition add_run (p : paragraph) (r : run) : paragraph :=
  mk_paragraph (p_style p) (p_alignment p) (p_space_before p)
    (p_space_after p) (p_runs p ++ [r]).

Definition set_alignment (a : alignment) (p : paragraph) : paragraph :=
  mk_paragraph (p_style p) (Some a) (p_space_before p) (p_space_after p)
    (p_runs p).
Definition set_space_before (v : Z) (p : paragraph) : paragraph :=
  mk_paragraph (p_style p) (p_alignment p) (Some v) (p_space_after p)
    (p_runs p).
Definition set_space_after (v : Z) (p : paragraph) : paragraph :=
  mk_paragraph (p_style p) (p_alignment p) (p_space_before p) (Some v)
    (p_runs p).

Inductive block : Type :=
| Heading (level : nat) (text : str)
| Para (p : paragraph)
| PageBreak.

Record document : Type := mk_document {
  doc_margins : option (Z * Z * Z * Z);   (* top, bottom, left, right *)
  doc_font : option (str * Z);            (* the Normal style's font *)
  doc_blocks : list block
}.

(** [DocxDocument()] *)
Definition new_document : document := mk_document None None [].

Definition add_block (doc : document) (b : block) : document :=
  mk_document (doc_margins doc) (doc_font doc) (doc_blocks doc ++ [b]).

Definition set_margins (m : Z) (doc : document) : document :=
  mk_document (Some (m, m, m, m)) (doc_font doc) (doc_blocks doc).
Definition set_normal_font (name : str) (size : Z) (doc : document) : document :=
  mk_document (doc_margins doc) (Some (name, size)) (doc_blocks doc).

(** [doc.add_heading(text, level=level)] *)
Definition add_heading (doc : document) (text : str) (level : nat) : document :=
  add_block doc (Heading level text).

(** [doc.add_page_break()] *)
Definition add_page_break (doc : document) : document := add_block doc PageBreak.

End Docx.

(** ** The markdown renderer of [report_export] *)

Module Renderer.
Import Re Docx.

(** The pattern of [re.split] in [_add_formatted_runs]: one capturing
    group of two alternatives, first two stars, [.*?], two stars, then
    one star, [.*?], one star. *)
Definition inline_markup : regex :=
  Alt (Seq (Chr (only star)) (Seq (Chr (only star))
         (Seq (LazyStar dot) (Seq (Chr (only star)) (Chr (only star))))))
      (Seq (Chr (only star)) (Seq (LazyStar dot) (Chr (only star)))).

(** The body of the loop of [_add_formatted_runs]: one part of the split
    text becomes one run of [paragraph]. *)
Definition add_part (paragraph : Docx.paragraph) (part : str) : Docx.paragraph :=
  if startswith (lit "**") part && endswith (lit "**") part then
    add_run paragraph (set_bold true (plain_run (slice 2 (-2) part)))
  else if startswith (lit "*") part && endswith (lit "*") part then
    add_run paragraph (set_italic true (plain_run (slice 1 (-1) part)))
  else
    add_run paragraph (plain_run part).

(** [_add_formatted_runs(paragraph, text)]; the paragraph, which the
    source changes in place, is returned. *)
Definition _add_formatted_runs (paragraph : Docx.paragraph) (text : str)
  : Docx.paragraph :=
  let parts := Re.split inline_markup text in
  fold_left add_part parts paragraph.

Definition List_Bullet : str := lit "List Bullet".

(** The body of the loop of [_md_lines_to_docx]: what one line adds to
    the document. A paragraph joins the document with its runs; the
    source adds it empty and fills it in place, which nothing observes
    in between. *)
Definition render_line (doc : document) (line : str) : document :=
  let stripped := strip line in
  if startswith (lit "### ") stripped then
    add_heading doc (slice_from 4 stripped) 3
  else if startswith (lit "## ") stripped then
    add_heading doc (slice_from 3 stripped) 2
  else if startswith (lit "# ") stripped then
    add_heading doc (slice_from 2 stripped) 1
  else if startswith (lit "- ") stripped || startswith (lit "* ") stripped then
    let p := new_paragraph (Some List_Bullet) in
    add_block doc (Para (_add_formatted_runs p (slice_from 2 stripped)))
  else if truthy stripped then
    let p := new_paragraph None in
    add_block doc (Para (_add_formatted_runs p stripped))
  else
    doc.

(** [_md_lines_to_docx(doc, text)] *)
Definition _md_lines_to_docx (doc : document) (text : str) : document :=
  fold_left render_line (split_on newline text) doc.

End Renderer.

(** ** Python [float]: the two operations the program applies to one *)

Module PyFloat.
Local Open Scope Z_scope.

(** [n / d], to the nearest integer, a tie to the even one ([0 < d]). *)
Definition div_half_even (n d : Z) : Z :=
  let q := n / d in
  let r := n mod d in
  if 2 * r <? d then q
  else if d <? 2 * r then q + 1
  else if Z.even q then q else q + 1.

(** [k * m * 2^e], to the nearest integer, a tie to the even one: the
    magnitude [m * 2^e] of a float, scaled by [k], rounded on its exact
    value. *)
Definition scaled_round (k : Z) (m : positive) (e : Z) : Z :=
  if 0 <=? e then k * Z.pos m * 2 ^ e
  else div_half_even (k * Z.pos m) (2 ^ (- e)).

Definition of_Z (z : Z) : float := PrimFloat.of_uint63 (Uint63.of_Z z).

(** [round(x, 1)]: CPython rounds the exact value of [x] to one decimal,
    a tie to the even digit, and returns the float nearest to that
    decimal. From [2^49] on, the floats are more than a tenth apart and
    the result is [x]; below, the tenths fit a float exactly and the
    division is the correctly rounded one. A zero, an infinity and a NaN
    are returned as they are. *)
Definition round1 (x : float) : float :=
  match Prim2SF x with
  | S754_finite s m e =>
      if (0 <=? e) || (2 ^ (49 - e) <=? Z.pos m) then x
      else
        let r := (of_Z (scaled_round 10 m e) / 10)%float in
        if s then (- r)%float else r
  | _ => x
  end.

Definition str_of_Z (z : Z) : str :=
  lit (NilZero.string_of_int (Z.to_int z)).

(** [f"{x:.0f}"] *)
Definition format_0f (x : float) : str :=
  match Prim2SF x with
  | S754_nan => lit "nan"
  | S754_infinity s => if s then lit "-inf" else lit "inf"
  | S754_zero s => if s then lit "-0" else lit "0"
  | S754_finite s m e =>
      (if s then lit "-" else []) ++ str_of_Z (scaled_round 1 m e)
  end.

End PyFloat.

(** ** PyYAML: what [yaml.dump] emits for the data the program dumps *)

Module Yaml.

#[local] Unset Elimination Schemes.

(** The Python values that reach [yaml.dump]; a [dict] keeps its items
    in insertion order. *)
Inductive pyval : Type :=
| PStr (s : str)
| PBool (b : bool)
| PFloat (x : float)
| PDict (items : list (str * pyval)).

(** The emitted document, as its nodes; a mapping is the sequence of its
    entries, in the order they are written. (How a scalar is quoted is
    the emitter's business and is not modelled.) *)
Inductive node : Type :=
| ScalarStr (s : str)
| ScalarBool (b : bool)
| ScalarFloat (x : float)
| Mapping (entries : list (str * node)).

#[local] Set Elimination Schemes.

(** [sorted(mapping)] on the items of a dict of [str] keys: insertion
    sort by key. *)
Fixpoint insert_by_key {A : Type} (kv : str * A) (l : list (str * A))
  : list (str * A) :=
  match l with
  | [] => [kv]
  | kv' :: l' =>
      if PyStr.ltb (fst kv') (fst kv) then kv' :: insert_by_key kv l'
      else kv :: l
  end.

Definition sort_by_key {A : Type} (l : list (str * A)) : list (str * A) :=
  fold_right insert_by_key [] l.

(** The representer: [represent_mapping] sorts the items when
    [sort_keys] is set, and leaves them in the dict's order otherwise. *)
Fixpoint represent (sort_keys : bool) (v : pyval) : node :=
  match v with
  | PStr s => ScalarStr s
  | PBool b => ScalarBool b
  | PFloat x => ScalarFloat x
  | PDict items =>
      let entries :=
        List.map (fun kv => (fst kv, represent sort_keys (snd kv))) items in
      Mapping (if sort_keys then sort_by_key entries else entries)
  end.

(** The keys of a mapping node, in the order they are written. *)
Definition keys (n : node) : list str :=
  match n with
  | Mapping entries => List.map fst entries
  | _ => []
  end.

End Yaml.

(** ** The world the program runs in *)

Module World.
Import Docx.

(** Exceptions: the class, as far as a handler of the program or of the
    model tells classes apart, and [str(e)]. All are instances of
    [Exception]: what the libraries and the interpreter raise when a call
    fails. (An interrupt of the kernel, which is no [Exception], is no
    event of this world.) *)
Inductive exn_class : Type :=
| ImportError | OSError | FileExistsError | ValueError | EOFError
| AttributeError | OtherException (name : str).

Record exn : Type := mk_exn { class_of : exn_class; str_of_exn : str }.

Definition is_ImportError (e : exn) : bool :=
  match class_of e with ImportError => true | _ => false end.

(** What a collaborator answers to a call. *)
Inductive answer (A : Type) : Type :=
| Returns (a : A)
| Raises (e : exn).
Arguments Returns {A} a.
Arguments Raises {A} e.

(** *** The workflow engine *)

(** The final state of the workflow: a mapping of named text fields. *)
Definition result : Type := gmap str str.

(** What [agent.invoke] is given: the initial input
    [{"user_query": q}], or [Command(resume=feedback)]. *)
Inductive payload : Type :=
| Start (user_query : str)
| Resume (feedback : str).

(** An interrupt request; [value] is [str(intr.value)]. *)
Record interrupt : Type := { value : str }.

(** A task of a snapshot; [interrupts] is [None] for a task without the
    attribute. *)
Record task : Type := { task_name : str; interrupts : option (list interrupt) }.

Record snapshot : Type := { next : list str; tasks : list task }.

(** The compiled graph with its checkpointer. Its state is the sequence
    of the payloads it was invoked with, so both calls are functions of
    that sequence: [agent_invoke] of the payloads up to the current one,
    [agent_get_state] of the payloads so far. *)
Record Agent : Type := {
  agent_invoke : list payload -> answer result;
  agent_get_state : list payload -> answer snapshot
}.

(** The module [mba_agent_v4], as [run] uses it. *)
Record MbaModule : Type := {
  build_graph : answer Agent;
  INPUT_QUERY : str
}.

(** *** Events *)

Inductive displayable : Type :=
| HTML (s : str)
| Markdown (s : str).

(** The calls of the program to the engine, to the notebook's display
    and to the operator, in the order they happen, and with them the
    moments [start_log] has returned and [stop_log] is called. An
    invocation records the exception it raised, if it raised one. *)
Inductive event : Type :=
| EvInvoke (p : payload) (raised : option exn)
| EvGetState
| EvDisplay (d : displayable)
| EvInput (prompt reply : str)
| EvLogStarted
| EvStopLog.

Definition invocation (ev : event) : option payload :=
  match ev with EvInvoke p _ => Some p | _ => None end.

(** The payloads the engine was invoked with, oldest first. *)
Definition invocations (trace : list event) : list payload :=
  omap invocation trace.

(** *** Files and streams *)

(** What was written to a file, one item per write. *)
Inductive chunk : Type :=
| Chars (s : str)
| YamlDoc (n : Yaml.node)
| DocxPackage (d : document).

(** A file object; its handle is its index in the table of the world. *)
Record file : Type := mk_file {
  f_path : str;
  f_content : list chunk;
  f_closed : bool
}.

(** An output stream object: [None], the stream the process started
    with, or a [_TeeWriter] with its fields [_log] (a file handle) and
    [_orig]. *)
Inductive stream : Type :=
| PyNone
| Console
| TeeWriter (_log : nat) (_orig : stream).

(** [datetime.now()], by the three renderings the program takes of it. *)
Record datetime : Type := {
  strftime_Ymd_HMS : str;     (* strftime("%Y%m%d_%H%M%S") *)
  isoformat : str;            (* isoformat() *)
  strftime_B_d_Y : str        (* strftime('%B %d, %Y') *)
}.

(** The python-docx backend: the exception the import raises, the one
    the composition of the document raises, and the one [doc.save]
    raises, [None] where the step succeeds. *)
Record docx_backend : Type := {
  import_raises : option exn;
  compose_raises : option exn;
  save_raises : option exn
}.

Record world : Type := mk_world {
  w_trace : list event;
  w_stdin : list str;                 (* the lines the operator will type *)
  w_console : list str;               (* the writes that reached the console *)
  w_stdout : stream;                  (* sys.stdout *)
  w_tee : option (nat * stream);      (* report_export._tee, by its fields *)
  w_orig_stdout : stream;             (* report_export._orig_stdout *)
  w_files : list file;
  w_dirs : list str;
  w_readonly : list str;              (* paths that cannot be written *)
  w_cwd : str;
  w_clock : nat -> datetime;          (* the n-th reading of the clock *)
  w_time : nat -> float;
  w_ticks : nat;                      (* readings of the clock so far *)
  w_docx : docx_backend
}.

Definition set_trace (v : list event) (w : world) : world :=
  mk_world v (w_stdin w) (w_console w) (w_stdout w) (w_tee w)
    (w_orig_stdout w) (w_files w) (w_dirs w) (w_readonly w) (w_cwd w)
    (w_clock w) (w_time w) (w_ticks w) (w_docx w).
Definition set_stdin (v : list str) (w : world) : world :=
  mk_world (w_trace w) v (w_console w) (w_stdout w) (w_tee w)
    (w_orig_stdout w) (w_files w) (w_dirs w) (w_readonly w) (w_cwd w)
    (w_clock w) (w_time w) (w_ticks w) (w_docx w).
Definition set_console (v : list str) (w : world) : world :=
  mk_world (w_trace w) (w_stdin w) v (w_stdout w) (w_tee w)
    (w_orig_stdout w) (w_files w) (w_dirs w) (w_readonly w) (w_cwd w)
    (w_clock w) (w_time w) (w_ticks w) (w_docx w).
Definition set_stdout (v : stream) (w : world) : world :=
  mk_world (w_trace w) (w_stdin w) (w_console w) v (w_tee w)
    (w_orig_stdout w) (w_files w) (w_dirs w) (w_readonly w) (w_cwd w)
    (w_clock w) (w_time w) (w_ticks w) (w_docx w).
Definition set_tee (v : option (nat * stream)) (w : world) : world :=
  mk_world (w_trace w) (w_stdin w) (w_console w) (w_stdout w) v
    (w_orig_stdout w) (w_files w) (w_dirs w) (w_readonly w) (w_cwd w)
    (w_clock w) (w_time w) (w_ticks w) (w_docx w).
Definition set_orig_stdout (v : stream) (w : world) : world :=
  mk_world (w_trace w) (w_stdin w) (w_console w) (w_stdout w) (w_tee w)
    v (w_files w) (w_dirs w) (w_readonly w) (w_cwd w)
    (w_clock w) (w_time w) (w_ticks w) (w_docx w).
Definition set_files (v : list file) (w : world) : world :=
  mk_world (w_trace w) (w_stdin w) (w_console w) (w_stdout w) (w_tee w)
    (w_orig_stdout w) v (w_dirs w) (w_readonly w) (w_cwd w)
    (w_clock w) (w_time w) (w_ticks w) (w_docx w).
Definition set_dirs (v : list str) (w : world) : world :=
  mk_world (w_trace w) (w_stdin w) (w_console w) (w_stdout w) (w_tee w)
    (w_orig_stdout w) (w_files w) v (w_readonly w) (w_cwd w)
    (w_clock w) (w_time w) (w_ticks w) (w_docx w).
Definition set_ticks (v : nat) (w : world) : world :=
  mk_world (w_trace w) (w_stdin w) (w_console w) (w_stdout w) (w_tee w)
    (w_orig_stdout w) (w_files w) (w_dirs w) (w_readonly w) (w_cwd w)
    (w_clock w) (w_time w) v (w_docx w).

End World.

(** ** The monad of the program: state, exceptions, and a loop that may
  not end *)

Module Monad.
Import World.

(** How a computation ends: with a value, with an exception, or not
    within the iterations it was given. *)
Inductive outcome (A : Type) : Type :=
| Ret (a : A)
| Raise (e : exn)
| Diverge.
Arguments Ret {A} a.
Arguments Raise {A} e.
Arguments Diverge {A}.

Definition M (A : Type) : Type := world -> outcome A * world.

Definition ret {A : Type} (a : A) : M A := fun w => (Ret a, w).
Definition raise {A : Type} (e : exn) : M A := fun w => (Raise e, w).
Definition diverge {A : Type} : M A := fun w => (Diverge, w).

Definition bind {A B : Type} (m : M A) (k : A -> M B) : M B :=
  fun w =>
    match m w with
    | (Ret a, w') => k a w'
    | (Raise e, w') => (Raise e, w')
    | (Diverge, w') => (Diverge, w')
    end.

Declare Scope py_scope.
Delimit Scope py_scope with py.
Notation "x <- m ;; k" := (bind m (fun x => k))
  (at level 100, m at next level, right associativity) : py_scope.
Notation "m ;; k" := (bind m (fun _ => k))
  (at level 100, right associativity) : py_scope.
Local Open Scope py_scope.

Definition gets {A : Type} (f : world -> A) : M A := fun w => (Ret (f w), w).
Definition modify (f : world -> world) : M unit := fun w => (Ret tt, f w).

(** [try: body finally: final]. The final block runs however the body
    ends; if it raises, its exception replaces the outcome of the body. *)
Definition try_finally {A : Type} (body : M A) (final : M unit) : M A :=
  fun w =>
    match body w with
    | (Diverge, w') => (Diverge, w')
    | (o, w') =>
        match final w' with
        | (Ret _, w'') => (o, w'')
        | (Raise e, w'') => (Raise e, w'')
        | (Diverge, w'') => (Diverge, w'')
        end
    end.

(** [try: body except ...: handler]: [handler e] is the clause that
    matches [e]. Every exception of the model is an [Exception], so a
    last clause [except Exception] matches them all. *)
Definition try_except {A : Type} (body : M A) (handler : exn -> M A) : M A :=
  fun w =>
    match body w with
    | (Raise e, w') => handler e w'
    | ow => ow
    end.

(** [for x in l: body], with the variables the body assigns as [s]. *)
Fixpoint for_in {X S : Type} (l : list X) (body : X -> S -> M S) (s : S) : M S :=
  match l with
  | [] => ret s
  | x :: l' => s' <- body x s ;; for_in l' body s'
  end.

End Monad.

(** ** The operations of the interpreter and of the libraries *)

Module Sys.
Import World Monad Docx.
Local Open Scope py_scope.

Definition emit (ev : event) : M unit :=
  modify (fun w => set_trace (w_trace w ++ [ev]) w).

(** [display(d)] of IPython. *)
Definition display (d : displayable) : M unit := emit (EvDisplay d).

(** [input(prompt)]: the next line of the operator, without its end of
    line; [EOFError] when there is none. The notebook shows the prompt
    with its request for input; it is not written to [sys.stdout]. *)
Definition input (prompt : str) : M str :=
  fun w =>
    match w_stdin w with
    | line :: rest =>
        (Ret line,
         set_trace (w_trace w ++ [EvInput prompt line]) (set_stdin rest w))
    | [] => (Raise (mk_exn EOFError (lit "EOF when reading a line")), w)
    end.

(** [open(path, "w")]: a new, empty file object. *)
Definition open_w (path : str) : M nat :=
  fun w =>
    if bool_decide (path ∈ w_readonly w) then
      (Raise (mk_exn OSError path), w)
    else
      (Ret (length (w_files w)),
       set_files (w_files w ++ [mk_file path [] false]) w).

Definition closed_file : exn :=
  mk_exn ValueError (lit "I/O operation on closed file.").

(** [f.write(...)] on the file object of handle [h]. *)
Definition file_write (h : nat) (c : chunk) : M unit :=
  fun w =>
    match w_files w !! h with
    | Some f =>
        if f_closed f then (Raise closed_file, w)
        else
          (Ret tt,
           set_files
             (<[h := mk_file (f_path f) (f_content f ++ [c]) false]> (w_files w))
             w)
    | None => (Raise closed_file, w)
    end.

(** [f.close()]; closing a closed file does nothing. *)
Definition file_close (h : nat) : M unit :=
  modify (fun w =>
    match w_files w !! h with
    | Some f =>
        set_files (<[h := mk_file (f_path f) (f_content f) true]> (w_files w)) w
    | None => w
    end).

(** [with open(path, "w") as f: body] *)
Definition with_open {A : Type} (path : str) (body : nat -> M A) : M A :=
  f <- open_w path ;;
  try_finally (body f) (file_close f).

(** The file at [path]: what the file object opened last at it holds. *)
Definition file_at (files : list file) (path : str) : option (list chunk) :=
  fold_left
    (fun found f => if bool_decide (f_path f = path) then Some (f_content f) else found)
    files None.

Definition no_write : exn :=
  mk_exn AttributeError (lit "'NoneType' object has no attribute 'write'").

(** [st.write(s)]. A [_TeeWriter] writes to [_orig], then to [_log]. *)
Fixpoint stream_write (st : stream) (s : str) : M unit :=
  match st with
  | PyNone => raise no_write
  | Console => modify (fun w => set_console (w_console w ++ [s]) w)
  | TeeWriter _log _orig => stream_write _orig s ;; file_write _log (Chars s)
  end.

(** [print(s)]: the text, then the end of line, to [sys.stdout]; nothing
    when [sys.stdout] is [None]. *)
Definition print (s : str) : M unit :=
  out <- gets w_stdout ;;
  match out with
  | PyNone => ret tt
  | _ => stream_write out s ;; stream_write out [newline]
  end.

(** [datetime.now()] and [time.time()]: the next reading of the clock. *)
Definition datetime_now : M datetime :=
  fun w => (Ret (w_clock w (w_ticks w)), set_ticks (S (w_ticks w)) w).
Definition time_time : M float :=
  fun w => (Ret (w_time w (w_ticks w)), set_ticks (S (w_ticks w)) w).

(** Paths are their text: [d / name], [p.name], [p.resolve()]. *)
Definition slash : char := 47.
Definition path_join (d name : str) : str := d ++ slash :: name.
Definition path_name (p : str) : str := List.last (split_on slash p) [].
Definition resolve (p : str) : M str :=
  cwd <- gets w_cwd ;;
  ret (if startswith [slash] p then p else path_join cwd p).

(** [p.mkdir(parents=True, exist_ok=True)] *)
Definition mkdir (p : str) : M unit :=
  fun w =>
    if bool_decide (p ∈ w_readonly w) then (Raise (mk_exn OSError p), w)
    else if bool_decide (p ∈ w_dirs w) then (Ret tt, w)
    else (Ret tt, set_dirs (w_dirs w ++ [p]) w).

(** [p.exists()] *)
Definition path_exists (p : str) : M bool :=
  gets (fun w =>
    bool_decide (p ∈ w_dirs w) || bool_decide (is_Some (file_at (w_files w) p))).

(** [shutil.copytree(src, dst)]: [dst] must not exist; every file under
    [src] is copied under [dst]. *)
Definition copy_under (src dst : str) (f : file) : list file :=
  let prefix := src ++ [slash] in
  if startswith prefix (f_path f) then
    [mk_file (dst ++ slash :: skipn (length prefix) (f_path f)) (f_content f) true]
  else [].

Definition copytree (src dst : str) : M unit :=
  fun w =>
    if bool_decide (dst ∈ w_dirs w) then (Raise (mk_exn FileExistsError dst), w)
    else if bool_decide (dst ∈ w_readonly w) then (Raise (mk_exn OSError dst), w)
    else
      (Ret tt,
       set_files (w_files w ++ flat_map (copy_under src dst) (w_files w))
         (set_dirs (w_dirs w ++ [dst]) w)).

(** [mba.build_graph(checkpointer=MemorySaver())] *)
Definition call_build_graph (mba : MbaModule) : M Agent :=
  match build_graph mba with
  | Returns agent => ret agent
  | Raises e => raise e
  end.

(** [agent.invoke(p, lc_config)] *)
Definition invoke (agent : Agent) (p : payload) : M result :=
  fun w =>
    match agent_invoke agent (invocations (w_trace w) ++ [p]) with
    | Returns r => (Ret r, set_trace (w_trace w ++ [EvInvoke p None]) w)
    | Raises e => (Raise e, set_trace (w_trace w ++ [EvInvoke p (Some e)]) w)
    end.

(** [agent.get_state(lc_config)] *)
Definition get_state (agent : Agent) : M snapshot :=
  fun w =>
    let w' := set_trace (w_trace w ++ [EvGetState]) w in
    match agent_get_state agent (invocations (w_trace w)) with
    | Returns s => (Ret s, w')
    | Raises e => (Raise e, w')
    end.

(** Raise [e] if there is one. *)
Definition raise_if (e : option exn) : M unit :=
  match e with
  | Some e => raise e
  | None => ret tt
  end.

(** [from docx import Document ...] and the two imports after it. *)
Definition import_docx : M unit :=
  e <- gets (fun w => import_raises (w_docx w)) ;; raise_if e.

(** The calls of the backend that build [doc] in memory: they raise the
    exception the backend has for them, or yield [doc]. *)
Definition composed (doc : document) : M document :=
  e <- gets (fun w => compose_raises (w_docx w)) ;; raise_if e ;; ret doc.

(** [doc.save(path)] *)
Definition doc_save (doc : document) (path : str) : M unit :=
  e <- gets (fun w => save_raises (w_docx w)) ;; raise_if e ;;
  with_open path (fun f => file_write f (DocxPackage doc)).

End Sys.

(** ** [report_export.py] *)

Module ReportExport.
Import World Monad Sys Docx Renderer Yaml.
Local Open Scope py_scope.

(** The CONFIG dict of [config_ui.get_config]. *)
Record agent_config : Type := { model : str }.

Record Config : Type := {
  input_query : str;
  agents : list (str * agent_config);
  max_clarify_rounds : Z;
  max_research_topics : Z;
  max_web_search_ct : Z;
  max_debate_rounds : Z;
  max_human_revision_on_proposal : Z;
  max_human_revision_on_plan : Z
}.

(** [_TeeWriter(log_path, orig_stdout)]: the object, by its two fields. *)
Definition TeeWriter_init (log_path : str) (orig_stdout : stream)
  : M (nat * stream) :=
  _log <- open_w log_path ;;
  ret (_log, orig_stdout).

(** [start_log(output_dir)] *)
Definition start_log (output_dir : str) : M unit :=
  out <- gets w_stdout ;;
  modify (set_orig_stdout out) ;;
  _orig_stdout <- gets w_orig_stdout ;;
  tee <- TeeWriter_init (path_join output_dir (lit "log.txt")) _orig_stdout ;;
  modify (set_tee (Some tee)) ;;
  modify (set_stdout (TeeWriter (fst tee) (snd tee))) ;;
  emit EvLogStarted.

(** [stop_log()] *)
Definition stop_log : M unit :=
  emit EvStopLog ;;
  _tee <- gets w_tee ;;
  match _tee with
  | Some (_log, _) =>
      _orig_stdout <- gets w_orig_stdout ;;
      modify (set_stdout _orig_stdout) ;;
      file_close _log ;;
      modify (set_tee None) ;;
      modify (set_orig_stdout PyNone)
  | None => ret tt
  end.

(** [result.get(key, "")] *)
Definition get (result : result) (key : str) : str :=
  default [] (result !! key).

(** [yaml.dump(data, f, default_flow_style=False, sort_keys=sort_keys)] *)
Definition yaml_dump (data : pyval) (f : nat) (sort_keys : bool) : M unit :=
  file_write f (YamlDoc (represent sort_keys data)).

(** The comma-joined [role=model] listing. *)
Definition agents_str (config : Config) : str :=
  join (lit ", ")
    (List.map (fun kv => fst kv ++ lit "=" ++ model (snd kv)) (agents config)).

(** The dict [save_all] dumps to meta.yaml, [timestamp] being
    [datetime.now().isoformat()]. *)
Definition meta_record (timestamp : str) (config : Config) (elapsed : float)
  : pyval :=
  PDict [
    (lit "timestamp", PStr timestamp);
    (lit "input_query", PStr (input_query config));
    (lit "auto_approve", PBool false);
    (lit "models",
      PDict (List.map (fun kv => (fst kv, PStr (model (snd kv)))) (agents config)));
    (lit "elapsed_seconds", PFloat (PyFloat.round1 elapsed))
  ].

Definition rule : str := [newline; newline] ++ lit "---" ++ [newline; newline].

(** The markdown part of [save_all]: the body of its [with] statement,
    and the statement with the [print] after it. *)
Definition write_markdown (result : result) (config : Config) (f : nat)
  : M unit :=
  file_write f (Chars (lit "# MBA Strategy Report v4" ++ [newline; newline])) ;;
  now <- datetime_now ;;
  file_write f (Chars (lit "**Generated:** " ++ isoformat now ++ [newline])) ;;
  file_write f (Chars (lit "**Agents:** " ++ agents_str config ++ rule)) ;;
  file_write f (Chars (get result (lit "recommendation"))) ;;
  file_write f (Chars rule) ;;
  file_write f (Chars (get result (lit "action_plan"))).

Definition save_markdown (result : result) (config : Config) (md_path : str)
  : M unit :=
  with_open md_path (write_markdown result config) ;;
  print (lit "Markdown: " ++ md_path).

(** The meta.yaml part of [save_all], likewise. *)
Definition write_meta (config : Config) (elapsed : float) (f : nat) : M unit :=
  now <- datetime_now ;;
  yaml_dump (meta_record (isoformat now) config elapsed) f false.

Definition save_meta (config : Config) (output_dir : str) (elapsed : float)
  : M unit :=
  with_open (path_join output_dir (lit "meta.yaml")) (write_meta config elapsed) ;;
  print (lit "Meta:     " ++ path_join output_dir (lit "meta.yaml")).

(** [_cover_para], the local function of [save_all]; [doc] is the
    document of the enclosing call. *)
Definition _cover_para (doc : document) (text : str) (size : Z)
    (color : RGBColor) (bold italic : bool)
    (space_before space_after : option Z) : document :=
  let p := new_paragraph None in
  let p := set_alignment CENTER p in
  let p := match space_before with Some v => set_space_before v p | None => p end in
  let p := match space_after with Some v => set_space_after v p | None => p end in
  let run := plain_run text in
  let run := set_size (Pt size) run in
  let run := set_color color run in
  let run := set_bold bold run in
  let run := set_italic italic run in
  add_block doc (Para (add_run p run)).

Definition NAVY : RGBColor := rgb 31 78 121.
Definition ACCENT : RGBColor := rgb 47 117 181.
Definition DARK_GRAY : RGBColor := rgb 89 89 89.
Definition LIGHT_GRAY : RGBColor := rgb 140 140 140.

(** The document [save_all] builds, [date] being
    [datetime.now().strftime('%B %d, %Y')]: first the page setup and the
    cover page, then the two rendered sections. *)
Definition cover_page (config : Config) (date : str) : document :=
  let doc := new_document in
  let doc := set_margins (Cm_mm 25) doc in
  let doc := set_normal_font (lit "Calibri") (Pt 11) doc in
  let doc := _cover_para doc (lit "MBA STRATEGY REPORT") 36 NAVY true false
               (Some (Cm_mm 60)) (Some (Pt 4)) in
  let doc := _cover_para doc (repeat 9473 30) 10 ACCENT false false
               (Some (Pt 0)) (Some (Pt 12)) in
  let doc := _cover_para doc (8220 :: input_query config ++ [8221]) 14
               DARK_GRAY false true None (Some (Cm_mm 15)) in
  let doc := _cover_para doc (lit "Generated: " ++ date) 10 LIGHT_GRAY
               false false None (Some (Pt 2)) in
  let doc := _cover_para doc (lit "Models: " ++ agents_str config) 10
               LIGHT_GRAY false false None (Some (Pt 0)) in
  doc.

Definition compose (result : result) (config : Config) (date : str) : document :=
  let doc := cover_page config date in
  let doc := add_page_break doc in
  let recommendation := get result (lit "recommendation") in
  let doc := if truthy recommendation then _md_lines_to_docx doc recommendation
             else doc in
  let doc := add_page_break doc in
  let action_plan := get result (lit "action_plan") in
  let doc := if truthy action_plan then _md_lines_to_docx doc action_plan
             else doc in
  doc.

(** The DOCX part of [save_all]: the [try] statement. The document is
    local to it, so all an exception of the backend leaves behind is
    that the statement ended; it is raised where the composition ends. *)
Definition write_docx (result : result) (config : Config) (output_dir : str)
  : M unit :=
  let ts := path_name output_dir in
  import_docx ;;
  now <- datetime_now ;;
  doc <- composed (compose result config (strftime_B_d_Y now)) ;;
  let docx_path := path_join output_dir (lit "report_" ++ ts ++ lit ".docx") in
  doc_save doc docx_path ;;
  print (lit "DOCX:     " ++ docx_path).

(** The two [except] clauses: [ImportError], then [Exception as e]. *)
Definition docx_failed (e : exn) : M unit :=
  if is_ImportError e then print (lit "[SKIP] python-docx not installed")
  else print (lit "[WARNING] DOCX generation failed: " ++ str_of_exn e).

Definition save_docx (result : result) (config : Config) (output_dir : str)
  : M unit :=
  try_except (write_docx result config output_dir) docx_failed.

(** [save_all(result, config, output_dir, elapsed)] *)
Definition save_all (result : result) (config : Config) (output_dir : str)
    (elapsed : float) : M unit :=
  let ts := path_name output_dir in
  let md_path := path_join output_dir (lit "report_" ++ ts ++ lit ".md") in
  save_markdown result config md_path ;;
  save_meta config output_dir elapsed ;;
  save_docx result config output_dir ;;
  print (lit "Log:      " ++ path_join output_dir (lit "log.txt")) ;;
  print (newline :: lit "All outputs saved to: " ++ output_dir).

End ReportExport.

(** ** [run_agent.py] *)

Module RunAgent.
Import World Monad Sys ReportExport.
Local Open Scope py_scope.

Definition DRIVE_OUTPUT_DIR : str :=
  lit "/content/drive/MyDrive/AI_Essentials_Final_Project".

Definition approved : str := lit "approved".

(** The value [run] resumes the workflow with, from the line the
    operator typed:
    [feedback = input(...).strip()], then
    [if not feedback: feedback = "approved"]. *)
Definition feedback_of (line : str) : str :=
  let feedback := strip line in
  if negb (truthy feedback) then approved else feedback.

Definition prompt : str := lit "approve / or type feedback > ".

Definition hr_above : str :=
  lit "<hr style='border:3px solid #2E75B6; margin:24px 0 8px 0'>".
Definition hr_below : str :=
  lit "<hr style='border:3px solid #2E75B6; margin:8px 0 16px 0'>".

(** The body of the loop over the interrupts of one task; the variables
    it assigns are [gate_num] and [result]. *)
Definition gate (agent : Agent) (intr : interrupt) (vars : nat * result)
  : M (nat * result) :=
  let gate_num := S (fst vars) in
  display (HTML hr_above) ;;
  display (Markdown (lit "### Human Input " ++ str_of_nat gate_num)) ;;
  display (Markdown (value intr)) ;;
  display (HTML hr_below) ;;
  line <- input prompt ;;
  let feedback := feedback_of line in
  result <- invoke agent (Resume feedback) ;;
  ret (gate_num, result).

(** The body of the loop over the tasks of a snapshot:
    [if hasattr(task, "interrupts"): for intr in task.interrupts: ...]. *)
Definition task_gates (agent : Agent) (task : task) (vars : nat * result)
  : M (nat * result) :=
  match interrupts task with
  | Some intrs => for_in intrs (gate agent) vars
  | None => ret vars
  end.

(** [for task in snapshot.tasks: ...] *)
Definition snapshot_gates (agent : Agent) (tasks : list task)
    (vars : nat * result) : M (nat * result) :=
  for_in tasks (task_gates agent) vars.

(** The [while True] loop of [run], given [fuel] iterations. *)
Fixpoint interrupt_loop (fuel : nat) (agent : Agent) (vars : nat * result)
  : M (nat * result) :=
  match fuel with
  | O => diverge
  | S fuel' =>
      snapshot <- get_state agent ;;
      match next snapshot with
      | [] => ret vars
      | _ :: _ =>
          vars' <- snapshot_gates agent (tasks snapshot) vars ;;
          interrupt_loop fuel' agent vars'
      end
  end.

(** The [try] block of [run]. *)
Definition run_body (fuel : nat) (mba : MbaModule) (agent : Agent)
    (config_dict : Config) (output_dir : str) : M result :=
  t0 <- time_time ;;
  result <- invoke agent (Start (INPUT_QUERY mba)) ;;
  vars <- interrupt_loop fuel agent (O, result) ;;
  let result := snd vars in
  t1 <- time_time ;;
  let elapsed := (t1 - t0)%float in
  save_all result config_dict output_dir elapsed ;;
  mounted <- path_exists (lit "/content/drive/MyDrive") ;;
  (if mounted : bool then
     mkdir DRIVE_OUTPUT_DIR ;;
     let drive_dest := path_join DRIVE_OUTPUT_DIR (path_name output_dir) in
     copytree output_dir drive_dest ;;
     print (lit "Drive:    " ++ drive_dest)
   else
     print (lit "[SKIP] Google Drive not mounted " ++ 8212 :: lit " Drive save skipped")) ;;
  display (HTML (lit "<hr style='border:4px solid #1B2A4A; margin:24px 0'>")) ;;
  display (Markdown (lit "## Agent Complete")) ;;
  print (lit "Elapsed: " ++ PyFloat.format_0f elapsed ++ lit "s") ;;
  ret result.

(** [run(mba, config_dict)], its loop given [fuel] iterations. *)
Definition run (fuel : nat) (mba : MbaModule) (config_dict : Config) : M result :=
  agent <- call_build_graph mba ;;
  now <- datetime_now ;;
  let ts := strftime_Ymd_HMS now in
  let output_dir := ts in
  mkdir output_dir ;;
  resolved <- resolve output_dir ;;
  print (lit "Output dir: " ++ resolved ++ [newline]) ;;
  start_log output_dir ;;
  try_finally
    (run_body fuel mba agent config_dict output_dir)
    stop_log.

End RunAgent.


(** ** [config_ui.py] *)

Module ConfigUI.
Import ReportExport.

(** The values the widgets of the form hold when they are read: the
    text area, the four dropdowns and the six bounded integer fields. *)
Record form : Type := {
  query_input : str;
  model_intake : str;
  model_researcher : str;
  model_critic : str;
  model_synthesizer : str;
  max_clarify : Z;
  max_topics : Z;
  max_web : Z;
  max_debate : Z;
  max_rev_proposal : Z;
  max_rev_plan : Z
}.

(** [get_config()] *)
Definition get_config (f : form) : Config :=
  {| input_query := query_input f;
     agents :=
       [ (lit "intake", {| model := model_intake f |});
         (lit "researcher", {| model := model_researcher f |});
         (lit "critic", {| model := model_critic f |});
         (lit "synthesizer", {| model := model_synthesizer f |}) ];
     max_clarify_rounds := max_clarify f;
     max_research_topics := max_topics f;
     max_web_search_ct := max_web f;
     max_debate_rounds := max_debate f;
     max_human_revision_on_proposal := max_rev_proposal f;
     max_human_revision_on_plan := max_rev_plan f |}.

End ConfigUI.

(** ** [run_agent.load] *)

Module Loader.
Import World Monad Sys ReportExport ConfigUI.

#[local] Unset Elimination Schemes.

(** The Python values of a CONFIG dict: texts, integers, and dicts in
    insertion order. *)
Inductive pyobj : Type :=
| OStr (s : str)
| OInt (z : Z)
| ODict (items : list (str * pyobj)).

#[local] Set Elimination Schemes.

(** The dict [get_config] returns, as the value [yaml.dump] is given. *)
Definition config_dict (c : Config) : pyobj :=
  ODict [
    (lit "input_query", OStr (input_query c));
    (lit "agents",
      ODict (List.map
               (fun kv => (fst kv, ODict [(lit "model", OStr (model (snd kv)))]))
               (agents c)));
    (lit "max_clarify_rounds", OInt (max_clarify_rounds c));
    (lit "max_research_topics", OInt (max_research_topics c));
    (lit "max_web_search_ct", OInt (max_web_search_ct c));
    (lit "max_debate_rounds", OInt (max_debate_rounds c));
    (lit "max_human_revision_on_proposal", OInt (max_human_revision_on_proposal c));
    (lit "max_human_revision_on_plan", OInt (max_human_revision_on_plan c))
  ].

(** The interpreter session [load] runs in: the documents dumped to
    files, the paths that cannot be opened for writing, the lines
    printed, [sys.path], the entry of [mba_agent_v4] in [sys.modules],
    and how often the code of the module was executed. *)
Record session : Type := mk_session {
  s_files : list (str * pyobj);
  s_readonly : list str;
  s_console : list str;
  sys_path : list str;
  sys_modules : option MbaModule;
  s_runs : nat
}.

(** The code of [mba_agent_v4], which is no part of these sources: its
    [n]-th execution in a session leaves a namespace and, if it fails,
    an exception. It is taken to change nothing of the session but its
    own namespace. *)
Definition source : Type := nat -> session -> MbaModule * option exn.

Definition L (A : Type) : Type := session -> outcome A * session.

Definition lret {A : Type} (a : A) : L A := fun s => (Ret a, s).
Definition lbind {A B : Type} (m : L A) (k : A -> L B) : L B :=
  fun s =>
    match m s with
    | (Ret a, s') => k a s'
    | (Raise e, s') => (Raise e, s')
    | (Diverge, s') => (Diverge, s')
    end.

Declare Scope load_scope.
Delimit Scope load_scope with load.
Notation "x <- m ;; k" := (lbind m (fun x => k))
  (at level 100, m at next level, right associativity) : load_scope.
Notation "m ;; k" := (lbind m (fun _ => k))
  (at level 100, right associativity) : load_scope.
Local Open Scope load_scope.

(** [try: body except Exception: handler] *)
Definition ltry {A : Type} (body : L A) (handler : L A) : L A :=
  fun s =>
    match body s with
    | (Raise _, s') => handler s'
    | os => os
    end.

(** [with open(path, "w") as f: yaml.dump(data, f, default_flow_style=False,
    sort_keys=False)]: the document holds [data], its keys in the order
    of the dict. *)
Definition dump (path : str) (data : pyobj) : L unit :=
  fun s =>
    if bool_decide (path ∈ s_readonly s) then (Raise (mk_exn OSError path), s)
    else
      (Ret tt,
       mk_session (s_files s ++ [(path, data)]) (s_readonly s) (s_console s)
         (sys_path s) (sys_modules s) (s_runs s)).

(** [print(line)] *)
Definition lprint (line : str) : L unit :=
  fun s =>
    (Ret tt,
     mk_session (s_files s) (s_readonly s) (s_console s ++ [line])
       (sys_path s) (sys_modules s) (s_runs s)).

(** [sys.path.insert(0, dir)] *)
Definition path_insert (dir : str) : L unit :=
  fun s =>
    (Ret tt,
     mk_session (s_files s) (s_readonly s) (s_console s)
       (dir :: sys_path s) (sys_modules s) (s_runs s)).

(** The session after one execution of the code of the module, which
    leaves [entry] in [sys.modules]. *)
Definition executed (entry : option MbaModule) (s : session) : session :=
  mk_session (s_files s) (s_readonly s) (s_console s) (sys_path s) entry
    (S (s_runs s)).

(** [import mba_agent_v4]: the module of [sys.modules] if it is there;
    else its code is executed, and the module stays in [sys.modules]
    only if that succeeds. *)
Definition import_module (code : source) : L MbaModule :=
  fun s =>
    match sys_modules s with
    | Some m => (Ret m, s)
    | None =>
        match code (s_runs s) s with
        | (m, None) => (Ret m, executed (Some m) s)
        | (_, Some e) => (Raise e, executed None s)
        end
    end.

(** [importlib.reload(module)]: the code is executed again in the
    namespace of the module, which stays in [sys.modules] as the
    execution left it, also when it fails. *)
Definition reload (code : source) (_ : MbaModule) : L MbaModule :=
  fun s =>
    match code (s_runs s) s with
    | (m, None) => (Ret m, executed (Some m) s)
    | (m, Some e) => (Raise e, executed (Some m) s)
    end.

Definition MBA_course : str := lit "MBA-course".

(** The [try] statement of [load]:
    [import mba_agent_v4; mba = importlib.reload(mba_agent_v4)], and on
    an exception [import mba_agent_v4 as mba]. *)
Definition import_agent (code : source) : L MbaModule :=
  ltry (mba_agent_v4 <- import_module code ;; reload code mba_agent_v4)
       (import_module code).

(** [load(config_ui, repo_dir)]; [repo_dir] is the text of
    [Path(repo_dir)], a directory other than the root. *)
Definition load (code : source) (config_ui : form) (repo_dir : str)
  : L (MbaModule * Config) :=
  let config_dict_ := get_config config_ui in
  let config_path := path_join (path_join repo_dir MBA_course) (lit "config.yaml") in
  dump config_path (config_dict config_dict_) ;;
  lprint (lit "Config written to " ++ config_path) ;;
  let agent_dir := path_join repo_dir MBA_course in
  known <- (fun s => (Ret (bool_decide (agent_dir ∈ sys_path s)), s)) ;;
  (if known : bool then lret tt
   else
     path_insert agent_dir ;;
     lprint (lit "Agent module path added: " ++ agent_dir)) ;;
  mba <- import_agent code ;;
  lret (mba, config_dict_).

End Loader.

(** * The specification's side *)

Module Spec.
Import World Monad Sys Docx Renderer ReportExport RunAgent.

(** ** Markdown-to-Document Renderer *)

(** The element a line makes, as the specification classifies lines. *)
Inductive line_class : Type :=
| IsHeading (level : nat) (text : str)
| IsBullet (text : str)
| IsParagraph (text : str)
| IsBlank.

(** The prefixes in their order of precedence, each with what a line that
    starts with it becomes, given the rest of the line. *)
Definition prefix_rules : list (str * (str -> line_class)) :=
  [ (lit "### ", IsHeading 3);
    (lit "## ", IsHeading 2);
    (lit "# ", IsHeading 1);
    (lit "- ", IsBullet);
    (lit "* ", IsBullet) ].

Fixpoint first_rule (rules : list (str * (str -> line_class))) (s : str)
  : option line_class :=
  match rules with
  | [] => None
  | (p, make) :: rules' =>
      if startswith p s then Some (make (skipn (length p) s))
      else first_rule rules' s
  end.

(** A line is classified by its whitespace-trimmed text: the first prefix
    that fits decides; any other non-blank line is a paragraph; a blank
    line is no element. *)
Definition classify (line : str) : line_class :=
  let s := strip line in
  match first_rule prefix_rules s with
  | Some c => c
  | None => if truthy s then IsParagraph s else IsBlank
  end.

(** The document elements of a class; bullet and paragraph text is split
    into formatted runs. *)
Definition elements (c : line_class) : list block :=
  match c with
  | IsHeading level text => [Heading level text]
  | IsBullet text =>
      [Para (_add_formatted_runs (new_paragraph (Some List_Bullet)) text)]
  | IsParagraph text => [Para (_add_formatted_runs (new_paragraph None) text)]
  | IsBlank => []
  end.

(** The runs of the specification's example. *)
Definition bold_run (text : str) : Docx.run := set_bold true (plain_run text).
Definition italic_run (text : str) : Docx.run := set_italic true (plain_run text).

Definition example_markup : str := lit "**bold** and *italic* and plain".

(** A text without its stars. *)
Definition without_stars (text : str) : str :=
  List.filter (fun c => negb (c =? star)) text.

(** ** Execution Controller *)

(** The interrupt requests a snapshot reports, in the order of its task
    collection; a task without the attribute reports none. *)
Definition reported (tasks : list task) : list interrupt :=
  flat_map (fun t => default [] (interrupts t)) tasks.

(** What resolving one interrupt consists of: the banner numbered
    [gate_num] with the payload, the reply [line] collected from the
    operator, and one resume invocation with the value made of the reply. *)
Definition gate_events (gate_num : nat) (intr : interrupt) (line : str)
  : list event :=
  [ EvDisplay (HTML hr_above);
    EvDisplay (Markdown (lit "### Human Input " ++ str_of_nat gate_num));
    EvDisplay (Markdown (value intr));
    EvDisplay (HTML hr_below);
    EvInput prompt line;
    EvInvoke (Resume (feedback_of line)) None ].

(** Resolving the interrupts [intrs] one after the other with the replies
    [lines], the banners numbered from [gate_num + 1]. *)
Fixpoint gates_events (gate_num : nat) (intrs : list interrupt)
    (lines : list str) : list event :=
  match intrs, lines with
  | intr :: intrs', line :: lines' =>
      gate_events (S gate_num) intr line
      ++ gates_events (S gate_num) intrs' lines'
  | _, _ => []
  end.

(** The engine answers every resume invocation. *)
Definition resumes_return (agent : Agent) : Prop :=
  forall (history : list payload) (feedback : str),
    exists r, agent_invoke agent (history ++ [Resume feedback]) = Returns r.

(** ** Output stream and files *)

Definition is_open (files : list file) (h : nat) : bool :=
  match files !! h with
  | Some f => negb (f_closed f)
  | None => false
  end.

(** A stream that can be written to, given the files [files]: the
    console, or a tee whose log is an open file and whose [_orig] can be
    written to. Every write to such a stream reaches the console once. *)
Fixpoint writable (files : list file) (st : stream) : bool :=
  match st with
  | PyNone => false
  | Console => true
  | TeeWriter _log _orig => is_open files _log && writable files _orig
  end.

(** A file object after writes to it: the same path, open or closed as
    before. *)
Definition kept (f f' : file) : Prop :=
  f_path f' = f_path f /\ f_closed f' = f_closed f.

(** What a process keeps fixed while it prints, writes files and reads
    the clock: everything but the console, the files and the clock. *)
Definition same_env (w w' : world) : Prop :=
  w_trace w' = w_trace w /\ w_stdin w' = w_stdin w
  /\ w_stdout w' = w_stdout w /\ w_tee w' = w_tee w
  /\ w_orig_stdout w' = w_orig_stdout w /\ w_dirs w' = w_dirs w
  /\ w_readonly w' = w_readonly w /\ w_cwd w' = w_cwd w
  /\ w_clock w' = w_clock w /\ w_time w' = w_time w
  /\ w_docx w' = w_docx w.

(** What [print(s)] writes. *)
Definition printed (s : str) : list str := [s; [newline]].

(** ** Document Composer *)

(** The markdown output: title line, timestamp, model listing, rule,
    recommendation, rule, action plan; one item per write. *)
Definition markdown_chunks (result : result) (config : Config)
    (generated : str) : list chunk :=
  [ Chars (lit "# MBA Strategy Report v4" ++ [newline; newline]);
    Chars (lit "**Generated:** " ++ generated ++ [newline]);
    Chars (lit "**Agents:** " ++ agents_str config ++ rule);
    Chars (get result (lit "recommendation"));
    Chars rule;
    Chars (get result (lit "action_plan")) ].

Definition md_path_of (output_dir : str) : str :=
  path_join output_dir (lit "report_" ++ path_name output_dir ++ lit ".md").
Definition meta_path_of (output_dir : str) : str :=
  path_join output_dir (lit "meta.yaml").
Definition docx_path_of (output_dir : str) : str :=
  path_join output_dir (lit "report_" ++ path_name output_dir ++ lit ".docx").

(** The exception that ends the document output, if one does: of the
    import, of the composition, of [doc.save], or of opening the file. *)
Definition docx_failure (w : world) (output_dir : str) : option exn :=
  match import_raises (w_docx w) with
  | Some e => Some e
  | None =>
      match compose_raises (w_docx w) with
      | Some e => Some e
      | None =>
          match save_raises (w_docx w) with
          | Some e => Some e
          | None =>
              if bool_decide (docx_path_of output_dir ∈ w_readonly w)
              then Some (mk_exn OSError (docx_path_of output_dir))
              else None
          end
      end
  end.

(** What the document output reports: the path of the document, the
    skip notice, or the warning with the text of the exception. *)
Definition docx_notice (w : world) (output_dir : str) : str :=
  match docx_failure w output_dir with
  | None => lit "DOCX:     " ++ docx_path_of output_dir
  | Some e =>
      if is_ImportError e then lit "[SKIP] python-docx not installed"
      else lit "[WARNING] DOCX generation failed: " ++ str_of_exn e
  end.

(** The elements of one section of the document: those of the lines of
    its text; none for an empty text. *)
Definition section_blocks (text : str) : list block :=
  if truthy text then
    flat_map (fun line => elements (classify line)) (split_on newline text)
  else [].

(** The metadata record, as the specification lists its fields. *)
Definition metadata (timestamp : str) (config : Config) (elapsed_seconds : float)
  : Yaml.node :=
  Yaml.Mapping [
    (lit "timestamp", Yaml.ScalarStr timestamp);
    (lit "input_query", Yaml.ScalarStr (input_query config));
    (lit "auto_approve", Yaml.ScalarBool false);
    (lit "models",
      Yaml.Mapping
        (List.map (fun kv => (fst kv, Yaml.ScalarStr (model (snd kv))))
           (agents config)));
    (lit "elapsed_seconds", Yaml.ScalarFloat elapsed_seconds) ].

(** [t] tenths is a decimal nearest to [m * 2^e], for [e < 0]. *)
Definition nearest_tenths (m : positive) (e t : Z) : Prop :=
  (Z.abs (2 * (10 * Z.pos m) - 2 * t * 2 ^ (- e)) <= 2 ^ (- e))%Z.

(** [y] is [x] rounded to one decimal place: the float of a nearest
    number of tenths, with the sign of [x]; [x] itself when it is no
    finite number, or when the floats around it are integers or more
    than a tenth apart. *)
Definition rounded_to_one_decimal (x y : float) : Prop :=
  match Prim2SF x with
  | S754_finite s m e =>
      if ((0 <=? e) || (2 ^ (49 - e) <=? Z.pos m))%Z then y = x
      else exists t, nearest_tenths m e t
                     /\ y = (if s then - (PyFloat.of_Z t / 10) else PyFloat.of_Z t / 10)%float
  | _ => y = x
  end.

(** The document file the document output leaves: [doc] at the path of
    the document when nothing fails, none otherwise. *)
Definition docx_files (w : world) (output_dir : str) (doc : document)
  : list file :=
  match docx_failure w output_dir with
  | None => [mk_file (docx_path_of output_dir) [DocxPackage doc] true]
  | Some _ => []
  end.

(** A sequence of writes to the output stream. *)
Definition prints (texts : list str) : M unit :=
  for_in texts (fun s _ => print s) tt.

(** The events added to the trace from [w] to [w']. *)
Definition new_events (w w' : world) : list event :=
  skipn (length (w_trace w)) (w_trace w').

(** ** Failures and teardown *)

Definition is_stop_log (ev : event) : bool :=
  match ev with EvStopLog => true | _ => false end.

Definition is_log_started (ev : event) : bool :=
  match ev with EvLogStarted => true | _ => false end.

(** An invocation of the workflow that raised. *)
Definition failed (ev : event) : bool :=
  match ev with EvInvoke _ (Some _) => true | _ => false end.

(** Any event but a start of the log, a call of [stop_log], and an
    invocation that raised. *)
Definition uneventful (ev : event) : bool :=
  negb (is_stop_log ev || is_log_started ev || failed ev).

(** How often [stop_log] was called, and [start_log] returned. *)
Definition stop_log_calls (evs : list event) : nat :=
  length (List.filter is_stop_log evs).
Definition log_starts (evs : list event) : nat :=
  length (List.filter is_log_started evs).

(** How a computation ended. *)
Inductive status : Type :=
| Returned
| Raised (e : exn)
| Diverged.

Definition status_of {A : Type} (o : outcome A) : status :=
  match o with
  | Ret _ => Returned
  | Raise e => Raised e
  | Diverge => Diverged
  end.

(** The events of a computation that fails with the engine: uneventful
    ones, and if an invocation raised, it is the last event and its
    exception is the outcome. *)
Definition engine_events (st : status) (new : list event) : Prop :=
  forallb uneventful new = true
  \/ exists pre p e,
       new = pre ++ [EvInvoke p (Some e)]
       /\ forallb uneventful pre = true
       /\ st = Raised e.

(** The events of [run]: uneventful ones when it ends before its [try]
    statement; else the start of the log, the events of the body, and the
    call of [stop_log] unless the body never ended. *)
Definition run_events (st : status) (new : list event) : Prop :=
  (forallb uneventful new = true /\ st <> Diverged)
  \/ exists body,
       new = EvLogStarted :: body
             ++ (match st with Diverged => [] | _ => [EvStopLog] end)
       /\ engine_events st body.

(** [m] adds to the trace, and what it adds and how it ends satisfy [P]. *)
Definition traces {A : Type} (m : M A) (P : status -> list event -> Prop)
  : Prop :=
  forall w, exists new,
    w_trace (snd (m w)) = w_trace w ++ new
    /\ P (status_of (fst (m w))) new.

(** [m] leaves the trace as it is, and ends. *)
Definition silent {A : Type} (m : M A) : Prop :=
  forall w, w_trace (snd (m w)) = w_trace w /\ fst (m w) <> Diverge.

End Spec.

(** * Concrete inputs *)

Module Examples.
Import World Monad Sys Docx Renderer ReportExport RunAgent.

Definition noon : datetime :=
  {| strftime_Ymd_HMS := lit "20260101_120000";
     isoformat := lit "2026-01-01T12:00:00";
     strftime_B_d_Y := lit "January 01, 2026" |}.

Definition backend_ok : docx_backend :=
  {| import_raises := None; compose_raises := None; save_raises := None |}.

(** A fresh process: nothing on disk but the paths [readonly] that cannot
    be written, output on the console, an operator who will type [lines],
    and the document backend [backend]. *)
Definition process (lines readonly : list str) (backend : docx_backend) : world :=
  mk_world [] lines [] Console None PyNone [] [] readonly (lit "/content")
    (fun _ => noon) (fun n => PyFloat.of_Z (Z.of_nat n)) 0 backend.

Definition fresh (lines : list str) : world := process lines [] backend_ok.

Definition bad_style : exn :=
  mk_exn (OtherException (lit "KeyError")) (lit "no style with name 'List Bullet'").

(** A backend that fails while the document is composed. *)
Definition backend_broken : docx_backend :=
  {| import_raises := None; compose_raises := Some bad_style; save_raises := None |}.

Definition out_dir : str := lit "20260101_120000".

Definition report : result :=
  {[ lit "recommendation" := lit "# Go" ++ newline :: lit "- *now*" ]}.

Definition ask (question : string) : interrupt := {| value := lit question |}.

(** A snapshot with two interrupts on one task, a task without the
    attribute, and a third interrupt on a last task. *)
Definition paused : snapshot :=
  {| next := [lit "human_gate"];
     tasks := [ {| task_name := lit "intake";
                   interrupts := Some [ask "Scope?"; ask "Budget?"] |};
                {| task_name := lit "research"; interrupts := None |};
                {| task_name := lit "synthesis";
                   interrupts := Some [ask "Approve plan?"] |} ] |}.

Definition finished : snapshot := {| next := []; tasks := [] |}.

(** An engine that pauses once, on [paused], and ends after the three
    resumes. *)
Definition engine : Agent :=
  {| agent_invoke := fun _ => Returns report;
     agent_get_state := fun history =>
       Returns (if (length history <? 4)%nat then paused else finished) |}.

Definition no_key : exn := mk_exn (OtherException (lit "AuthenticationError")) (lit "no API key").

(** An engine whose second resume raises. *)
Definition failing_engine : Agent :=
  {| agent_invoke := fun history =>
       if (length history <? 3)%nat then Returns report else Raises no_key;
     agent_get_state := fun _ => Returns paused |}.

Definition mba_of (agent : Agent) : MbaModule :=
  {| build_graph := Returns agent; INPUT_QUERY := lit "Q" |}.

Definition config : Config :=
  {| input_query := lit "Q";
     agents := [(lit "a", {| model := lit "m" |})];
     max_clarify_rounds := 5;
     max_research_topics := 2;
     max_web_search_ct := 10;
     max_debate_rounds := 2;
     max_human_revision_on_proposal := 2;
     max_human_revision_on_plan := 2 |}.

End Examples.


(** * Further notions

  What the further properties of the code, below, are stated with. *)

Module Notions.
Import World Monad Sys Docx Re Renderer ReportExport RunAgent Spec.
Import ConfigUI Loader.
Local Open Scope py_scope.
Unset Implicit Arguments.

(** ** Inline markup *)

(** A text without a star, and a text without a line break. *)
Definition star_free (s : str) : bool := forallb (fun c => negb (c =? star)) s.
Definition one_line (s : str) : bool := forallb dot s.

(** What has to match after the lazy repetition of the bold alternative
    of [inline_markup], and of the italic one. *)
Definition closes_bold (s : str) : option str :=
  rmatch (Seq (Chr (only star)) (Chr (only star))) s Some.
Definition closes_italic (s : str) : option str :=
  rmatch (Chr (only star)) s Some.

Definition hash : N := 35.
Definition space : N := 32.

(** ** The document *)

(** A centred paragraph of one run, as the cover page has them. *)
Definition centred_line (b : block) : bool :=
  match b with
  | Para p =>
      match p_alignment p, p_runs p with
      | Some CENTER, [_] => true
      | _, _ => false
      end
  | _ => false
  end.

Definition is_page_break (b : block) : bool :=
  match b with PageBreak => true | _ => false end.

(** The five notices of [save_all], in the order they are printed. *)
Definition notices (w : world) (output_dir : str) : list str :=
  [ lit "Markdown: " ++ md_path_of output_dir;
    lit "Meta:     " ++ meta_path_of output_dir;
    docx_notice w output_dir;
    lit "Log:      " ++ path_join output_dir (lit "log.txt");
    newline :: lit "All outputs saved to: " ++ output_dir ].

(** The markdown file and the metadata file of a report, closed. *)
Definition md_file (result : result) (config : Config) (d generated : str) : file :=
  mk_file (md_path_of d) (markdown_chunks result config generated) true.
Definition meta_file (config : Config) (d timestamp : str) (elapsed : float)
  : file :=
  mk_file (meta_path_of d)
    [YamlDoc (metadata timestamp config (PyFloat.round1 elapsed))] true.

(** ** The events of a run *)

(** Every reply read from the operator is followed at once by the resume
    invocation that carries the value made of it, and no resume invocation
    stands without the reply before it. *)
Fixpoint replies_resumed (evs : list event) : bool :=
  match evs with
  | [] => true
  | EvInput _ line :: rest =>
      match rest with
      | EvInvoke (Resume feedback) _ :: rest' =>
          bool_decide (feedback = feedback_of line) && replies_resumed rest'
      | _ => false
      end
  | EvInvoke (Resume _) _ :: _ => false
  | _ :: rest => replies_resumed rest
  end.

(** The calls of a run to the engine: none, or the initial invocation with
    the query followed by resume invocations only. *)
Definition starts_then_resumes (query : str) (calls : list payload) : Prop :=
  calls = [] \/ exists values, calls = Start query :: List.map Resume values.

(** Events without a call to the engine, and events whose calls to the
    engine are resume invocations. *)
Definition no_call (new : list event) : Prop := invocations new = [].
Definition only_resumes (new : list event) : Prop :=
  exists values, invocations new = List.map Resume values.

(** The engine's answer to the last invocation of the trace is [r]. *)
Definition answered (agent : Agent) (w : world) (r : result) : Prop :=
  agent_invoke agent (invocations (w_trace w)) = Returns r.

(** A property of the events a computation adds that holds when it adds
    none, and of one sequence followed by another. *)
Record monoidal (P : list event -> Prop) : Prop := {
  holds_nil : P [];
  holds_app : forall a b, P a -> P b -> P (a ++ b)
}.

(** The banner of a gate. *)
Definition banner (gate_num : nat) (intr : interrupt) : list event :=
  [ EvDisplay (HTML hr_above);
    EvDisplay (Markdown (lit "### Human Input " ++ str_of_nat gate_num));
    EvDisplay (Markdown (value intr));
    EvDisplay (HTML hr_below) ].

(** The statements of the [try] block of [run] after the loop, [t0] being
    the time read before the first invocation and [result] the state the
    last invocation returned. *)
Definition finish (config_dict : Config) (output_dir : str) (t0 : float)
    (result : result) : M World.result :=
  t1 <- time_time ;;
  let elapsed := (t1 - t0)%float in
  save_all result config_dict output_dir elapsed ;;
  mounted <- path_exists (lit "/content/drive/MyDrive") ;;
  (if mounted : bool then
     mkdir DRIVE_OUTPUT_DIR ;;
     let drive_dest := path_join DRIVE_OUTPUT_DIR (path_name output_dir) in
     copytree output_dir drive_dest ;;
     print (lit "Drive:    " ++ drive_dest)
   else
     print (lit "[SKIP] Google Drive not mounted " ++ 8212 :: lit " Drive save skipped")) ;;
  display (HTML (lit "<hr style='border:4px solid #1B2A4A; margin:24px 0'>")) ;;
  display (Markdown (lit "## Agent Complete")) ;;
  print (lit "Elapsed: " ++ PyFloat.format_0f elapsed ++ lit "s") ;;
  ret result.

(** ** The world inside the [try] block of [run] *)

(** The output stream is the tee over [o] whose log is the open file of
    handle [h] at [log_path], the two globals of [report_export] hold it,
    and the files [saved], written since the log was started, are among
    the files. *)
Definition logging (h : nat) (o : stream) (log_path : str) (saved : list file)
    (w : world) : Prop :=
  w_stdout w = TeeWriter h o /\ w_tee w = Some (h, o) /\ w_orig_stdout w = o
  /\ exists base rest,
       w_files w = base ++ rest /\ length base = S h
       /\ writable base (TeeWriter h o) = true
       /\ (exists c, base !! h = Some (mk_file log_path c false))
       /\ Forall (fun f => In f rest) saved.

(** The clock of the world is [clock] and [time], read [n] times so far. *)
Definition at_tick (n : nat) (clock : nat -> datetime) (time : nat -> float)
    (w : world) : Prop :=
  w_ticks w = n /\ w_clock w = clock /\ w_time w = time.

(** The directory [p] exists; the directories of [w] are still there in
    [w']. *)
Definition has_dir (p : str) (w : world) : Prop := p ∈ w_dirs w.
Definition dirs_grow (w w' : world) : Prop :=
  forall p : str, p ∈ w_dirs w -> p ∈ w_dirs w'.

(** [m] keeps [I]: started in a world where [I] holds, it ends, however
    it ends, in one where [I] holds. *)
Definition keeps {A : Type} (I : world -> Prop) (m : M A) : Prop :=
  forall w, I w -> I (snd (m w)).

(** [I] does not depend on the trace nor on the lines still to be typed. *)
Definition ignores_talk (I : world -> Prop) : Prop :=
  (forall w tr, I w -> I (set_trace tr w))
  /\ (forall w lines, I w -> I (set_stdin lines w)).

Definition MyDrive : str := lit "/content/drive/MyDrive".

(** ** Loading *)

(** The session in which [load] reaches its [try] statement, when the
    configuration file can be written: the dict is dumped, the notice is
    printed, and the directory of the agent is on [sys.path], at the
    front and announced if it was not there. *)
Definition prepared (config_ui : form) (repo_dir : str) (s : session) : session :=
  let agent_dir := path_join repo_dir MBA_course in
  let config_path := path_join agent_dir (lit "config.yaml") in
  let known := bool_decide (agent_dir ∈ sys_path s) in
  mk_session
    (s_files s ++ [(config_path, config_dict (get_config config_ui))])
    (s_readonly s)
    (s_console s ++ [lit "Config written to " ++ config_path]
     ++ (if known then [] else [lit "Agent module path added: " ++ agent_dir]))
    (if known then sys_path s else agent_dir :: sys_path s)
    (sys_modules s) (s_runs s).

(** The keys of a dict, in its order. *)
Definition dict_keys (o : pyobj) : list str :=
  match o with ODict items => List.map fst items | _ => [] end.

End Notions.

(** * Further concrete inputs *)

Module Cases.
Import World Monad Sys ReportExport RunAgent ConfigUI Loader Notions.

(** The form as [config_ui] creates it. *)
Definition defaults : form :=
  {| query_input := lit "How should I start a beverage business in Sweden?";
     model_intake := lit "openai/gpt-4o";
     model_researcher := lit "openai/gpt-4o";
     model_critic := lit "openai/gpt-4o";
     model_synthesizer := lit "anthropic/claude-opus-4.6";
     max_clarify := 5;
     max_topics := 2;
     max_web := 10;
     max_debate := 2;
     max_rev_proposal := 2;
     max_rev_plan := 2 |}.

Definition agent_module : MbaModule := Examples.mba_of Examples.engine.

(** Code of the module that runs, and code that fails every time. *)
Definition sound : source := fun _ _ => (agent_module, None).
Definition broken : source := fun _ _ => (agent_module, Some Examples.no_key).

Definition repo : str := lit "/content/Final_Project_Sp26".

(** A session that has not imported the module, one that has, and one
    in which the configuration file cannot be written. *)
Definition new_session : session :=
  mk_session [] [] [] [lit "/usr/lib/python3"] None 0.
Definition warm_session : session :=
  mk_session [] [] [] [lit "/usr/lib/python3"] (Some agent_module) 1.
Definition locked_session : session :=
  mk_session []
    [path_join (path_join repo MBA_course) (lit "config.yaml")] [] [] None 0.

(** An engine that ends without an interrupt, and a process whose Drive
    is mounted. *)
Definition direct : Agent :=
  {| agent_invoke := fun _ => Returns Examples.report;
     agent_get_state := fun _ => Returns Examples.finished |}.
Definition with_drive : world := set_dirs [MyDrive] (Examples.fresh []).

End Cases.

(** * Properties *)

Import World Monad Sys Docx Renderer ReportExport RunAgent Spec.
Local Open Scope py_scope.
Unset Implicit Arguments.

(** ** Strings *)

Lemma startswith_app (p s : str) :
  startswith p s = true -> exists rest, s = p ++ rest.
Proof.
  revert s. induction p as [|a p IH]; intros s H.
  - exists s. reflexivity.
  - destruct s as [|b s]; simpl in H; [discriminate|].
    apply andb_true_iff in H as [Hab Hps].
    apply N.eqb_eq in Hab. subst b.
    destruct (IH s Hps) as [rest ->].
    exists rest. reflexivity.
Qed.

Lemma slice_from_skipn (n : nat) (s : str) :
  slice_from (Z.of_nat n) s = skipn n s.
Proof.
  unfold slice_from, clamp.
  destruct (Z.ltb_spec (Z.of_nat n) 0) as [Hneg|_]; [lia|].
  destruct (Z.le_gt_cases (Z.of_nat n) (Z.of_nat (length s))) as [Hle|Hgt].
  - rewrite Z.min_r, Z.max_r by lia. rewrite Nat2Z.id. reflexivity.
  - rewrite Z.min_l, Z.max_r by lia. rewrite Nat2Z.id.
    rewrite !skipn_all2 by lia. reflexivity.
Qed.

(** ** Renderer *)

Lemma render_line_classify (doc : document) (line : str) :
  render_line doc line =
  fold_left add_block (elements (classify line)) doc.
Proof.
  unfold render_line, classify, prefix_rules. cbn [first_rule].
  change 4%Z with (Z.of_nat 4). change 3%Z with (Z.of_nat 3).
  change 2%Z with (Z.of_nat 2). rewrite !slice_from_skipn.
  destruct (startswith (lit "### ") (strip line)); [reflexivity|].
  destruct (startswith (lit "## ") (strip line)); [reflexivity|].
  destruct (startswith (lit "# ") (strip line)); [reflexivity|].
  destruct (startswith (lit "- ") (strip line)); [reflexivity|].
  destruct (startswith (lit "* ") (strip line)); [reflexivity|].
  simpl orb. destruct (truthy (strip line)); reflexivity.
Qed.

Lemma fold_add_block (doc : document) (bs : list block) :
  doc_blocks (fold_left add_block bs doc) = doc_blocks doc ++ bs.
Proof.
  revert doc. induction bs as [|b bs IH]; intros doc; simpl.
  - rewrite app_nil_r. reflexivity.
  - rewrite IH. simpl. rewrite <- app_assoc. reflexivity.
Qed.

Lemma render_lines_blocks (lines : list str) (doc : document) :
  doc_blocks (fold_left render_line lines doc) =
  doc_blocks doc ++ flat_map (fun line => elements (classify line)) lines.
Proof.
  revert doc. induction lines as [|line lines IH]; intros doc; simpl.
  - rewrite app_nil_r. reflexivity.
  - rewrite IH, render_line_classify, fold_add_block, <- app_assoc.
    reflexivity.
Qed.

(** C6. [_md_lines_to_docx] classifies every line of the text on its own,
    by the prefix of the whitespace-trimmed line in the order of
    precedence "### ", "## ", "# ", then "- " or "* ", then any other
    non-blank line as a paragraph, and a blank line as nothing: the blocks
    it adds are the elements of the lines' classes, in order. The line
    "### Title" is a level-3 heading with the text "Title". *)
Theorem md_lines_classified_by_prefix (doc : document) (text : str) :
  doc_blocks (_md_lines_to_docx doc text) =
    doc_blocks doc
    ++ flat_map (fun line => elements (classify line)) (split_on newline text)
  /\ classify (lit "### Title") = IsHeading 3 (lit "Title")
  /\ doc_blocks (_md_lines_to_docx doc (lit "### Title")) =
       doc_blocks doc ++ [Heading 3 (lit "Title")].
Proof.
  split; [|split].
  - unfold _md_lines_to_docx. apply render_lines_blocks.
  - reflexivity.
  - unfold _md_lines_to_docx. rewrite render_lines_blocks. reflexivity.
Qed.

(** C3 as stated does not hold: the runs of the example are not the four
    listed, and they are not three. *)
Lemma example_runs_not_as_listed :
  p_runs (_add_formatted_runs (new_paragraph None) example_markup)
    <> [bold_run (lit "bold"); plain_run (lit " and ");
        italic_run (lit "italic"); plain_run (lit " and plain")]
  /\ length (p_runs (_add_formatted_runs (new_paragraph None) example_markup))
       <> 3%nat.
Proof.
  split.
  - vm_compute. discriminate.
  - vm_compute. discriminate.
Qed.

(** C3, amended. The example yields five runs: an empty plain run for the
    empty text before the first marker, then bold "bold", plain " and ",
    italic "italic", plain " and plain"; the texts of the runs, joined in
    order, are the example without its markers. *)
Theorem example_runs :
  let runs := p_runs (_add_formatted_runs (new_paragraph None) example_markup) in
  runs = [plain_run []; bold_run (lit "bold"); plain_run (lit " and ");
          italic_run (lit "italic"); plain_run (lit " and plain")]
  /\ concat (List.map run_text runs) = lit "bold and italic and plain"
  /\ concat (List.map run_text runs) = without_stars example_markup.
Proof.
  cbv zeta. split; [|split].
  - vm_compute. reflexivity.
  - vm_compute. reflexivity.
  - vm_compute. reflexivity.
Qed.

(** ** Running the monad by hand *)

(** One step of symbolic execution: the monad's operations and the fields
    of the world reduce, the texts and the calls of the libraries stay. *)
Ltac run_step :=
  cbn [bind ret raise diverge gets modify emit display raise_if fst snd
       w_trace w_stdin w_console w_stdout w_tee w_orig_stdout w_files
       w_dirs w_readonly w_cwd w_clock w_time w_ticks w_docx
       set_trace set_stdin set_console set_stdout set_tee set_orig_stdout
       set_files set_dirs set_ticks].

(** ** Execution Controller *)

Lemma invocations_app (a b : list event) :
  invocations (a ++ b) = invocations a ++ invocations b.
Proof. unfold invocations. apply omap_app. Qed.

Lemma gate_returns (agent : Agent) (intr : interrupt) (vars : nat * result)
    (w : world) (line : str) (rest : list str) (r : result) :
  w_stdin w = line :: rest ->
  agent_invoke agent (invocations (w_trace w) ++ [Resume (feedback_of line)])
    = Returns r ->
  gate agent intr vars w =
    (Ret (S (fst vars), r),
     set_trace (w_trace w ++ gate_events (S (fst vars)) intr line)
       (set_stdin rest w)).
Proof.
  intros Hin Hinv.
  unfold gate, bind, input, invoke. run_step. rewrite Hin. run_step.
  rewrite <- !app_assoc. rewrite invocations_app.
  change (invocations ([EvDisplay (HTML hr_above)] ++ _)) with (@nil payload).
  rewrite app_nil_r, Hinv. reflexivity.
Qed.

Lemma gate_raises (agent : Agent) (intr : interrupt) (vars : nat * result)
    (w : world) (line : str) (rest : list str) (e : exn) :
  w_stdin w = line :: rest ->
  agent_invoke agent (invocations (w_trace w) ++ [Resume (feedback_of line)])
    = Raises e ->
  invocations (w_trace (snd (gate agent intr vars w))) =
    invocations (w_trace w) ++ [Resume (feedback_of line)].
Proof.
  intros Hin Hinv.
  unfold gate, bind, input, invoke. run_step. rewrite Hin. run_step.
  rewrite <- !app_assoc. rewrite invocations_app.
  change (invocations ([EvDisplay (HTML hr_above)] ++ _)) with (@nil payload).
  rewrite app_nil_r, Hinv. run_step.
  rewrite !invocations_app.
  change (invocations ([EvDisplay (HTML hr_above)] ++ _)) with (@nil payload).
  rewrite app_nil_r. reflexivity.
Qed.

Lemma lstrip_spaces (s : str) :
  exists ws, s = ws ++ lstrip s /\ forallb is_space ws = true.
Proof.
  induction s as [|c s IH]; simpl.
  - exists []. split; reflexivity.
  - destruct (is_space c) eqn:Hc.
    + destruct IH as (ws & Heq & Hws).
      exists (c :: ws). simpl. rewrite Hc, Hws. split; [|reflexivity].
      f_equal. exact Heq.
    + exists []. split; reflexivity.
Qed.

Lemma strip_spaces (s : str) :
  exists before after,
    s = before ++ strip s ++ after
    /\ forallb is_space before = true /\ forallb is_space after = true.
Proof.
  destruct (lstrip_spaces s) as (before & Hs & Hbefore).
  destruct (lstrip_spaces (rev (lstrip s))) as (after & Hr & Hafter).
  exists before, (rev after). split; [|split].
  - unfold strip, rstrip. rewrite <- rev_app_distr, <- Hr, rev_involutive.
    exact Hs.
  - exact Hbefore.
  - rewrite forallb_forall in *. intros c Hc. apply Hafter.
    apply in_rev. exact Hc.
Qed.

(** C1 as stated does not hold for a reply with whitespace around it: the
    reply " go on " is not empty after trimming, and the workflow is
    resumed with "go on", not with the reply as typed. *)
Lemma padded_reply_is_trimmed :
  let w := Examples.fresh [lit " go on "] in
  let intr := Examples.ask "Scope?" in
  strip (lit " go on ") <> []
  /\ invocations (w_trace (snd (gate Examples.engine intr (O, ∅) w))) =
       [Resume (lit "go on")]
  /\ Resume (lit "go on") <> Resume (lit " go on ").
Proof.
  split; [|split].
  - vm_compute. discriminate.
  - vm_compute. reflexivity.
  - vm_compute. discriminate.
Qed.

(** C1, amended. The value of the resume invocation of a gate is made of
    the line the operator typed: it is "approved" when the line is empty
    after whitespace trimming, and the trimmed line otherwise: a non-empty
    reply is passed on without the whitespace before and after it, which
    is all the trimming removes, and unchanged apart from that. *)
Theorem resume_value_of_reply (agent : Agent) (intr : interrupt)
    (vars : nat * result) (w : world) (line : str) (rest : list str) :
  w_stdin w = line :: rest ->
  invocations (w_trace (snd (gate agent intr vars w))) =
    invocations (w_trace w) ++ [Resume (feedback_of line)]
  /\ (strip line = [] -> feedback_of line = lit "approved")
  /\ (strip line <> [] -> feedback_of line = strip line)
  /\ (exists before after,
        line = before ++ strip line ++ after
        /\ forallb is_space before = true /\ forallb is_space after = true).
Proof.
  intros Hin. split; [|split; [|split]].
  - destruct (agent_invoke agent
      (invocations (w_trace w) ++ [Resume (feedback_of line)])) as [r|e] eqn:Hinv.
    + rewrite (gate_returns _ _ _ _ _ _ _ Hin Hinv). simpl.
      rewrite invocations_app. reflexivity.
    + apply (gate_raises _ _ _ _ _ _ _ Hin Hinv).
  - intros Hempty. unfold feedback_of. rewrite Hempty. reflexivity.
  - intros Hfull. unfold feedback_of.
    destruct (strip line); [contradiction|reflexivity].
  - apply strip_spaces.
Qed.

Lemma for_in_app {X S : Type} (a b : list X) (body : X -> S -> M S) (s : S)
    (w : world) :
  for_in (a ++ b) body s w = bind (for_in a body s) (for_in b body) w.
Proof.
  revert s w. induction a as [|x a IH]; intros s w.
  - reflexivity.
  - simpl for_in. unfold bind.
    destruct (body x s w) as [[s'| |] w']; [|reflexivity|reflexivity].
    rewrite IH. reflexivity.
Qed.

(** C10. A task of the snapshot that does not expose the interrupts
    attribute is skipped: the gates of the task collection are those of
    the collection without it, in every world and with every outcome,
    and the task itself changes nothing, so it shows no banner, asks for
    no reply and resumes nothing, and it does not fail. *)
Theorem task_without_interrupts_is_skipped (agent : Agent)
    (before after : list task) (t : task) (vars : nat * result) (w : world) :
  interrupts t = None ->
  snapshot_gates agent (before ++ t :: after) vars w =
    snapshot_gates agent (before ++ after) vars w
  /\ task_gates agent t vars w = (Ret vars, w)
  /\ reported (before ++ t :: after) = reported (before ++ after).
Proof.
  intros Hnone. split; [|split].
  - unfold snapshot_gates. rewrite !for_in_app. unfold bind.
    destruct (for_in before (task_gates agent) vars w) as [[vars'| |] w'];
      [|reflexivity|reflexivity].
    simpl for_in. unfold bind, task_gates at 1. rewrite Hnone. reflexivity.
  - unfold task_gates. rewrite Hnone. reflexivity.
  - unfold reported. rewrite !flat_map_app. simpl. rewrite Hnone. reflexivity.
Qed.

Lemma task_without_interrupts_is_skipped_witness :
  let intake := {| task_name := lit "intake";
                   interrupts := Some [Examples.ask "Scope?"] |} in
  let research := {| task_name := lit "research"; interrupts := None |} in
  let w := Examples.fresh [lit "yes"] in
  snapshot_gates Examples.engine ([intake] ++ research :: []) (O, ∅) w =
    snapshot_gates Examples.engine ([intake] ++ []) (O, ∅) w
  /\ task_gates Examples.engine research (O, ∅) w = (Ret (O, ∅), w)
  /\ reported ([intake] ++ research :: []) = reported ([intake] ++ []).
Proof.
  intros intake research w.
  apply (task_without_interrupts_is_skipped
           Examples.engine [intake] [] research (O, ∅) w).
  reflexivity.
Defined.

Lemma resume_value_of_reply_witness :
  let w := Examples.fresh [lit "  "; lit " go on "] in
  let w' := Examples.fresh [lit " go on "] in
  let intr := Examples.ask "Scope?" in
  (invocations (w_trace (snd (gate Examples.engine intr (O, ∅) w))) =
     invocations (w_trace w) ++ [Resume (feedback_of (lit "  "))]
   /\ feedback_of (lit "  ") = lit "approved")
  /\ (invocations (w_trace (snd (gate Examples.engine intr (O, ∅) w'))) =
        invocations (w_trace w') ++ [Resume (feedback_of (lit " go on "))]
      /\ feedback_of (lit " go on ") = strip (lit " go on ")).
Proof.
  intros w w' intr. split.
  - destruct (resume_value_of_reply Examples.engine intr (O, ∅) w
                (lit "  ") [lit " go on "] eq_refl)
      as (Hresume & Hempty & _ & _).
    split; [exact Hresume|]. apply Hempty. reflexivity.
  - destruct (resume_value_of_reply Examples.engine intr (O, ∅) w'
                (lit " go on ") [] eq_refl)
      as (Hresume & _ & Hfull & _).
    split; [exact Hresume|]. apply Hfull. vm_compute. discriminate.
Defined.

Lemma gates_events_app (n : nat) (a b : list interrupt) (r1 r2 : list str) :
  length r1 = length a ->
  gates_events n (a ++ b) (r1 ++ r2) =
    gates_events n a r1 ++ gates_events (n + length a) b r2.
Proof.
  revert n r1. induction a as [|intr a IH]; intros n r1 Hlen.
  - destruct r1; [|discriminate]. simpl. rewrite Nat.add_0_r. reflexivity.
  - destruct r1 as [|line r1]; [discriminate|].
    injection Hlen as Hlen. cbn [gates_events app length].
    rewrite (IH (S n) r1 Hlen), <- app_assoc.
    replace (n + S (length a))%nat with (S n + length a)%nat by lia.
    reflexivity.
Qed.

Lemma gates_events_invocations (n : nat) (intrs : list interrupt)
    (replies : list str) :
  length replies = length intrs ->
  invocations (gates_events n intrs replies) =
    List.map (fun line => Resume (feedback_of line)) replies.
Proof.
  revert n replies. induction intrs as [|intr intrs IH]; intros n replies Hlen.
  - destruct replies; [reflexivity|discriminate].
  - destruct replies as [|line replies]; [discriminate|].
    injection Hlen as Hlen. cbn [gates_events].
    rewrite invocations_app, (IH (S n) replies Hlen). reflexivity.
Qed.

Lemma gates_events_no_state_query (n : nat) (intrs : list interrupt)
    (replies : list str) :
  ~ In EvGetState (gates_events n intrs replies).
Proof.
  revert n replies. induction intrs as [|intr intrs IH]; intros n replies Hin.
  - destruct replies; exact Hin.
  - destruct replies as [|line replies]; [exact Hin|].
    cbn [gates_events] in Hin. apply in_app_or in Hin as [Hin|Hin].
    + unfold gate_events in Hin. simpl in Hin.
      repeat (destruct Hin as [Hin|Hin]; [discriminate|]). exact Hin.
    + exact (IH _ _ Hin).
Qed.

Section Gates.
Variable agent : Agent.
Hypothesis Hresumes : resumes_return agent.

Lemma gates_run (intrs : list interrupt) :
  forall (replies rest : list str) (vars : nat * result) (w : world),
    w_stdin w = replies ++ rest ->
    length replies = length intrs ->
    exists vars' w',
      for_in intrs (gate agent) vars w = (Ret vars', w')
      /\ w_trace w' = w_trace w ++ gates_events (fst vars) intrs replies
      /\ w_stdin w' = rest
      /\ fst vars' = (fst vars + length intrs)%nat.
Proof.
  induction intrs as [|intr intrs IH]; intros replies rest vars w Hin Hlen.
  - destruct replies; [|discriminate].
    exists vars, w. simpl. rewrite app_nil_r, Nat.add_0_r. auto.
  - destruct replies as [|line replies]; [discriminate|].
    injection Hlen as Hlen. simpl in Hin.
    destruct (Hresumes (invocations (w_trace w)) (feedback_of line)) as [r Hr].
    cbn [for_in]. unfold bind.
    rewrite (gate_returns agent intr vars w line (replies ++ rest) r Hin Hr).
    destruct (IH replies rest (S (fst vars), r)
                (set_trace (w_trace w ++ gate_events (S (fst vars)) intr line)
                   (set_stdin (replies ++ rest) w)) eq_refl Hlen)
      as (vars' & w' & Hrun & Htrace & Hrest & Hnum).
    exists vars', w'. rewrite Hrun. split; [reflexivity|].
    split; [|split; [exact Hrest|]].
    + rewrite Htrace. cbn [w_trace set_trace gates_events fst].
      rewrite <- app_assoc. reflexivity.
    + rewrite Hnum. simpl. lia.
Qed.

Lemma snapshot_gates_run (tasks : list task) :
  forall (replies rest : list str) (vars : nat * result) (w : world),
    w_stdin w = replies ++ rest ->
    length replies = length (reported tasks) ->
    exists vars' w',
      snapshot_gates agent tasks vars w = (Ret vars', w')
      /\ w_trace w' = w_trace w ++ gates_events (fst vars) (reported tasks) replies
      /\ w_stdin w' = rest
      /\ fst vars' = (fst vars + length (reported tasks))%nat.
Proof.
  unfold snapshot_gates.
  induction tasks as [|t tasks IH]; intros replies rest vars w Hin Hlen.
  - destruct replies; [|discriminate].
    exists vars, w. simpl. rewrite app_nil_r, Nat.add_0_r. auto.
  - change (reported (t :: tasks))
      with (default [] (interrupts t) ++ reported tasks) in *.
    rewrite length_app in Hlen.
    rewrite <- (firstn_skipn (length (default [] (interrupts t))) replies) in Hin |- *.
    set (r1 := firstn (length (default [] (interrupts t))) replies) in *.
    set (r2 := skipn (length (default [] (interrupts t))) replies) in *.
    assert (Hr1 : length r1 = length (default [] (interrupts t)))
      by (unfold r1; rewrite length_firstn; lia).
    assert (Hr2 : length r2 = length (reported tasks))
      by (unfold r2; rewrite length_skipn; lia).
    clearbody r1 r2. rewrite <- app_assoc in Hin.
    assert (Htask : exists vars1 w1,
              task_gates agent t vars w = (Ret vars1, w1)
              /\ w_trace w1 =
                   w_trace w ++ gates_events (fst vars) (default [] (interrupts t)) r1
              /\ w_stdin w1 = r2 ++ rest
              /\ fst vars1 = (fst vars + length (default [] (interrupts t)))%nat).
    { unfold task_gates. destruct (interrupts t) as [intrs|]; simpl in *.
      - apply gates_run; assumption.
      - apply length_zero_iff_nil in Hr1. subst r1.
        exists vars, w. rewrite app_nil_r, Nat.add_0_r. auto. }
    destruct Htask as (vars1 & w1 & Hrun1 & Htrace1 & Hin1 & Hnum1).
    destruct (IH r2 rest vars1 w1 Hin1 Hr2)
      as (vars' & w' & Hrun & Htrace & Hrest & Hnum).
    exists vars', w'. cbn [for_in]. unfold bind. rewrite Hrun1, Hrun.
    split; [reflexivity|]. split; [|split; [exact Hrest|]].
    + rewrite Htrace, Htrace1, Hnum1, <- app_assoc.
      rewrite <- gates_events_app by exact Hr1. reflexivity.
    + rewrite Hnum, Hnum1, length_app. lia.
Qed.

End Gates.

Lemma for_in_extends {X S : Type} (l : list X) (body : X -> S -> M S) :
  (forall x s w, exists new, w_trace (snd (body x s w)) = w_trace w ++ new) ->
  forall s w, exists new, w_trace (snd (for_in l body s w)) = w_trace w ++ new.
Proof.
  intros Hbody. induction l as [|x l IH]; intros s w; cbn [for_in].
  - exists []. rewrite app_nil_r. reflexivity.
  - unfold bind. destruct (Hbody x s w) as (new1 & H1).
    destruct (body x s w) as [[s'| |] w1]; cbn [snd] in *;
      [|exists new1; exact H1|exists new1; exact H1].
    destruct (IH s' w1) as (new2 & H2). exists (new1 ++ new2).
    rewrite H2, H1, app_assoc. reflexivity.
Qed.

Lemma gate_extends (agent : Agent) (intr : interrupt) (vars : nat * result)
    (w : world) :
  exists new, w_trace (snd (gate agent intr vars w)) = w_trace w ++ new.
Proof.
  unfold gate, bind, input, invoke. run_step.
  destruct (w_stdin w) as [|line rest]; run_step.
  - eexists. rewrite <- !app_assoc. reflexivity.
  - destruct (agent_invoke agent _); run_step;
      eexists; rewrite <- !app_assoc; reflexivity.
Qed.

Lemma snapshot_gates_extends (agent : Agent) (tasks : list task)
    (vars : nat * result) (w : world) :
  exists new,
    w_trace (snd (snapshot_gates agent tasks vars w)) = w_trace w ++ new.
Proof.
  unfold snapshot_gates. apply for_in_extends. intros t s w0.
  unfold task_gates. destruct (interrupts t).
  - apply for_in_extends. intros. apply gate_extends.
  - exists []. rewrite app_nil_r. reflexivity.
Qed.

Lemma loop_extends (fuel : nat) (agent : Agent) :
  forall (vars : nat * result) (w : world),
    exists new,
      w_trace (snd (interrupt_loop fuel agent vars w)) = w_trace w ++ new.
Proof.
  induction fuel as [|fuel IH]; intros vars w; cbn [interrupt_loop].
  - exists []. rewrite app_nil_r. reflexivity.
  - unfold bind at 1, get_state.
    destruct (agent_get_state agent _) as [snap|e]; cbn [snd].
    + destruct (next snap).
      * eexists. reflexivity.
      * unfold bind.
        destruct (snapshot_gates_extends agent (tasks snap) vars
                    (set_trace (w_trace w ++ [EvGetState]) w)) as (new1 & H1).
        destruct (snapshot_gates agent (tasks snap) vars _) as [[vars'| |] w1];
          cbn [snd] in *; [|exists ([EvGetState] ++ new1); rewrite H1;
                            cbn [w_trace set_trace]; rewrite <- app_assoc;
                            reflexivity ..].
        destruct (IH vars' w1) as (new2 & H2).
        exists ([EvGetState] ++ new1 ++ new2). rewrite H2, H1.
        cbn [w_trace set_trace]. rewrite <- !app_assoc. reflexivity.
    + eexists. reflexivity.
Qed.

Lemma loop_begins_with_state_query (fuel : nat) (agent : Agent)
    (vars : nat * result) (w : world) :
  exists later,
    w_trace (snd (interrupt_loop (S fuel) agent vars w)) =
      w_trace w ++ EvGetState :: later.
Proof.
  cbn [interrupt_loop]. unfold bind at 1, get_state.
  destruct (agent_get_state agent _) as [snap|e]; cbn [snd].
  - destruct (next snap).
    + exists []. reflexivity.
    + unfold bind.
      destruct (snapshot_gates_extends agent (tasks snap) vars
                  (set_trace (w_trace w ++ [EvGetState]) w)) as (new1 & H1).
      destruct (snapshot_gates agent (tasks snap) vars _) as [[vars'| |] w1];
        cbn [snd] in *; [|exists new1; rewrite H1; cbn [w_trace set_trace];
                          rewrite <- app_assoc; reflexivity ..].
      destruct (loop_extends fuel agent vars' w1) as (new2 & H2).
      exists (new1 ++ new2). rewrite H2, H1. cbn [w_trace set_trace].
      rewrite <- !app_assoc. reflexivity.
  - exists []. reflexivity.
Qed.

(** C2. When the snapshot examined in an iteration of the loop reports N
    interrupts across its tasks (and the operator answers and the engine
    resumes without raising), the iteration consists of the state query
    followed by N gates, in the order the task collection reports the
    interrupts: each gate shows its banner, collects one reply and at once
    resumes the workflow with the value of that reply. These are exactly
    N resume invocations, one per reply and in the order of the replies;
    no state query lies between them, and what follows is the loop again,
    which starts with the next state query. *)
Theorem one_resume_per_interrupt (fuel : nat) (agent : Agent)
    (vars : nat * result) (w : world) (snap : snapshot)
    (replies rest : list str) :
  resumes_return agent ->
  agent_get_state agent (invocations (w_trace w)) = Returns snap ->
  next snap <> [] ->
  w_stdin w = replies ++ rest ->
  length replies = length (reported (tasks snap)) ->
  let gates := gates_events (fst vars) (reported (tasks snap)) replies in
  exists vars' w',
    interrupt_loop (S fuel) agent vars w = interrupt_loop fuel agent vars' w'
    /\ w_trace w' = w_trace w ++ EvGetState :: gates
    /\ invocations gates = List.map (fun line => Resume (feedback_of line)) replies
    /\ length (invocations gates) = length (reported (tasks snap))
    /\ ~ In EvGetState gates
    /\ w_stdin w' = rest
    /\ fst vars' = (fst vars + length (reported (tasks snap)))%nat
    /\ (forall again, exists later,
          w_trace (snd (interrupt_loop (S again) agent vars' w')) =
            w_trace w' ++ EvGetState :: later).
Proof.
  intros Hresumes Hstate Hnext Hin Hlen gates.
  destruct (snapshot_gates_run agent Hresumes (tasks snap) replies rest vars
              (set_trace (w_trace w ++ [EvGetState]) w) Hin Hlen)
    as (vars' & w' & Hrun & Htrace & Hrest & Hnum).
  exists vars', w'.
  split; [|split; [|split; [|split; [|split; [|split; [|split]]]]]].
  - cbn [interrupt_loop]. unfold bind at 1, get_state.
    rewrite Hstate. destruct (next snap) as [|n ns]; [contradiction|].
    unfold bind. rewrite Hrun. reflexivity.
  - rewrite Htrace. cbn [w_trace set_trace]. rewrite <- app_assoc. reflexivity.
  - apply gates_events_invocations. exact Hlen.
  - unfold gates. rewrite gates_events_invocations by exact Hlen.
    rewrite length_map. exact Hlen.
  - apply gates_events_no_state_query.
  - exact Hrest.
  - exact Hnum.
  - intros again. apply loop_begins_with_state_query.
Qed.

Lemma one_resume_per_interrupt_witness :
  let replies := [lit " "; lit "more detail"; lit "ok"] in
  let w := Examples.fresh replies in
  let gates := gates_events O (reported (tasks Examples.paused)) replies in
  exists vars' w',
    interrupt_loop 1 Examples.engine (O, ∅) w =
      interrupt_loop 0 Examples.engine vars' w'
    /\ w_trace w' = w_trace w ++ EvGetState :: gates
    /\ invocations gates = List.map (fun line => Resume (feedback_of line)) replies
    /\ length (invocations gates) = length (reported (tasks Examples.paused))
    /\ ~ In EvGetState gates
    /\ w_stdin w' = []
    /\ fst vars' = (O + length (reported (tasks Examples.paused)))%nat
    /\ (forall again, exists later,
          w_trace (snd (interrupt_loop (S again) Examples.engine vars' w')) =
            w_trace w' ++ EvGetState :: later).
Proof.
  intros replies w gates.
  apply (one_resume_per_interrupt 0 Examples.engine (O, ∅) w Examples.paused
           replies []).
  - intros history feedback. exists Examples.report. reflexivity.
  - reflexivity.
  - discriminate.
  - reflexivity.
  - reflexivity.
Defined.

(** ** Output stream and files *)

Lemma bind_run {A B : Type} (m : M A) (k : A -> M B) (w w' : world) (a : A) :
  m w = (Ret a, w') -> bind m k w = k a w'.
Proof. intros H. unfold bind. rewrite H. reflexivity. Qed.

Lemma bind_raise {A B : Type} (m : M A) (k : A -> M B) (w w' : world) (e : exn) :
  m w = (Raise e, w') -> bind m k w = (Raise e, w').
Proof. intros H. unfold bind. rewrite H. reflexivity. Qed.

Lemma same_env_refl (w : world) : same_env w w.
Proof. repeat split. Qed.

Lemma same_env_trans (w1 w2 w3 : world) :
  same_env w1 w2 -> same_env w2 w3 -> same_env w1 w3.
Proof.
  unfold same_env. intros H12 H23.
  decompose [and] H12. decompose [and] H23.
  repeat split; etransitivity; eassumption.
Qed.

Lemma kept_refl (fs : list file) : Forall2 kept fs fs.
Proof. induction fs; constructor; [split; reflexivity|assumption]. Qed.

Lemma kept_trans (fs1 fs2 fs3 : list file) :
  Forall2 kept fs1 fs2 -> Forall2 kept fs2 fs3 -> Forall2 kept fs1 fs3.
Proof.
  intros H12. revert fs3. induction H12 as [|f1 f2 fs1 fs2 [Hp Hc] _ IH];
    intros fs3 H23; inversion H23 as [|? f3 ? fs3' [Hp' Hc'] Hrest]; subst.
  - constructor.
  - constructor; [|apply IH; assumption].
    split; [rewrite Hp'; exact Hp|rewrite Hc'; exact Hc].
Qed.

Lemma is_open_kept (fs fs' : list file) (h : nat) :
  Forall2 kept fs fs' -> is_open fs' h = is_open fs h.
Proof.
  intros H. revert h. induction H as [|f f' fs fs' [_ Hc] _ IH]; intros h.
  - reflexivity.
  - destruct h as [|h]; [|apply IH].
    unfold is_open. simpl. rewrite Hc. reflexivity.
Qed.

Lemma writable_kept (fs fs' : list file) (st : stream) :
  Forall2 kept fs fs' -> writable fs' st = writable fs st.
Proof.
  intros H. induction st as [| |h o IH]; simpl; [reflexivity|reflexivity|].
  rewrite IH, (is_open_kept fs fs' h H). reflexivity.
Qed.

Lemma is_open_lookup (fs : list file) (h : nat) :
  is_open fs h = true ->
  exists p c, fs !! h = Some (mk_file p c false).
Proof.
  unfold is_open. destruct (fs !! h) as [[p c closed]|]; [|discriminate].
  simpl. destruct closed; [discriminate|]. intros _. exists p, c. reflexivity.
Qed.

Lemma kept_insert (fs : list file) (h : nat) (p : str) (c c' : list chunk) :
  fs !! h = Some (mk_file p c false) ->
  Forall2 kept fs (<[h := mk_file p c' false]> fs).
Proof.
  revert h. induction fs as [|f fs IH]; intros h Hh; [discriminate|].
  destruct h as [|h]; simpl in *.
  - injection Hh as ->. constructor; [split; reflexivity|apply kept_refl].
  - constructor; [split; reflexivity|apply IH; exact Hh].
Qed.

(** A write to a writable stream whose files are [base], whatever files
    [news] were opened since: the text reaches the console once, the
    files of [base] keep path and state, and nothing else changes. *)
Lemma stream_write_runs (st : stream) (s : str) :
  forall (w : world) (base news : list file),
    w_files w = base ++ news ->
    writable base st = true ->
    exists base',
      stream_write st s w =
        (Ret tt, set_console (w_console w ++ [s]) (set_files (base' ++ news) w))
      /\ Forall2 kept base base'.
Proof.
  induction st as [| |h o IH]; intros w base news Hfiles Hw.
  - discriminate.
  - exists base. split; [|apply kept_refl].
    cbn [stream_write modify]. rewrite <- Hfiles. reflexivity.
  - cbn [writable] in Hw. apply andb_true_iff in Hw as [Hopen Ho].
    destruct (IH w base news Hfiles Ho) as (base1 & Hrun & Hkept1).
    rewrite <- (is_open_kept base base1 h Hkept1) in Hopen.
    destruct (is_open_lookup base1 h Hopen) as (p & c & Hh).
    exists (<[h := mk_file p (c ++ [Chars s]) false]> base1).
    split; [|eapply kept_trans; [exact Hkept1|apply (kept_insert _ _ _ c); exact Hh]].
    cbn [stream_write]. rewrite (bind_run _ _ _ _ _ Hrun).
    unfold file_write. run_step.
    rewrite (lookup_app_l_Some _ _ _ _ Hh). cbn [f_closed f_path f_content].
    rewrite insert_app_l by (apply lookup_lt_Some in Hh; exact Hh).
    reflexivity.
Qed.

Lemma print_runs (s : str) (w : world) (base news : list file) :
  w_files w = base ++ news ->
  writable base (w_stdout w) = true ->
  exists base',
    print s w =
      (Ret tt,
       set_console (w_console w ++ printed s) (set_files (base' ++ news) w))
    /\ Forall2 kept base base'.
Proof.
  intros Hfiles Hw.
  destruct (stream_write_runs (w_stdout w) s w base news Hfiles Hw)
    as (base1 & Hrun1 & Hkept1).
  assert (Hw1 : writable base1 (w_stdout w) = true)
    by (rewrite (writable_kept base base1 _ Hkept1); exact Hw).
  destruct (stream_write_runs (w_stdout w) [newline]
              (set_console (w_console w ++ [s]) (set_files (base1 ++ news) w))
              base1 news eq_refl Hw1)
    as (base2 & Hrun2 & Hkept2).
  exists base2. split; [|eapply kept_trans; eassumption].
  unfold print. run_step.
  destruct (w_stdout w) as [| |h o] eqn:Hout; [discriminate| |].
  - rewrite (bind_run _ _ _ _ _ Hrun1), Hrun2. run_step.
    unfold printed. rewrite <- app_assoc. reflexivity.
  - rewrite (bind_run _ _ _ _ _ Hrun1), Hrun2. run_step.
    unfold printed. rewrite <- app_assoc. reflexivity.
Qed.

Lemma try_finally_run {A : Type} (body : M A) (final : M unit)
    (w w1 w2 : world) (a : A) :
  body w = (Ret a, w1) -> final w1 = (Ret tt, w2) ->
  try_finally body final w = (Ret a, w2).
Proof. intros Hb Hf. unfold try_finally. rewrite Hb, Hf. reflexivity. Qed.

Lemma open_w_runs (path : str) (w : world) :
  path ∉ w_readonly w ->
  open_w path w =
    (Ret (length (w_files w)),
     set_files (w_files w ++ [mk_file path [] false]) w).
Proof.
  intros Hfree. unfold open_w. rewrite bool_decide_eq_false_2 by exact Hfree.
  reflexivity.
Qed.

Lemma file_write_last (w : world) (files : list file) (p : str)
    (content : list chunk) (c : chunk) :
  w_files w = files ++ [mk_file p content false] ->
  file_write (length files) c w =
    (Ret tt, set_files (files ++ [mk_file p (content ++ [c]) false]) w).
Proof.
  intros Hfiles. unfold file_write. rewrite Hfiles, list_lookup_middle by reflexivity.
  cbn [f_closed f_path f_content].
  rewrite insert_app_r_alt, Nat.sub_diag by lia. reflexivity.
Qed.

Lemma file_close_last (w : world) (files : list file) (p : str)
    (content : list chunk) :
  w_files w = files ++ [mk_file p content false] ->
  file_close (length files) w =
    (Ret tt, set_files (files ++ [mk_file p content true]) w).
Proof.
  intros Hfiles. unfold file_close, modify.
  rewrite Hfiles, list_lookup_middle by reflexivity.
  cbn [f_closed f_path f_content].
  rewrite insert_app_r_alt, Nat.sub_diag by lia. reflexivity.
Qed.

(** One write to the file opened last. *)
Ltac write_last :=
  erewrite (bind_run (file_write _ _)) by (apply file_write_last; reflexivity).

Lemma write_markdown_runs (result : result) (config : Config) (w : world)
    (files : list file) (p : str) :
  w_files w = files ++ [mk_file p [] false] ->
  write_markdown result config (length files) w =
    (Ret tt,
     set_ticks (S (w_ticks w))
       (set_files
          (files ++ [mk_file p
             (markdown_chunks result config (isoformat (w_clock w (w_ticks w))))
             false]) w)).
Proof.
  intros Hfiles. unfold write_markdown.
  erewrite (bind_run (file_write _ _)) by (apply file_write_last; exact Hfiles).
  erewrite (bind_run datetime_now) by reflexivity.
  do 4 write_last.
  erewrite file_write_last by reflexivity.
  reflexivity.
Qed.

Lemma with_open_runs {A : Type} (path : str) (body : nat -> M A)
    (w w1 : world) (a : A) (content : list chunk) :
  path ∉ w_readonly w ->
  body (length (w_files w))
       (set_files (w_files w ++ [mk_file path [] false]) w) = (Ret a, w1) ->
  w_files w1 = w_files w ++ [mk_file path content false] ->
  with_open path body w =
    (Ret a, set_files (w_files w ++ [mk_file path content true]) w1).
Proof.
  intros Hfree Hbody Hfiles. unfold with_open.
  rewrite (bind_run _ _ _ _ _ (open_w_runs path w Hfree)).
  apply (try_finally_run _ _ _ w1); [exact Hbody|].
  apply file_close_last. exact Hfiles.
Qed.

Lemma save_markdown_runs (result : result) (config : Config) (md_path : str)
    (w : world) (base news : list file) :
  w_files w = base ++ news ->
  writable base (w_stdout w) = true ->
  md_path ∉ w_readonly w ->
  exists w' base',
    save_markdown result config md_path w = (Ret tt, w')
    /\ same_env w w'
    /\ w_ticks w' = S (w_ticks w)
    /\ w_console w' = w_console w ++ printed (lit "Markdown: " ++ md_path)
    /\ Forall2 kept base base'
    /\ w_files w' =
         base' ++ news
         ++ [mk_file md_path
               (markdown_chunks result config (isoformat (w_clock w (w_ticks w))))
               true].
Proof.
  intros Hfiles Hw Hfree.
  set (md := mk_file md_path
               (markdown_chunks result config (isoformat (w_clock w (w_ticks w))))
               true).
  pose proof (write_markdown_runs result config
                (set_files (w_files w ++ [mk_file md_path [] false]) w)
                (w_files w) md_path eq_refl) as Hbody.
  pose proof (with_open_runs md_path (write_markdown result config) w _ tt
                (markdown_chunks result config (isoformat (w_clock w (w_ticks w))))
                Hfree Hbody eq_refl) as Hwith.
  cbn [w_files set_files set_ticks] in Hwith. fold md in Hwith.
  match type of Hwith with _ = (_, ?W) => set (w1 := W) in * end.
  destruct (print_runs (lit "Markdown: " ++ md_path) w1 base (news ++ [md]))
    as (base' & Hprint & Hkept).
  { cbn. rewrite Hfiles, app_assoc. reflexivity. }
  { exact Hw. }
  eexists. exists base'. split; [|split; [|split; [|split; [|split]]]].
  - unfold save_markdown. rewrite (bind_run _ _ _ _ _ Hwith). exact Hprint.
  - repeat split.
  - reflexivity.
  - reflexivity.
  - exact Hkept.
  - reflexivity.
Qed.

Lemma write_meta_runs (config : Config) (elapsed : float) (w : world)
    (files : list file) (p : str) :
  w_files w = files ++ [mk_file p [] false] ->
  write_meta config elapsed (length files) w =
    (Ret tt,
     set_files
       (files ++ [mk_file p
          [YamlDoc (Yaml.represent false
             (meta_record (isoformat (w_clock w (w_ticks w))) config elapsed))]
          false])
       (set_ticks (S (w_ticks w)) w)).
Proof.
  intros Hfiles. unfold write_meta, yaml_dump.
  erewrite (bind_run datetime_now) by reflexivity.
  erewrite file_write_last by (cbn; exact Hfiles).
  reflexivity.
Qed.

Lemma save_meta_runs (config : Config) (output_dir : str) (elapsed : float)
    (w : world) (base news : list file) :
  w_files w = base ++ news ->
  writable base (w_stdout w) = true ->
  meta_path_of output_dir ∉ w_readonly w ->
  exists w' base',
    save_meta config output_dir elapsed w = (Ret tt, w')
    /\ same_env w w'
    /\ w_ticks w' = S (w_ticks w)
    /\ w_console w' =
         w_console w ++ printed (lit "Meta:     " ++ meta_path_of output_dir)
    /\ Forall2 kept base base'
    /\ w_files w' =
         base' ++ news
         ++ [mk_file (meta_path_of output_dir)
               [YamlDoc (Yaml.represent false
                  (meta_record (isoformat (w_clock w (w_ticks w))) config elapsed))]
               true].
Proof.
  intros Hfiles Hw Hfree.
  set (meta := mk_file (meta_path_of output_dir)
                 [YamlDoc (Yaml.represent false
                    (meta_record (isoformat (w_clock w (w_ticks w))) config elapsed))]
                 true).
  pose proof (write_meta_runs config elapsed
                (set_files
                   (w_files w ++ [mk_file (meta_path_of output_dir) [] false]) w)
                (w_files w) (meta_path_of output_dir) eq_refl) as Hbody.
  pose proof (with_open_runs (meta_path_of output_dir) (write_meta config elapsed)
                w _ tt
                [YamlDoc (Yaml.represent false
                   (meta_record (isoformat (w_clock w (w_ticks w))) config elapsed))]
                Hfree Hbody eq_refl) as Hwith.
  cbn [w_files set_files set_ticks w_clock w_ticks] in Hwith. fold meta in Hwith.
  match type of Hwith with _ = (_, ?W) => set (w1 := W) in * end.
  destruct (print_runs (lit "Meta:     " ++ meta_path_of output_dir) w1 base
              (news ++ [meta]))
    as (base' & Hprint & Hkept).
  { cbn. rewrite Hfiles, app_assoc. reflexivity. }
  { exact Hw. }
  eexists. exists base'. split; [|split; [|split; [|split; [|split]]]].
  - unfold save_meta. fold (meta_path_of output_dir).
    rewrite (bind_run _ _ _ _ _ Hwith). exact Hprint.
  - repeat split.
  - reflexivity.
  - reflexivity.
  - exact Hkept.
  - reflexivity.
Qed.

Lemma write_docx_raises (result : result) (config : Config) (output_dir : str)
    (w : world) (e : exn) :
  docx_failure w output_dir = Some e ->
  exists w1,
    write_docx result config output_dir w = (Raise e, w1)
    /\ same_env w w1
    /\ w_console w1 = w_console w
    /\ w_files w1 = w_files w.
Proof.
  unfold docx_failure, write_docx, import_docx, composed, doc_save, with_open.
  fold (docx_path_of output_dir). intros Hfail.
  destruct (import_raises (w_docx w)) as [e1|] eqn:Himport.
  { injection Hfail as ->. exists w.
    split; [|split; [apply same_env_refl|split; reflexivity]].
    unfold bind, gets. rewrite Himport. reflexivity. }
  destruct (compose_raises (w_docx w)) as [e2|] eqn:Hcompose.
  { injection Hfail as ->. exists (set_ticks (S (w_ticks w)) w).
    split; [|split; [repeat split|split; reflexivity]].
    unfold bind, gets, datetime_now. rewrite Himport. run_step.
    rewrite Hcompose. reflexivity. }
  destruct (save_raises (w_docx w)) as [e3|] eqn:Hsave.
  { injection Hfail as ->. exists (set_ticks (S (w_ticks w)) w).
    split; [|split; [repeat split|split; reflexivity]].
    unfold bind, gets, datetime_now. rewrite Himport. run_step.
    rewrite Hcompose. run_step. rewrite Hsave. reflexivity. }
  destruct (bool_decide (docx_path_of output_dir ∈ w_readonly w)) eqn:Hro;
    [|discriminate].
  injection Hfail as <-. exists (set_ticks (S (w_ticks w)) w).
  split; [|split; [repeat split|split; reflexivity]].
  unfold bind, gets, datetime_now, open_w. rewrite Himport. run_step.
  rewrite Hcompose. run_step. rewrite Hsave. run_step. rewrite Hro.
  reflexivity.
Qed.

Lemma write_docx_returns (result : result) (config : Config)
    (output_dir : str) (w : world) (base news : list file) :
  docx_failure w output_dir = None ->
  w_files w = base ++ news ->
  writable base (w_stdout w) = true ->
  exists w' base',
    write_docx result config output_dir w = (Ret tt, w')
    /\ same_env w w'
    /\ w_console w' =
         w_console w ++ printed (lit "DOCX:     " ++ docx_path_of output_dir)
    /\ Forall2 kept base base'
    /\ w_files w' =
         base' ++ news
         ++ [mk_file (docx_path_of output_dir)
               [DocxPackage
                  (compose result config (strftime_B_d_Y (w_clock w (w_ticks w))))]
               true].
Proof.
  unfold docx_failure. intros Hfail Hfiles Hw.
  destruct (import_raises (w_docx w)) eqn:Himport; [discriminate|].
  destruct (compose_raises (w_docx w)) eqn:Hcompose; [discriminate|].
  destruct (save_raises (w_docx w)) eqn:Hsave; [discriminate|].
  destruct (bool_decide (docx_path_of output_dir ∈ w_readonly w)) eqn:Hro;
    [discriminate|].
  apply bool_decide_eq_false_1 in Hro.
  set (doc := compose result config (strftime_B_d_Y (w_clock w (w_ticks w)))).
  set (w0 := set_ticks (S (w_ticks w)) w).
  pose proof (with_open_runs (docx_path_of output_dir)
                (fun f => file_write f (DocxPackage doc)) w0 _ tt
                [DocxPackage doc] Hro
                (file_write_last
                   (set_files
                      (w_files w0 ++ [mk_file (docx_path_of output_dir) [] false]) w0)
                   (w_files w0) (docx_path_of output_dir) [] (DocxPackage doc)
                   eq_refl)
                eq_refl) as Hwith.
  cbn [w_files set_files set_ticks w0] in Hwith.
  match type of Hwith with _ = (_, ?W) => set (w1 := W) in * end.
  destruct (print_runs (lit "DOCX:     " ++ docx_path_of output_dir) w1 base
              (news ++ [mk_file (docx_path_of output_dir) [DocxPackage doc] true]))
    as (base' & Hprint & Hkept).
  { cbn. rewrite Hfiles, app_assoc. reflexivity. }
  { exact Hw. }
  eexists. exists base'. split; [|split; [|split; [|split]]].
  - unfold write_docx, import_docx, composed, doc_save.
    fold (docx_path_of output_dir).
    unfold bind at 1 2, gets. rewrite Himport. run_step.
    erewrite (bind_run datetime_now) by reflexivity.
    unfold bind at 1 2 3, gets. run_step. rewrite Hcompose. run_step.
    unfold bind at 1 2 3, gets. run_step. rewrite Hsave. run_step.
    fold doc. fold w0. rewrite Hwith. exact Hprint.
  - repeat split.
  - reflexivity.
  - exact Hkept.
  - reflexivity.
Qed.

Lemma docx_failure_same_env (w w' : world) (output_dir : str) :
  same_env w w' -> docx_failure w' output_dir = docx_failure w output_dir.
Proof.
  unfold same_env, docx_failure. intros H. decompose [and] H.
  repeat match goal with Heq : _ w' = _ w |- _ => rewrite Heq; clear Heq end.
  reflexivity.
Qed.

Lemma save_docx_runs (result : result) (config : Config) (output_dir : str)
    (w : world) (base news : list file) :
  w_files w = base ++ news ->
  writable base (w_stdout w) = true ->
  exists w' base',
    save_docx result config output_dir w = (Ret tt, w')
    /\ same_env w w'
    /\ w_console w' = w_console w ++ printed (docx_notice w output_dir)
    /\ Forall2 kept base base'
    /\ w_files w' =
         base' ++ news
         ++ docx_files w output_dir
              (compose result config (strftime_B_d_Y (w_clock w (w_ticks w)))).
Proof.
  intros Hfiles Hw. unfold save_docx, try_except, docx_notice, docx_files.
  destruct (docx_failure w output_dir) as [e|] eqn:Hfail.
  - destruct (write_docx_raises result config output_dir w e Hfail)
      as (w1 & Hrun & Henv & Hconsole & Hfiles1).
    rewrite Hrun. unfold docx_failed.
    assert (Hw1 : writable base (w_stdout w1) = true).
    { destruct Henv as (_ & _ & Hout & _). rewrite Hout. exact Hw. }
    rewrite Hfiles in Hfiles1.
    set (notice := if is_ImportError e
                   then lit "[SKIP] python-docx not installed"
                   else lit "[WARNING] DOCX generation failed: " ++ str_of_exn e).
    destruct (print_runs notice w1 base news Hfiles1 Hw1)
      as (base' & Hprint & Hkept).
    exists (set_console (w_console w1 ++ printed notice)
              (set_files (base' ++ news) w1)), base'.
    split; [|split; [|split; [|split]]].
    + unfold notice in *. destruct (is_ImportError e); exact Hprint.
    + eapply same_env_trans; [exact Henv|repeat split].
    + cbn [w_console set_console set_files]. rewrite Hconsole. reflexivity.
    + exact Hkept.
    + cbn [w_files set_console set_files]. rewrite app_nil_r. reflexivity.
  - destruct (write_docx_returns result config output_dir w base news
                Hfail Hfiles Hw)
      as (w' & base' & Hrun & Henv & Hconsole & Hkept & Hfiles').
    exists w', base'. rewrite Hrun. auto.
Qed.

Lemma file_at_snoc (files : list file) (f : file) (path : str) :
  file_at (files ++ [f]) path =
    if bool_decide (f_path f = path) then Some (f_content f)
    else file_at files path.
Proof. unfold file_at. rewrite fold_left_app. reflexivity. Qed.

Lemma path_join_inj (d a b : str) : path_join d a = path_join d b -> a = b.
Proof.
  unfold path_join. intros H. apply app_inv_head in H.
  injection H as H. exact H.
Qed.

Lemma md_path_not_meta (d : str) : meta_path_of d <> md_path_of d.
Proof. intros H. apply path_join_inj in H. discriminate H. Qed.

Lemma docx_path_not_md (d : str) : docx_path_of d <> md_path_of d.
Proof.
  intros H. apply path_join_inj in H.
  change (lit "report_" ++ path_name d ++ lit ".docx")
    with (lit "report_" ++ (path_name d ++ lit ".docx")) in H.
  apply app_inv_head in H. apply app_inv_head in H. discriminate H.
Qed.

Lemma docx_path_not_meta (d : str) : docx_path_of d <> meta_path_of d.
Proof. intros H. apply path_join_inj in H. discriminate H. Qed.

Lemma same_env_writable (w w' : world) (base base' : list file) :
  same_env w w' -> Forall2 kept base base' ->
  writable base (w_stdout w) = true -> writable base' (w_stdout w') = true.
Proof.
  intros Henv Hkept Hw. destruct Henv as (_ & _ & Hout & _).
  rewrite Hout, (writable_kept base base' _ Hkept). exact Hw.
Qed.

Lemma same_env_readonly (w w' : world) (path : str) :
  same_env w w' -> path ∉ w_readonly w -> path ∉ w_readonly w'.
Proof.
  intros Henv Hfree. destruct Henv as (_ & _ & _ & _ & _ & _ & Hro & _).
  rewrite Hro. exact Hfree.
Qed.

Lemma same_env_clock (w w' : world) :
  same_env w w' -> w_clock w' = w_clock w.
Proof. intros Henv. apply Henv. Qed.

(** [save_all] in a world where the output stream can be written to and
    the markdown and metadata paths can be written: it returns, leaving
    the two files (and the document, unless the backend fails) and the
    five notices. *)
Lemma save_all_runs (result : result) (config : Config) (output_dir : str)
    (elapsed : float) (w : world) :
  writable (w_files w) (w_stdout w) = true ->
  md_path_of output_dir ∉ w_readonly w ->
  meta_path_of output_dir ∉ w_readonly w ->
  let t := w_ticks w in
  let md := mk_file (md_path_of output_dir)
              (markdown_chunks result config (isoformat (w_clock w t))) true in
  let meta := mk_file (meta_path_of output_dir)
                [YamlDoc (Yaml.represent false
                   (meta_record (isoformat (w_clock w (S t))) config elapsed))]
                true in
  let docs := docx_files w output_dir
                (compose result config (strftime_B_d_Y (w_clock w (S (S t))))) in
  exists w' base',
    save_all result config output_dir elapsed w = (Ret tt, w')
    /\ same_env w w'
    /\ Forall2 kept (w_files w) base'
    /\ w_files w' = base' ++ [md; meta] ++ docs
    /\ w_console w' =
         w_console w
         ++ printed (lit "Markdown: " ++ md_path_of output_dir)
         ++ printed (lit "Meta:     " ++ meta_path_of output_dir)
         ++ printed (docx_notice w output_dir)
         ++ printed (lit "Log:      " ++ path_join output_dir (lit "log.txt"))
         ++ printed (newline :: lit "All outputs saved to: " ++ output_dir).
Proof.
  intros Hw Hmd Hmeta t md meta docs.
  destruct (save_markdown_runs result config (md_path_of output_dir) w
              (w_files w) [] (eq_sym (app_nil_r _)) Hw Hmd)
    as (w1 & base1 & Hrun1 & Henv1 & Hticks1 & Hcons1 & Hkept1 & Hfiles1).
  fold t md in Hfiles1. cbn [app] in Hfiles1.
  destruct (save_meta_runs config output_dir elapsed w1 base1 [md] Hfiles1
              (same_env_writable _ _ _ _ Henv1 Hkept1 Hw)
              (same_env_readonly _ _ _ Henv1 Hmeta))
    as (w2 & base2 & Hrun2 & Henv2 & Hticks2 & Hcons2 & Hkept2 & Hfiles2).
  rewrite (same_env_clock _ _ Henv1), Hticks1 in Hfiles2.
  fold t meta in Hfiles2. cbn [app] in Hfiles2.
  pose proof (same_env_trans _ _ _ Henv1 Henv2) as Henv12.
  pose proof (kept_trans _ _ _ Hkept1 Hkept2) as Hkept12.
  destruct (save_docx_runs result config output_dir w2 base2 [md; meta] Hfiles2
              (same_env_writable _ _ _ _ Henv12 Hkept12 Hw))
    as (w3 & base3 & Hrun3 & Henv3 & Hcons3 & Hkept3 & Hfiles3).
  rewrite (same_env_clock _ _ Henv12), Hticks2, Hticks1 in Hfiles3.
  unfold docx_notice in Hcons3.
  unfold docx_files in Hfiles3.
  rewrite (docx_failure_same_env _ _ _ Henv12) in Hcons3, Hfiles3.
  fold (docx_notice w output_dir) in Hcons3.
  fold (docx_files w output_dir
          (compose result config (strftime_B_d_Y (w_clock w (S (S t))))))
    in Hfiles3.
  fold docs in Hfiles3.
  pose proof (same_env_trans _ _ _ Henv12 Henv3) as Henv123.
  pose proof (kept_trans _ _ _ Hkept12 Hkept3) as Hkept123.
  destruct (print_runs (lit "Log:      " ++ path_join output_dir (lit "log.txt"))
              w3 base3 ([md; meta] ++ docs) Hfiles3
              (same_env_writable _ _ _ _ Henv123 Hkept123 Hw))
    as (base4 & Hrun4 & Hkept4).
  match type of Hrun4 with _ = (_, ?W) => set (w4 := W) in * end.
  assert (Henv4 : same_env w3 w4) by (repeat split).
  pose proof (same_env_trans _ _ _ Henv123 Henv4) as Henv1234.
  pose proof (kept_trans _ _ _ Hkept123 Hkept4) as Hkept1234.
  destruct (print_runs (newline :: lit "All outputs saved to: " ++ output_dir)
              w4 base4 ([md; meta] ++ docs) eq_refl
              (same_env_writable _ _ _ _ Henv1234 Hkept1234 Hw))
    as (base5 & Hrun5 & Hkept5).
  eexists. exists base5. split; [|split; [|split; [|split]]].
  - unfold save_all. fold (md_path_of output_dir).
    rewrite (bind_run _ _ _ _ _ Hrun1), (bind_run _ _ _ _ _ Hrun2),
      (bind_run _ _ _ _ _ Hrun3), (bind_run _ _ _ _ _ Hrun4).
    exact Hrun5.
  - eapply same_env_trans; [exact Henv1234|repeat split].
  - eapply kept_trans; eassumption.
  - reflexivity.
  - cbn [w_console set_console set_files w4].
    rewrite Hcons3, Hcons2, Hcons1, <- !app_assoc. reflexivity.
Qed.

(** ** Document Composer *)

Lemma file_at_outputs (base : list file) (d : str) (md meta : list chunk)
    (w : world) (doc : document) :
  let files := base
               ++ [mk_file (md_path_of d) md true; mk_file (meta_path_of d) meta true]
               ++ docx_files w d doc in
  file_at files (md_path_of d) = Some md
  /\ file_at files (meta_path_of d) = Some meta.
Proof.
  unfold docx_files. destruct (docx_failure w d).
  - cbn zeta. rewrite app_nil_r.
    change (base ++ [?a; ?b]) with (base ++ [a] ++ [b]).
    rewrite app_assoc, !file_at_snoc. cbn [f_path f_content].
    rewrite (bool_decide_eq_false_2 _ (md_path_not_meta d)).
    rewrite !bool_decide_eq_true_2 by reflexivity. split; reflexivity.
  - cbn zeta.
    change (base ++ [?a; ?b] ++ [?c]) with (base ++ [a] ++ [b] ++ [c]).
    rewrite !app_assoc, !file_at_snoc. cbn [f_path f_content].
    rewrite (bool_decide_eq_false_2 _ (md_path_not_meta d)).
    rewrite (bool_decide_eq_false_2 _ (docx_path_not_md d)).
    rewrite (bool_decide_eq_false_2 _ (docx_path_not_meta d)).
    rewrite !bool_decide_eq_true_2 by reflexivity. split; reflexivity.
Qed.

Lemma file_at_md_meta (base : list file) (d : str) (md meta : list chunk) :
  let files :=
    base ++ [mk_file (md_path_of d) md true; mk_file (meta_path_of d) meta true] in
  file_at files (md_path_of d) = Some md
  /\ file_at files (meta_path_of d) = Some meta.
Proof.
  cbn zeta. change (base ++ [?a; ?b]) with (base ++ [a] ++ [b]).
  rewrite app_assoc, !file_at_snoc. cbn [f_path f_content].
  rewrite (bool_decide_eq_false_2 _ (md_path_not_meta d)).
  rewrite !bool_decide_eq_true_2 by reflexivity. split; reflexivity.
Qed.

Lemma represent_meta_record (timestamp : str) (config : Config) (elapsed : float) :
  Yaml.represent false (meta_record timestamp config elapsed) =
    metadata timestamp config (PyFloat.round1 elapsed).
Proof.
  unfold meta_record, metadata. cbn [Yaml.represent List.map fst snd].
  rewrite List.map_map. reflexivity.
Qed.

Lemma div_half_even_nearest (n d : Z) :
  (0 < d)%Z ->
  (Z.abs (2 * n - 2 * PyFloat.div_half_even n d * d) <= d)%Z.
Proof.
  intros Hd. unfold PyFloat.div_half_even.
  pose proof (Z.div_mod n d ltac:(lia)) as Hn.
  pose proof (Z.mod_pos_bound n d Hd) as Hr.
  destruct (Z.ltb_spec (2 * (n mod d)) d);
    [|destruct (Z.ltb_spec d (2 * (n mod d))); [|destruct (Z.even (n / d))]];
    nia.
Qed.

Lemma round1_rounds (x : float) : rounded_to_one_decimal x (PyFloat.round1 x).
Proof.
  unfold rounded_to_one_decimal, PyFloat.round1.
  destruct (Prim2SF x) as [s|s| |s m e]; try reflexivity.
  destruct (Z.leb_spec 0 e) as [He|He]; [reflexivity|]. cbn [orb].
  destruct (2 ^ (49 - e) <=? Z.pos m)%Z; [reflexivity|].
  exists (PyFloat.scaled_round 10 m e). split; [|reflexivity].
  unfold nearest_tenths, PyFloat.scaled_round.
  destruct (Z.leb_spec 0 e) as [He'|_]; [lia|].
  apply div_half_even_nearest. apply Z.pow_pos_nonneg; lia.
Qed.

(** C4. The metadata file [save_all] writes holds one record with exactly
    the fields timestamp, input_query, auto_approve, models and
    elapsed_seconds, written in that order, which is not the alphabetical
    one (the order [sort_keys] would give); auto_approve is false, and
    elapsed_seconds is the elapsed value rounded to one decimal place, so
    that 12.34 is written as 12.3. *)
Theorem metadata_record_written (result : result) (config : Config)
    (output_dir : str) (elapsed : float) (w : world) :
  writable (w_files w) (w_stdout w) = true ->
  md_path_of output_dir ∉ w_readonly w ->
  meta_path_of output_dir ∉ w_readonly w ->
  let timestamp := isoformat (w_clock w (S (w_ticks w))) in
  let record := metadata timestamp config (PyFloat.round1 elapsed) in
  exists w',
    save_all result config output_dir elapsed w = (Ret tt, w')
    /\ file_at (w_files w') (meta_path_of output_dir) = Some [YamlDoc record]
    /\ Yaml.keys record =
         [lit "timestamp"; lit "input_query"; lit "auto_approve";
          lit "models"; lit "elapsed_seconds"]
    /\ Yaml.keys (Yaml.represent true (meta_record timestamp config elapsed)) =
         [lit "auto_approve"; lit "elapsed_seconds"; lit "input_query";
          lit "models"; lit "timestamp"]
    /\ rounded_to_one_decimal elapsed (PyFloat.round1 elapsed)
    /\ PyFloat.round1 12.34 = 12.3%float.
Proof.
  intros Hw Hmd Hmeta timestamp record.
  destruct (save_all_runs result config output_dir elapsed w Hw Hmd Hmeta)
    as (w' & base' & Hrun & _ & _ & Hfiles & _).
  exists w'. split; [exact Hrun|]. split; [|split; [|split; [|split]]].
  - rewrite Hfiles, represent_meta_record.
    apply file_at_outputs.
  - reflexivity.
  - reflexivity.
  - apply round1_rounds.
  - reflexivity.
Qed.

Lemma metadata_record_written_witness :
  let w := Examples.fresh [] in
  let timestamp := isoformat (w_clock w (S (w_ticks w))) in
  let record := metadata timestamp Examples.config (PyFloat.round1 12.34) in
  exists w',
    save_all Examples.report Examples.config Examples.out_dir 12.34 w
      = (Ret tt, w')
    /\ file_at (w_files w') (meta_path_of Examples.out_dir)
         = Some [YamlDoc record]
    /\ Yaml.keys record =
         [lit "timestamp"; lit "input_query"; lit "auto_approve";
          lit "models"; lit "elapsed_seconds"]
    /\ Yaml.keys (Yaml.represent true
                    (meta_record timestamp Examples.config 12.34)) =
         [lit "auto_approve"; lit "elapsed_seconds"; lit "input_query";
          lit "models"; lit "timestamp"]
    /\ rounded_to_one_decimal 12.34 (PyFloat.round1 12.34)
    /\ PyFloat.round1 12.34 = 12.3%float.
Proof.
  intros w timestamp record.
  apply (metadata_record_written Examples.report Examples.config
           Examples.out_dir 12.34 w).
  - reflexivity.
  - apply not_elem_of_nil.
  - apply not_elem_of_nil.
Defined.

(** C5. An exception that ends the document output of [save_all] -- of
    the backend's import, of the composition, of saving -- is caught and
    reported, as the skip notice when it is an ImportError and as the
    warning with its text otherwise, and [save_all] returns. The markdown
    and the metadata file are written before the document output begins:
    they exist in the world in which it starts, and in the one [save_all]
    ends in. *)
Theorem docx_failure_is_contained (result : result) (config : Config)
    (output_dir : str) (elapsed : float) (w : world) (e : exn) :
  writable (w_files w) (w_stdout w) = true ->
  md_path_of output_dir ∉ w_readonly w ->
  meta_path_of output_dir ∉ w_readonly w ->
  docx_failure w output_dir = Some e ->
  let md := markdown_chunks result config (isoformat (w_clock w (w_ticks w))) in
  let meta := [YamlDoc (metadata (isoformat (w_clock w (S (w_ticks w)))) config
                          (PyFloat.round1 elapsed))] in
  let notice := if is_ImportError e
                then lit "[SKIP] python-docx not installed"
                else lit "[WARNING] DOCX generation failed: " ++ str_of_exn e in
  exists w2 w2' w3 w',
    bind (save_markdown result config (md_path_of output_dir))
         (fun _ => save_meta config output_dir elapsed) w = (Ret tt, w2)
    /\ file_at (w_files w2) (md_path_of output_dir) = Some md
    /\ file_at (w_files w2) (meta_path_of output_dir) = Some meta
    /\ write_docx result config output_dir w2 = (Raise e, w2')
    /\ save_docx result config output_dir w2 = (Ret tt, w3)
    /\ w_console w3 = w_console w2 ++ printed notice
    /\ save_all result config output_dir elapsed w = (Ret tt, w')
    /\ file_at (w_files w') (md_path_of output_dir) = Some md
    /\ file_at (w_files w') (meta_path_of output_dir) = Some meta
    /\ In notice (w_console w').
Proof.
  intros Hw Hmd Hmeta Hfail md meta notice.
  destruct (save_markdown_runs result config (md_path_of output_dir) w
              (w_files w) [] (eq_sym (app_nil_r _)) Hw Hmd)
    as (w1 & base1 & Hrun1 & Henv1 & Hticks1 & _ & Hkept1 & Hfiles1).
  cbn [app] in Hfiles1.
  destruct (save_meta_runs config output_dir elapsed w1 base1 _ Hfiles1
              (same_env_writable _ _ _ _ Henv1 Hkept1 Hw)
              (same_env_readonly _ _ _ Henv1 Hmeta))
    as (w2 & base2 & Hrun2 & Henv2 & _ & _ & Hkept2 & Hfiles2).
  rewrite (same_env_clock _ _ Henv1), Hticks1, represent_meta_record in Hfiles2.
  cbn [app] in Hfiles2.
  pose proof (same_env_trans _ _ _ Henv1 Henv2) as Henv12.
  pose proof (kept_trans _ _ _ Hkept1 Hkept2) as Hkept12.
  assert (Hfail2 : docx_failure w2 output_dir = Some e)
    by (rewrite (docx_failure_same_env _ _ _ Henv12); exact Hfail).
  destruct (write_docx_raises result config output_dir w2 e Hfail2)
    as (w2' & Hraise & _).
  destruct (save_docx_runs result config output_dir w2 base2 _ Hfiles2
              (same_env_writable _ _ _ _ Henv12 Hkept12 Hw))
    as (w3 & base3 & Hrun3 & _ & Hcons3 & _).
  unfold docx_notice in Hcons3. rewrite Hfail2 in Hcons3.
  destruct (save_all_runs result config output_dir elapsed w Hw Hmd Hmeta)
    as (w' & base' & Hrun & _ & _ & Hfiles & Hcons).
  unfold docx_files in Hfiles. unfold docx_notice in Hcons.
  rewrite Hfail in Hfiles, Hcons. rewrite app_nil_r, represent_meta_record in Hfiles.
  exists w2, w2', w3, w'.
  split; [rewrite (bind_run _ _ _ _ _ Hrun1); exact Hrun2|].
  rewrite Hfiles2.
  split; [apply file_at_md_meta|]. split; [apply file_at_md_meta|].
  split; [exact Hraise|]. split; [exact Hrun3|]. split; [exact Hcons3|].
  split; [exact Hrun|]. rewrite Hfiles.
  split; [apply file_at_md_meta|]. split; [apply file_at_md_meta|].
  rewrite Hcons. apply in_or_app. right. apply in_or_app. right.
  apply in_or_app. right. apply in_or_app. left. left. reflexivity.
Qed.

Lemma docx_failure_is_contained_witness :
  let w := Examples.process [] [] Examples.backend_broken in
  let md := markdown_chunks Examples.report Examples.config
              (isoformat (w_clock w (w_ticks w))) in
  let meta := [YamlDoc (metadata (isoformat (w_clock w (S (w_ticks w))))
                          Examples.config (PyFloat.round1 12.34))] in
  let notice := if is_ImportError Examples.bad_style
                then lit "[SKIP] python-docx not installed"
                else lit "[WARNING] DOCX generation failed: "
                     ++ str_of_exn Examples.bad_style in
  exists w2 w2' w3 w',
    bind (save_markdown Examples.report Examples.config
            (md_path_of Examples.out_dir))
         (fun _ => save_meta Examples.config Examples.out_dir 12.34) w
      = (Ret tt, w2)
    /\ file_at (w_files w2) (md_path_of Examples.out_dir) = Some md
    /\ file_at (w_files w2) (meta_path_of Examples.out_dir) = Some meta
    /\ write_docx Examples.report Examples.config Examples.out_dir w2
         = (Raise Examples.bad_style, w2')
    /\ save_docx Examples.report Examples.config Examples.out_dir w2
         = (Ret tt, w3)
    /\ w_console w3 = w_console w2 ++ printed notice
    /\ save_all Examples.report Examples.config Examples.out_dir 12.34 w
         = (Ret tt, w')
    /\ file_at (w_files w') (md_path_of Examples.out_dir) = Some md
    /\ file_at (w_files w') (meta_path_of Examples.out_dir) = Some meta
    /\ In notice (w_console w').
Proof.
  intros w md meta notice.
  apply (docx_failure_is_contained Examples.report Examples.config
           Examples.out_dir 12.34 w Examples.bad_style).
  - reflexivity.
  - apply not_elem_of_nil.
  - apply not_elem_of_nil.
  - reflexivity.
Defined.

Lemma md_lines_blocks (doc : document) (text : str) :
  doc_blocks (_md_lines_to_docx doc text) =
    doc_blocks doc
    ++ flat_map (fun line => elements (classify line)) (split_on newline text).
Proof. unfold _md_lines_to_docx. apply render_lines_blocks. Qed.

Lemma compose_blocks (result : result) (config : Config) (date : str) :
  doc_blocks (compose result config date) =
    doc_blocks (cover_page config date)
    ++ [PageBreak] ++ section_blocks (get result (lit "recommendation"))
    ++ [PageBreak] ++ section_blocks (get result (lit "action_plan")).
Proof.
  unfold compose, section_blocks. cbn zeta.
  destruct (truthy (get result (lit "recommendation")));
    destruct (truthy (get result (lit "action_plan")));
    repeat first [rewrite md_lines_blocks
                 | progress cbn [add_page_break add_block doc_blocks]];
    rewrite <- ?app_assoc; reflexivity.
Qed.

Lemma get_missing (result : result) (key : str) :
  result !! key = None -> get result key = [].
Proof. intros H. unfold get. unfold str in *. rewrite H. reflexivity. Qed.

(** C9. When the result has no "recommendation" or no "action_plan",
    [save_all] does not raise for it: it returns, the markdown file holds
    the empty string where the text of the missing field would stand, and
    the document has no element for the field, its page break being
    followed at once by what comes after the section. *)
Theorem missing_field_is_empty_text (result : result) (config : Config)
    (output_dir : str) (elapsed : float) (w : world) :
  writable (w_files w) (w_stdout w) = true ->
  md_path_of output_dir ∉ w_readonly w ->
  meta_path_of output_dir ∉ w_readonly w ->
  let generated := isoformat (w_clock w (w_ticks w)) in
  let title := Chars (lit "# MBA Strategy Report v4" ++ [newline; newline]) in
  let stamp := Chars (lit "**Generated:** " ++ generated ++ [newline]) in
  let listing := Chars (lit "**Agents:** " ++ agents_str config ++ rule) in
  exists w',
    save_all result config output_dir elapsed w = (Ret tt, w')
    /\ (result !! lit "recommendation" = None ->
        file_at (w_files w') (md_path_of output_dir) =
          Some [title; stamp; listing; Chars []; Chars rule;
                Chars (get result (lit "action_plan"))]
        /\ forall date,
             doc_blocks (compose result config date) =
               doc_blocks (cover_page config date)
               ++ [PageBreak; PageBreak]
               ++ section_blocks (get result (lit "action_plan")))
    /\ (result !! lit "action_plan" = None ->
        file_at (w_files w') (md_path_of output_dir) =
          Some [title; stamp; listing;
                Chars (get result (lit "recommendation")); Chars rule; Chars []]
        /\ forall date,
             doc_blocks (compose result config date) =
               doc_blocks (cover_page config date)
               ++ [PageBreak]
               ++ section_blocks (get result (lit "recommendation"))
               ++ [PageBreak]).
Proof.
  intros Hw Hmd Hmeta generated title stamp listing.
  destruct (save_all_runs result config output_dir elapsed w Hw Hmd Hmeta)
    as (w' & base' & Hrun & _ & _ & Hfiles & _).
  exists w'. split; [exact Hrun|].
  pose proof (file_at_outputs base' output_dir
                (markdown_chunks result config generated)
                [YamlDoc (Yaml.represent false
                   (meta_record (isoformat (w_clock w (S (w_ticks w)))) config elapsed))]
                w (compose result config
                     (strftime_B_d_Y (w_clock w (S (S (w_ticks w)))))))
    as [Hat _].
  cbn zeta in Hat. fold generated in Hfiles. rewrite <- Hfiles in Hat.
  split; intros Hmissing.
  - split.
    + rewrite Hat. unfold markdown_chunks.
      rewrite (get_missing _ _ Hmissing). reflexivity.
    + intros date. rewrite compose_blocks, (get_missing _ _ Hmissing).
      reflexivity.
  - split.
    + rewrite Hat. unfold markdown_chunks.
      rewrite (get_missing _ _ Hmissing). reflexivity.
    + intros date. rewrite compose_blocks, (get_missing _ _ Hmissing).
      reflexivity.
Qed.

Lemma missing_field_is_empty_text_witness :
  let no_plan : result := {[ lit "recommendation" := lit "# Go" ]} in
  let no_recommendation : result := {[ lit "action_plan" := lit "- Hire" ]} in
  let w := Examples.fresh [] in
  let generated := isoformat (w_clock w (w_ticks w)) in
  let title := Chars (lit "# MBA Strategy Report v4" ++ [newline; newline]) in
  let stamp := Chars (lit "**Generated:** " ++ generated ++ [newline]) in
  let listing := Chars (lit "**Agents:** " ++ agents_str Examples.config ++ rule) in
  let date := lit "January 01, 2026" in
  (exists w',
     save_all no_plan Examples.config Examples.out_dir 12.34 w = (Ret tt, w')
     /\ file_at (w_files w') (md_path_of Examples.out_dir) =
          Some [title; stamp; listing; Chars (lit "# Go"); Chars rule; Chars []]
     /\ doc_blocks (compose no_plan Examples.config date) =
          doc_blocks (cover_page Examples.config date)
          ++ [PageBreak; Heading 1 (lit "Go"); PageBreak])
  /\ (exists w',
        save_all no_recommendation Examples.config Examples.out_dir 12.34 w
          = (Ret tt, w')
        /\ file_at (w_files w') (md_path_of Examples.out_dir) =
             Some [title; stamp; listing; Chars []; Chars rule;
                   Chars (lit "- Hire")]
        /\ doc_blocks (compose no_recommendation Examples.config date) =
             doc_blocks (cover_page Examples.config date)
             ++ [PageBreak; PageBreak]
             ++ section_blocks (lit "- Hire")).
Proof.
  intros no_plan no_recommendation w generated title stamp listing date. split.
  - destruct (missing_field_is_empty_text no_plan Examples.config
                Examples.out_dir 12.34 w)
      as (w' & Hrun & _ & Hplan).
    + reflexivity.
    + apply not_elem_of_nil.
    + apply not_elem_of_nil.
    + destruct Hplan as [Hfile Hdoc]; [reflexivity|].
      exists w'. split; [exact Hrun|]. split; [exact Hfile|].
      rewrite Hdoc. reflexivity.
  - destruct (missing_field_is_empty_text no_recommendation Examples.config
                Examples.out_dir 12.34 w)
      as (w' & Hrun & Hrec & _).
    + reflexivity.
    + apply not_elem_of_nil.
    + apply not_elem_of_nil.
    + destruct Hrec as [Hfile Hdoc]; [reflexivity|].
      exists w'. split; [exact Hrun|]. split; [exact Hfile|].
      rewrite Hdoc. reflexivity.
Defined.

(** ** Log Tee *)

Lemma is_open_app (base more : list file) (h : nat) :
  is_open base h = true -> is_open (base ++ more) h = true.
Proof.
  unfold is_open. destruct (base !! h) as [f|] eqn:Hh; [|discriminate].
  rewrite (lookup_app_l_Some _ _ _ _ Hh). auto.
Qed.

Lemma writable_app (base more : list file) (st : stream) :
  writable base st = true -> writable (base ++ more) st = true.
Proof.
  induction st as [| |h o IH]; simpl; [auto|auto|].
  intros H. apply andb_true_iff in H as [Hh Ho].
  rewrite (is_open_app _ _ _ Hh), (IH Ho). reflexivity.
Qed.

Lemma prints_run (texts : list str) :
  forall (w : world) (base news : list file),
    w_files w = base ++ news ->
    writable base (w_stdout w) = true ->
    exists w' base',
      prints texts w = (Ret tt, w')
      /\ same_env w w'
      /\ w_ticks w' = w_ticks w
      /\ w_console w' = w_console w ++ flat_map printed texts
      /\ Forall2 kept base base'
      /\ w_files w' = base' ++ news.
Proof.
  unfold prints.
  induction texts as [|s texts IH]; intros w base news Hfiles Hw.
  - exists w, base. cbn [for_in flat_map]. rewrite app_nil_r.
    split; [reflexivity|]. split; [apply same_env_refl|].
    split; [reflexivity|]. split; [reflexivity|].
    split; [apply kept_refl|exact Hfiles].
  - destruct (print_runs s w base news Hfiles Hw) as (base1 & Hrun1 & Hkept1).
    match type of Hrun1 with _ = (_, ?W) => set (w1 := W) in * end.
    assert (Henv1 : same_env w w1) by (repeat split).
    destruct (IH w1 base1 news eq_refl
                (same_env_writable _ _ _ _ Henv1 Hkept1 Hw))
      as (w' & base' & Hrun & Henv & Hticks & Hcons & Hkept & Hfiles').
    exists w', base'. cbn [for_in]. rewrite (bind_run _ _ _ _ _ Hrun1).
    split; [exact Hrun|]. split; [exact (same_env_trans _ _ _ Henv1 Henv)|].
    split; [exact Hticks|]. split; [|split; [eapply kept_trans; eassumption|exact Hfiles']].
    rewrite Hcons. cbn [w_console set_console set_files w1 flat_map].
    rewrite <- app_assoc. reflexivity.
Qed.

Lemma start_log_runs (output_dir : str) (w : world) :
  path_join output_dir (lit "log.txt") ∉ w_readonly w ->
  start_log output_dir w =
    (Ret tt,
     set_trace (w_trace w ++ [EvLogStarted])
       (set_stdout (TeeWriter (length (w_files w)) (w_stdout w))
          (set_tee (Some (length (w_files w), w_stdout w))
             (set_files
                (w_files w
                 ++ [mk_file (path_join output_dir (lit "log.txt")) [] false])
                (set_orig_stdout (w_stdout w) w))))).
Proof.
  intros Hfree.
  unfold start_log, TeeWriter_init, bind, open_w, gets. run_step.
  rewrite bool_decide_eq_false_2 by exact Hfree. reflexivity.
Qed.

Lemma start_log_raises (output_dir : str) (w : world) :
  path_join output_dir (lit "log.txt") ∈ w_readonly w ->
  start_log output_dir w =
    (Raise (mk_exn OSError (path_join output_dir (lit "log.txt"))),
     set_orig_stdout (w_stdout w) w).
Proof.
  intros Hro.
  unfold start_log, TeeWriter_init, bind, open_w, gets. run_step.
  rewrite bool_decide_eq_true_2 by exact Hro. reflexivity.
Qed.

Lemma stop_log_unpaired (w : world) :
  w_tee w = None ->
  stop_log w = (Ret tt, set_trace (w_trace w ++ [EvStopLog]) w).
Proof.
  intros Hnone. unfold stop_log, bind, gets. run_step. rewrite Hnone.
  reflexivity.
Qed.

Lemma stop_log_paired (w : world) (files : list file) (o : stream) (p : str)
    (content : list chunk) :
  w_tee w = Some (length files, o) ->
  w_files w = files ++ [mk_file p content false] ->
  stop_log w =
    (Ret tt,
     set_orig_stdout PyNone
       (set_tee None
          (set_files (files ++ [mk_file p content true])
             (set_stdout (w_orig_stdout w)
                (set_trace (w_trace w ++ [EvStopLog]) w))))).
Proof.
  intros Htee Hfiles. unfold stop_log, bind, gets. run_step. rewrite Htee.
  run_step.
  rewrite (file_close_last _ files p content) by exact Hfiles.
  reflexivity.
Qed.

(** C8. After a [start_log] that succeeded, and whatever was printed
    since, [stop_log] returns with the output stream set back to the
    stream [start_log] found, the hook cleared and the log file closed;
    every write after it reaches the console through that stream, and the
    closed log file stays as it was. Without a [start_log] that succeeded
    -- none was called, or the one called raised -- [stop_log] changes
    nothing (but for the record of the call) and returns. *)
Theorem log_tee_released (output_dir : str) (during after : list str)
    (w : world) :
  let log_path := path_join output_dir (lit "log.txt") in
  let h := length (w_files w) in
  (log_path ∉ w_readonly w ->
   writable (w_files w) (w_stdout w) = true ->
   exists w1 w2 w3 w4 log,
     start_log output_dir w = (Ret tt, w1)
     /\ w_stdout w1 = TeeWriter h (w_stdout w)
     /\ prints during w1 = (Ret tt, w2)
     /\ w_console w2 = w_console w ++ flat_map printed during
     /\ stop_log w2 = (Ret tt, w3)
     /\ w_stdout w3 = w_stdout w
     /\ w_tee w3 = None
     /\ w_files w3 !! h = Some log
     /\ f_path log = log_path /\ f_closed log = true
     /\ prints after w3 = (Ret tt, w4)
     /\ w_console w4 = w_console w3 ++ flat_map printed after
     /\ w_files w4 !! h = Some log)
  /\ (w_tee w = None ->
      stop_log w = (Ret tt, set_trace (w_trace w ++ [EvStopLog]) w)
      /\ (log_path ∈ w_readonly w ->
          exists e w1,
            start_log output_dir w = (Raise e, w1)
            /\ w_stdout w1 = w_stdout w
            /\ stop_log w1 = (Ret tt, set_trace (w_trace w1 ++ [EvStopLog]) w1))).
Proof.
  intros log_path h. split.
  - intros Hfree Hw.
    pose proof (start_log_runs output_dir w Hfree) as Hstart.
    fold log_path h in Hstart.
    match type of Hstart with _ = (_, ?W) => set (w1 := W) in * end.
    assert (Hw1 : writable (w_files w ++ [mk_file log_path [] false])
                    (w_stdout w1) = true).
    { cbn [w_stdout set_stdout w1 writable]. apply andb_true_iff. split.
      - unfold is_open, h. rewrite list_lookup_middle by reflexivity. reflexivity.
      - apply writable_app. exact Hw. }
    destruct (prints_run during w1 _ [] (eq_sym (app_nil_r _)) Hw1)
      as (w2 & base2 & Hrun2 & Henv2 & _ & Hcons2 & Hkept2 & Hfiles2).
    rewrite app_nil_r in Hfiles2.
    apply Forall2_app_inv_l in Hkept2 as (fs2 & logs & Hkept & Hlog & ->).
    inversion Hlog as [|? [p c closed] ? ? [Hpath Hclosed] Hnil]; subst.
    inversion Hnil; subst. cbn in Hpath, Hclosed. subst p closed.
    pose proof (Forall2_length _ _ _ Hkept) as Hlen.
    destruct Henv2 as (_ & _ & Hout2 & Htee2 & Horig2 & _).
    cbn [w_tee w_orig_stdout w_stdout set_stdout set_tee set_files
         set_orig_stdout set_trace w1] in Htee2, Horig2, Hout2.
    unfold h in Htee2. rewrite Hlen in Htee2.
    pose proof (stop_log_paired w2 fs2 (w_stdout w) log_path c Htee2 Hfiles2)
      as Hstop.
    rewrite Horig2 in Hstop.
    match type of Hstop with _ = (_, ?W) => set (w3 := W) in * end.
    assert (Hw3 : writable fs2 (w_stdout w3) = true).
    { cbn [w_stdout set_stdout set_orig_stdout set_tee set_files w3].
      rewrite (writable_kept _ _ _ Hkept). exact Hw. }
    destruct (prints_run after w3 fs2 [mk_file log_path c true] eq_refl Hw3)
      as (w4 & fs4 & Hrun4 & _ & _ & Hcons4 & Hkept4 & Hfiles4).
    pose proof (Forall2_length _ _ _ Hkept4) as Hlen4.
    exists w1, w2, w3, w4, (mk_file log_path c true).
    split; [exact Hstart|]. split; [reflexivity|]. split; [exact Hrun2|].
    split; [exact Hcons2|]. split; [exact Hstop|]. split; [reflexivity|].
    split; [reflexivity|].
    split; [cbn [w_files set_files set_orig_stdout set_tee w3]; unfold h;
            rewrite Hlen; apply list_lookup_middle; reflexivity|].
    split; [reflexivity|]. split; [reflexivity|]. split; [exact Hrun4|].
    split; [exact Hcons4|].
    rewrite Hfiles4. unfold h. rewrite Hlen, Hlen4.
    apply list_lookup_middle. reflexivity.
  - intros Hnone. split; [apply stop_log_unpaired; exact Hnone|].
    intros Hro. eexists. eexists.
    split; [apply start_log_raises; exact Hro|]. split; [reflexivity|].
    apply stop_log_unpaired. exact Hnone.
Qed.

Lemma log_tee_released_witness :
  let log_path := path_join Examples.out_dir (lit "log.txt") in
  let w := Examples.fresh [] in
  let locked := Examples.process [] [log_path] Examples.backend_ok in
  (exists w1 w2 w3 w4 log,
     start_log Examples.out_dir w = (Ret tt, w1)
     /\ w_stdout w1 = TeeWriter 0 Console
     /\ prints [lit "Output"] w1 = (Ret tt, w2)
     /\ w_console w2 = w_console w ++ flat_map printed [lit "Output"]
     /\ stop_log w2 = (Ret tt, w3)
     /\ w_stdout w3 = Console
     /\ w_tee w3 = None
     /\ w_files w3 !! 0%nat = Some log
     /\ f_path log = log_path /\ f_closed log = true
     /\ prints [lit "Later"] w3 = (Ret tt, w4)
     /\ w_console w4 = w_console w3 ++ flat_map printed [lit "Later"]
     /\ w_files w4 !! 0%nat = Some log)
  /\ stop_log w = (Ret tt, set_trace (w_trace w ++ [EvStopLog]) w)
  /\ (exists e w1,
        start_log Examples.out_dir locked = (Raise e, w1)
        /\ w_stdout w1 = w_stdout locked
        /\ stop_log w1 = (Ret tt, set_trace (w_trace w1 ++ [EvStopLog]) w1)).
Proof.
  intros log_path w locked.
  destruct (log_tee_released Examples.out_dir [lit "Output"] [lit "Later"] w)
    as [Hpaired Hunpaired].
  destruct (log_tee_released Examples.out_dir [] [] locked) as [_ Hfailed].
  split; [|split].
  - apply Hpaired; [apply not_elem_of_nil|reflexivity].
  - apply Hunpaired. reflexivity.
  - apply Hfailed; [reflexivity|]. left.
Defined.

(** ** Computations that leave the trace alone *)

Lemma silent_ret {A : Type} (a : A) : silent (ret a).
Proof. intros w. split; [reflexivity|discriminate]. Qed.

Lemma silent_raise {A : Type} (e : exn) : silent (@raise A e).
Proof. intros w. split; [reflexivity|discriminate]. Qed.

Lemma silent_gets {A : Type} (f : world -> A) : silent (gets f).
Proof. intros w. split; [reflexivity|discriminate]. Qed.

Lemma silent_bind {A B : Type} (m : M A) (k : A -> M B) :
  silent m -> (forall a, silent (k a)) -> silent (bind m k).
Proof.
  intros Hm Hk w. unfold bind. destruct (Hm w) as [Htrace Hend].
  destruct (m w) as [[a|e|] w1]; cbn [fst snd] in *.
  - destruct (Hk a w1) as [Htrace' Hend']. split; [congruence|exact Hend'].
  - split; [exact Htrace|discriminate].
  - contradiction.
Qed.

Lemma silent_try_finally {A : Type} (body : M A) (final : M unit) :
  silent body -> silent final -> silent (try_finally body final).
Proof.
  intros Hb Hf w. unfold try_finally. destruct (Hb w) as [Htrace Hend].
  destruct (body w) as [[a|e|] w1]; cbn [fst snd] in *; [| |contradiction];
    destruct (Hf w1) as [Htrace' Hend'];
    destruct (final w1) as [[[]|e'|] w2]; cbn [fst snd] in *;
    try contradiction; (split; [congruence|discriminate]).
Qed.

Lemma silent_try_except {A : Type} (body : M A) (handler : exn -> M A) :
  silent body -> (forall e, silent (handler e)) ->
  silent (try_except body handler).
Proof.
  intros Hb Hh w. unfold try_except. destruct (Hb w) as [Htrace Hend].
  destruct (body w) as [[a|e|] w1]; cbn [fst snd] in *.
  - split; [exact Htrace|discriminate].
  - destruct (Hh e w1) as [Htrace' Hend']. split; [congruence|exact Hend'].
  - contradiction.
Qed.

Lemma silent_raise_if (e : option exn) : silent (raise_if e).
Proof. destruct e; [apply silent_raise|apply silent_ret]. Qed.

Lemma silent_open_w (path : str) : silent (open_w path).
Proof.
  intros w. unfold open_w. destruct (bool_decide _);
    (split; [reflexivity|discriminate]).
Qed.

Lemma silent_file_write (h : nat) (c : chunk) : silent (file_write h c).
Proof.
  intros w. unfold file_write. destruct (w_files w !! h) as [f|];
    [destruct (f_closed f)|]; (split; [reflexivity|discriminate]).
Qed.

Lemma silent_file_close (h : nat) : silent (file_close h).
Proof.
  intros w. unfold file_close, modify. destruct (w_files w !! h);
    (split; [reflexivity|discriminate]).
Qed.

Lemma silent_stream_write (st : stream) (s : str) : silent (stream_write st s).
Proof.
  induction st as [| |h o IH]; cbn [stream_write].
  - apply silent_raise.
  - intros w. split; [reflexivity|discriminate].
  - apply silent_bind; [exact IH|]. intros _. apply silent_file_write.
Qed.

Lemma silent_print (s : str) : silent (print s).
Proof.
  unfold print. apply silent_bind; [apply silent_gets|].
  intros [| |h o]; [apply silent_ret| |];
    (apply silent_bind; [apply silent_stream_write|];
     intros _; apply silent_stream_write).
Qed.

Lemma silent_datetime_now : silent datetime_now.
Proof. intros w. split; [reflexivity|discriminate]. Qed.

Lemma silent_time_time : silent time_time.
Proof. intros w. split; [reflexivity|discriminate]. Qed.

Lemma silent_mkdir (p : str) : silent (mkdir p).
Proof.
  intros w. unfold mkdir. repeat destruct (bool_decide _);
    (split; [reflexivity|discriminate]).
Qed.

Lemma silent_copytree (src dst : str) : silent (copytree src dst).
Proof.
  intros w. unfold copytree. repeat destruct (bool_decide _);
    (split; [reflexivity|discriminate]).
Qed.

Lemma silent_call_build_graph (mba : MbaModule) : silent (call_build_graph mba).
Proof.
  unfold call_build_graph. destruct (build_graph mba);
    [apply silent_ret|apply silent_raise].
Qed.

(** Closes a goal [silent m] for [m] built from the operations above. *)
Ltac silence :=
  repeat first
    [ progress cbn beta zeta
    | match goal with |- forall _, _ => intro end
    | apply silent_print | apply silent_open_w | apply silent_file_write
    | apply silent_file_close | apply silent_datetime_now
    | apply silent_time_time | apply silent_mkdir | apply silent_copytree
    | apply silent_call_build_graph | apply silent_raise_if
    | apply silent_ret | apply silent_raise | apply silent_gets
    | apply silent_try_finally | apply silent_try_except
    | apply silent_bind ].

Lemma silent_save_all (result : result) (config : Config) (output_dir : str)
    (elapsed : float) :
  silent (save_all result config output_dir elapsed).
Proof.
  unfold save_all, save_markdown, save_meta, save_docx, write_markdown,
    write_meta, write_docx, docx_failed, yaml_dump, with_open, import_docx,
    composed, doc_save, with_open.
  silence. destruct (is_ImportError _); silence.
Qed.

(** ** The events of the controller *)

Lemma traces_silent {A : Type} (m : M A) :
  silent m -> traces m engine_events.
Proof.
  intros Hm w. destruct (Hm w) as [Htrace _]. exists [].
  rewrite app_nil_r. split; [exact Htrace|]. left. reflexivity.
Qed.

Lemma traces_bind {A B : Type} (m : M A) (k : A -> M B) :
  traces m engine_events -> (forall a, traces (k a) engine_events) ->
  traces (bind m k) engine_events.
Proof.
  intros Hm Hk w. unfold bind.
  destruct (Hm w) as (new1 & Htrace1 & Hnew1).
  destruct (m w) as [[a|e|] w1]; cbn [fst snd status_of] in *.
  - destruct (Hk a w1) as (new2 & Htrace2 & Hnew2).
    destruct Hnew1 as [Hquiet1|(pre & p & e & _ & _ & Habs)]; [|discriminate].
    exists (new1 ++ new2). rewrite Htrace2, Htrace1, app_assoc.
    split; [reflexivity|].
    destruct Hnew2 as [Hquiet2|(pre & p & e & -> & Hpre & Hst)].
    + left. rewrite forallb_app, Hquiet1, Hquiet2. reflexivity.
    + right. exists (new1 ++ pre), p, e. rewrite app_assoc.
      split; [reflexivity|]. split; [|exact Hst].
      rewrite forallb_app, Hquiet1, Hpre. reflexivity.
  - exists new1. auto.
  - exists new1. auto.
Qed.

Lemma traces_for_in {X S : Type} (l : list X) (body : X -> S -> M S) :
  (forall x s, traces (body x s) engine_events) ->
  forall s, traces (for_in l body s) engine_events.
Proof.
  intros Hbody. induction l as [|x l IH]; intros s; cbn [for_in].
  - apply traces_silent, silent_ret.
  - apply traces_bind; [apply Hbody|exact IH].
Qed.

Lemma traces_emit (ev : event) :
  uneventful ev = true -> traces (emit ev) engine_events.
Proof.
  intros Hev w. exists [ev]. split; [reflexivity|].
  left. cbn [forallb]. rewrite Hev. reflexivity.
Qed.

Lemma traces_input (text : str) : traces (input text) engine_events.
Proof.
  intros w. unfold input. destruct (w_stdin w) as [|line rest].
  - exists []. rewrite app_nil_r. split; [reflexivity|]. left. reflexivity.
  - exists [EvInput text line]. split; [reflexivity|]. left. reflexivity.
Qed.

Lemma traces_invoke (agent : Agent) (p : payload) :
  traces (invoke agent p) engine_events.
Proof.
  intros w. unfold invoke. destruct (agent_invoke agent _) as [r|e].
  - exists [EvInvoke p None]. split; [reflexivity|]. left. reflexivity.
  - exists [EvInvoke p (Some e)]. split; [reflexivity|].
    right. exists [], p, e. repeat split.
Qed.

Lemma traces_get_state (agent : Agent) : traces (get_state agent) engine_events.
Proof.
  intros w. unfold get_state. exists [EvGetState].
  destruct (agent_get_state agent _); (split; [reflexivity|left; reflexivity]).
Qed.

Lemma traces_gate (agent : Agent) (intr : interrupt) (vars : nat * result) :
  traces (gate agent intr vars) engine_events.
Proof.
  unfold gate, display.
  repeat (apply traces_bind; [apply traces_emit; reflexivity|intros _]).
  apply traces_bind; [apply traces_input|intros line].
  apply traces_bind; [apply traces_invoke|intros r].
  apply traces_silent, silent_ret.
Qed.

Lemma traces_snapshot_gates (agent : Agent) (tasks : list task)
    (vars : nat * result) :
  traces (snapshot_gates agent tasks vars) engine_events.
Proof.
  unfold snapshot_gates. apply traces_for_in. intros t s. unfold task_gates.
  destruct (interrupts t) as [intrs|].
  - apply traces_for_in. intros intr s'. apply traces_gate.
  - apply traces_silent, silent_ret.
Qed.

Lemma traces_interrupt_loop (fuel : nat) (agent : Agent) :
  forall vars, traces (interrupt_loop fuel agent vars) engine_events.
Proof.
  induction fuel as [|fuel IH]; intros vars; cbn [interrupt_loop].
  - intros w. exists []. rewrite app_nil_r. split; [reflexivity|].
    left. reflexivity.
  - apply traces_bind; [apply traces_get_state|]. intros snap.
    destruct (next snap).
    + apply traces_silent, silent_ret.
    + apply traces_bind; [apply traces_snapshot_gates|exact IH].
Qed.

Lemma traces_run_body (fuel : nat) (mba : MbaModule) (agent : Agent)
    (config : Config) (output_dir : str) :
  traces (run_body fuel mba agent config output_dir) engine_events.
Proof.
  unfold run_body.
  apply traces_bind; [apply traces_silent, silent_time_time|intros t0].
  apply traces_bind; [apply traces_invoke|intros r].
  apply traces_bind; [apply traces_interrupt_loop|intros vars].
  apply traces_bind; [apply traces_silent, silent_time_time|intros t1].
  cbn zeta.
  apply traces_bind; [apply traces_silent, silent_save_all|intros _].
  apply traces_bind; [apply traces_silent, silent_gets|intros mounted].
  apply traces_bind.
  { apply traces_silent. destruct mounted; silence. }
  intros _. unfold display.
  repeat (apply traces_bind; [apply traces_emit; reflexivity|intros _]).
  apply traces_bind; [apply traces_silent, silent_print|intros _].
  apply traces_silent, silent_ret.
Qed.

(** ** The events of [run] *)

Lemma traces_run_silent_bind {A B : Type} (m : M A) (k : A -> M B) :
  silent m -> (forall a, traces (k a) run_events) ->
  traces (bind m k) run_events.
Proof.
  intros Hm Hk w. unfold bind. destruct (Hm w) as [Htrace Hend].
  destruct (m w) as [[a|e|] w1]; cbn [fst snd] in *.
  - destruct (Hk a w1) as (new & Htrace' & Hnew).
    exists new. rewrite Htrace', Htrace. auto.
  - exists []. rewrite app_nil_r. split; [exact Htrace|].
    left. split; [reflexivity|discriminate].
  - contradiction.
Qed.

Lemma start_log_outcome (output_dir : str) (w : world) :
  (exists e w1, start_log output_dir w = (Raise e, w1)
                /\ w_trace w1 = w_trace w)
  \/ (exists w1, start_log output_dir w = (Ret tt, w1)
                 /\ w_trace w1 = w_trace w ++ [EvLogStarted]).
Proof.
  destruct (decide (path_join output_dir (lit "log.txt") ∈ w_readonly w))
    as [Hro|Hfree].
  - left. eexists. eexists. split; [apply start_log_raises; exact Hro|].
    reflexivity.
  - right. eexists. split; [apply start_log_runs; exact Hfree|]. reflexivity.
Qed.

Lemma stop_log_returns (w : world) :
  exists w1, stop_log w = (Ret tt, w1)
             /\ w_trace w1 = w_trace w ++ [EvStopLog].
Proof.
  unfold stop_log, bind, gets, file_close, modify, emit. run_step.
  destruct (w_tee w) as [[h o]|]; run_step.
  - eexists. split; [reflexivity|].
    destruct (w_files w !! h); reflexivity.
  - eexists. split; reflexivity.
Qed.

Lemma traces_guarded {A : Type} (output_dir : str) (body : M A) :
  traces body engine_events ->
  traces (bind (start_log output_dir) (fun _ => try_finally body stop_log))
    run_events.
Proof.
  intros Hbody w. unfold bind.
  destruct (start_log_outcome output_dir w)
    as [(e & w1 & -> & Htrace1)|(w1 & -> & Htrace1)].
  - exists []. rewrite app_nil_r. split; [exact Htrace1|].
    left. split; [reflexivity|discriminate].
  - unfold try_finally. destruct (Hbody w1) as (new & Htrace2 & Hnew).
    destruct (body w1) as [[a|e|] w2]; cbn [fst snd status_of] in *.
    + destruct (stop_log_returns w2) as (w3 & -> & Htrace3).
      exists (EvLogStarted :: new ++ [EvStopLog]).
      split; [|right; exists new; auto].
      cbn [snd]. rewrite Htrace3, Htrace2, Htrace1, <- !app_assoc. reflexivity.
    + destruct (stop_log_returns w2) as (w3 & -> & Htrace3).
      exists (EvLogStarted :: new ++ [EvStopLog]).
      split; [|right; exists new; auto].
      cbn [snd]. rewrite Htrace3, Htrace2, Htrace1, <- !app_assoc. reflexivity.
    + exists (EvLogStarted :: new ++ []).
      split; [|right; exists new; auto].
      cbn [snd]. rewrite Htrace2, Htrace1, app_nil_r, <- !app_assoc. reflexivity.
Qed.

Lemma traces_run (fuel : nat) (mba : MbaModule) (config : Config) :
  traces (RunAgent.run fuel mba config) run_events.
Proof.
  unfold RunAgent.run, resolve.
  apply traces_run_silent_bind; [silence|intros agent].
  apply traces_run_silent_bind; [silence|intros now]. cbn zeta.
  apply traces_run_silent_bind; [silence|intros _].
  apply traces_run_silent_bind; [silence|intros resolved].
  apply traces_run_silent_bind; [silence|intros _].
  apply traces_guarded. apply traces_run_body.
Qed.

Lemma new_events_app (w w' : world) (new : list event) :
  w_trace w' = w_trace w ++ new -> new_events w w' = new.
Proof. intros H. unfold new_events. rewrite H. apply drop_app_length. Qed.

Lemma uneventful_counts (evs : list event) :
  forallb uneventful evs = true ->
  stop_log_calls evs = O /\ log_starts evs = O
  /\ forall p e, ~ In (EvInvoke p (Some e)) evs.
Proof.
  unfold stop_log_calls, log_starts.
  induction evs as [|ev evs IH]; cbn [forallb List.filter]; intros H.
  - repeat split. intros p e [].
  - apply andb_true_iff in H as [Hev Hevs].
    destruct (IH Hevs) as (Hstop & Hstart & Hfail).
    unfold uneventful in Hev. apply negb_true_iff in Hev.
    apply orb_false_iff in Hev as [Hev Hf].
    apply orb_false_iff in Hev as [Hs Hl].
    rewrite Hs, Hl. split; [exact Hstop|]. split; [exact Hstart|].
    intros p e [Heq|Hin]; [subst ev; discriminate|exact (Hfail p e Hin)].
Qed.

Lemma status_of_raised {A : Type} (o : outcome A) (e : exn) :
  status_of o = Raised e -> o = Raise e.
Proof. destruct o; intros H; inversion H. reflexivity. Qed.

Lemma engine_events_counts (st : status) (body : list event) :
  engine_events st body ->
  stop_log_calls body = O /\ log_starts body = O.
Proof.
  intros [Hquiet|(pre & p & e & -> & Hpre & _)].
  - destruct (uneventful_counts body Hquiet) as (H1 & H2 & _). auto.
  - destruct (uneventful_counts pre Hpre) as (H1 & H2 & _).
    unfold stop_log_calls, log_starts in *.
    rewrite !List.filter_app, !length_app, H1, H2. auto.
Qed.

(** C7 as stated does not hold on every exit path of [run]: when the log
    file cannot be opened, [start_log] raises, [run] ends with its
    exception, and [stop_log] is not called; nor is it when [build_graph]
    raises. *)
Lemma no_teardown_when_log_cannot_start :
  let locked :=
    Examples.process [] [path_join Examples.out_dir (lit "log.txt")]
      Examples.backend_ok in
  let out :=
    RunAgent.run 1 (Examples.mba_of Examples.engine) Examples.config locked in
  let w := Examples.fresh [] in
  let unbuilt :=
    RunAgent.run 1
      {| build_graph := Raises Examples.no_key; INPUT_QUERY := lit "Q" |}
      Examples.config w in
  fst out = Raise (mk_exn OSError (path_join Examples.out_dir (lit "log.txt")))
  /\ stop_log_calls (new_events locked (snd out)) = O
  /\ fst unbuilt = Raise Examples.no_key
  /\ stop_log_calls (new_events w (snd unbuilt)) = O.
Proof. vm_compute. repeat split; reflexivity. Qed.

(** C7, amended. An exception raised while the workflow is invoked or
    resumed inside [run] leaves [run] as its outcome: the invocation that
    raised is the last call to the engine (nothing is invoked again), and
    [stop_log] is called once, right after it. On every exit path of
    [run], [stop_log] is called exactly once if [start_log] had returned,
    that is once the [try] statement is entered, and not at all if
    [run] ends before. *)
Theorem engine_failure_propagates (fuel : nat) (mba : MbaModule)
    (config : Config) (w : world) :
  let out := RunAgent.run fuel mba config w in
  let new := new_events w (snd out) in
  (forall p e,
     In (EvInvoke p (Some e)) new ->
     fst out = Raise e
     /\ (exists pre,
           new = EvLogStarted :: pre ++ [EvInvoke p (Some e); EvStopLog]
           /\ forallb uneventful pre = true)
     /\ stop_log_calls new = 1%nat)
  /\ (fst out <> Diverge ->
      stop_log_calls new = log_starts new /\ (log_starts new <= 1)%nat).
Proof.
  intros out new.
  destruct (traces_run fuel mba config w) as (evs & Htrace & Hevs).
  fold out in Htrace, Hevs.
  assert (Hnew : new = evs) by (apply new_events_app; exact Htrace).
  rewrite Hnew. clear Hnew new. split.
  - intros p e Hin.
    destruct Hevs as [[Hquiet _]|(body & -> & Hbody)].
    { destruct (uneventful_counts evs Hquiet) as (_ & _ & Hnone).
      destruct (Hnone p e Hin). }
    destruct Hin as [Habs|Hin]; [discriminate|].
    assert (Hin' : In (EvInvoke p (Some e)) body).
    { apply in_app_or in Hin as [Hin|Hin]; [exact Hin|].
      destruct (status_of (fst out)); [| |destruct Hin];
        (destruct Hin as [Habs|[]]; discriminate). }
    destruct Hbody as [Hquiet|(pre & p' & e' & -> & Hpre & Hst)].
    { destruct (uneventful_counts body Hquiet) as (_ & _ & Hnone).
      destruct (Hnone p e Hin'). }
    destruct (uneventful_counts pre Hpre) as (Hstop & Hstart & Hnone).
    apply in_app_or in Hin' as [Hin'|[Heq|[]]]; [destruct (Hnone p e Hin')|].
    injection Heq as -> ->. rewrite Hst.
    split; [apply status_of_raised; exact Hst|]. split.
    + exists pre. rewrite <- app_assoc. split; [reflexivity|exact Hpre].
    + unfold stop_log_calls in *. cbn [List.filter is_stop_log].
      rewrite <- app_assoc, List.filter_app, length_app, Hstop. reflexivity.
  - intros Hend.
    destruct Hevs as [[Hquiet _]|(body & -> & Hbody)].
    { destruct (uneventful_counts evs Hquiet) as (-> & -> & _). lia. }
    destruct (engine_events_counts _ _ Hbody) as [Hstop Hstart].
    unfold stop_log_calls, log_starts in *.
    cbn [List.filter is_stop_log is_log_started length].
    rewrite !List.filter_app, !length_app, Hstop, Hstart.
    destruct (fst out); [| |contradiction]; cbn; lia.
Qed.

Lemma engine_failure_propagates_witness :
  let w := Examples.fresh [lit "ok"; lit ""; lit "never read"] in
  let out :=
    RunAgent.run 2 (Examples.mba_of Examples.failing_engine) Examples.config w in
  let new := new_events w (snd out) in
  (fst out = Raise Examples.no_key
   /\ (exists pre,
         new = EvLogStarted
               :: pre ++ [EvInvoke (Resume (lit "approved")) (Some Examples.no_key);
                          EvStopLog]
         /\ forallb uneventful pre = true)
   /\ stop_log_calls new = 1%nat)
  /\ (stop_log_calls new = log_starts new /\ (log_starts new <= 1)%nat).
Proof.
  intros w out new.
  destruct (engine_failure_propagates 2
              (Examples.mba_of Examples.failing_engine) Examples.config w)
    as [Hfailed Hexit].
  split.
  - apply Hfailed. vm_compute. repeat (first [left; reflexivity | right]).
  - apply Hexit. vm_compute. discriminate.
Defined.


(** * Further properties of the code *)

Import Re ConfigUI Loader Notions.

(** ** Inline markup: [_add_formatted_runs] *)


Lemma no_markup_at (c : char) (s : str) :
  (c =? star) = false -> match_len inline_markup (c :: s) = None.
Proof.
  intros Hc. unfold match_len, inline_markup. cbn [rmatch]. unfold only.
  rewrite N.eqb_sym, Hc. reflexivity.
Qed.

Lemma split_scan_star_free (s piece : str) :
  star_free s = true ->
  split_scan inline_markup s O piece = [rev piece ++ s].
Proof.
  revert piece. induction s as [|c s IH]; intros piece H.
  - cbn. rewrite app_nil_r. reflexivity.
  - cbn [star_free forallb] in H. apply andb_true_iff in H as [Hc Hs].
    apply negb_true_iff in Hc.
    cbn [split_scan]. pose proof (no_markup_at c s Hc) as Hm. unfold char, str in *. rewrite Hm.
    rewrite (IH (c :: piece) Hs). cbn [rev]. rewrite <- app_assoc. reflexivity.
Qed.

Lemma startswith_star_free (p s : str) :
  star_free s = true -> startswith (star :: p) s = false.
Proof.
  destruct s as [|c s]; [reflexivity|]. cbn [star_free forallb startswith].
  intros H. apply andb_true_iff in H as [Hc _]. apply negb_true_iff in Hc.
  rewrite N.eqb_sym, Hc. reflexivity.
Qed.

Lemma add_part_plain (p : paragraph) (part : str) :
  star_free part = true -> add_part p part = add_run p (plain_run part).
Proof.
  intros H. unfold add_part.
  change (lit "**") with (star :: [star]). change (lit "*") with (star :: []).
  rewrite !(startswith_star_free _ part H). reflexivity.
Qed.

(** X1. A text without a star is not split: [_add_formatted_runs] adds
    exactly one run to the paragraph, with the whole text and no
    formatting; for the empty text that is one empty run. *)
Theorem plain_text_is_one_run (p : paragraph) (text : str) :
  star_free text = true ->
  _add_formatted_runs p text = add_run p (plain_run text).
Proof.
  intros H. unfold _add_formatted_runs, Re.split.
  rewrite (split_scan_star_free text [] H). cbn [rev app fold_left].
  apply add_part_plain. exact H.
Qed.

Lemma plain_text_is_one_run_witness :
  _add_formatted_runs (new_paragraph None) (lit "Net margin: 12 %") =
    add_run (new_paragraph None) (plain_run (lit "Net margin: 12 %"))
  /\ p_runs (_add_formatted_runs (new_paragraph None) []) = [plain_run []].
Proof.
  split.
  - apply (plain_text_is_one_run (new_paragraph None) (lit "Net margin: 12 %")).
    reflexivity.
  - rewrite (plain_text_is_one_run (new_paragraph None) [] eq_refl).
    reflexivity.
Defined.


Lemma match_len_le (r : regex) (s : str) (n : nat) :
  match_len r s = Some n -> (n <= length s)%nat.
Proof.
  unfold match_len. destruct (rmatch r s Some); [|discriminate].
  intros H. injection H as <-. lia.
Qed.

Lemma split_scan_concat (r : regex) (s : str) :
  forall (inside : nat) (piece : str),
    (inside <= length s)%nat ->
    concat (split_scan r s inside piece) = rev piece ++ skipn inside s.
Proof.
  induction s as [|c s IH]; intros inside piece Hle.
  - cbn in Hle. assert (inside = O) by lia. subst. cbn. reflexivity.
  - cbn [split_scan]. destruct inside as [|n].
    + destruct (match_len r (c :: s)) as [[|n]|] eqn:Hm.
      * rewrite IH by lia. cbn [rev skipn]. rewrite <- app_assoc. reflexivity.
      * apply match_len_le in Hm. cbn [length] in Hm.
        cbn [concat]. rewrite IH by lia. cbn [rev app skipn].
        change (c :: s) with ([c] ++ s) at 2.
        rewrite <- (firstn_skipn n s) at 3. reflexivity.
      * rewrite IH by lia. cbn [rev skipn]. rewrite <- app_assoc. reflexivity.
    + cbn [length] in Hle. rewrite IH by lia. reflexivity.
Qed.

Lemma split_concat (r : regex) (text : str) :
  concat (Re.split r text) = text.
Proof. unfold Re.split. rewrite split_scan_concat by lia. reflexivity. Qed.

Lemma endswith_app (p s : str) :
  endswith p s = true -> exists front, s = front ++ p.
Proof.
  unfold endswith. intros H. apply startswith_app in H as [rest Hrest].
  exists (rev rest). apply (f_equal (@rev N)) in Hrest.
  rewrite rev_involutive, rev_app_distr, rev_involutive in Hrest. exact Hrest.
Qed.

Lemma clamp_front (len : Z) (n : nat) :
  (Z.of_nat n <= len)%Z -> clamp len (Z.of_nat n) = n.
Proof.
  intros H. unfold clamp. destruct (Z.ltb_spec (Z.of_nat n) 0); lia.
Qed.

Lemma clamp_back (len : Z) (n : nat) :
  (0 < n)%nat -> (Z.of_nat n <= len)%Z ->
  clamp len (- Z.of_nat n) = Z.to_nat (len - Z.of_nat n).
Proof.
  intros Hn H. unfold clamp. destruct (Z.ltb_spec (- Z.of_nat n) 0); lia.
Qed.

Lemma slice_mid (a m b : str) :
  b <> [] ->
  slice (Z.of_nat (length a)) (- Z.of_nat (length b)) (a ++ m ++ b) = m.
Proof.
  intros Hb. assert (0 < length b)%nat by (destruct b; [contradiction|cbn; lia]).
  unfold slice. rewrite !length_app.
  rewrite clamp_front, clamp_back by lia.
  replace (Z.to_nat _ - length a)%nat with (length m) by lia.
  rewrite skipn_app, skipn_all, Nat.sub_diag. cbn [skipn app].
  change (drop 0 (m ++ b)) with (m ++ b).
  rewrite firstn_app, firstn_all, Nat.sub_diag. cbn. apply app_nil_r.
Qed.

Lemma without_stars_app (a b : str) :
  without_stars (a ++ b) = without_stars a ++ without_stars b.
Proof. apply List.filter_app. Qed.

Lemma bold_part_text (part : str) :
  startswith (lit "**") part = true -> endswith (lit "**") part = true ->
  without_stars (slice 2 (-2) part) = without_stars part.
Proof.
  intros Hs He. apply endswith_app in He as [front ->].
  change (lit "**") with [star; star] in *.
  destruct front as [|a [|b m]]; cbn [startswith app] in Hs.
  - reflexivity.
  - apply andb_true_iff in Hs as [Ha _]. apply N.eqb_eq in Ha.
    subst a. reflexivity.
  - apply andb_true_iff in Hs as [Ha Hb].
    apply andb_true_iff in Hb as [Hb _].
    apply N.eqb_eq in Ha, Hb. subst a b.
    assert (Hmid : slice 2 (-2) ([star; star] ++ m ++ [star; star]) = m)
      by (apply (slice_mid [star; star] m [star; star]); discriminate).
    change ((star :: star :: m) ++ [star; star])
      with ([star; star] ++ m ++ [star; star]).
    rewrite Hmid, !without_stars_app.
    change (without_stars [star; star]) with (@nil N).
    rewrite app_nil_r. reflexivity.
Qed.

Lemma italic_part_text (part : str) :
  startswith (lit "*") part = true -> endswith (lit "*") part = true ->
  without_stars (slice 1 (-1) part) = without_stars part.
Proof.
  intros Hs He. apply endswith_app in He as [front ->].
  change (lit "*") with [star] in *.
  destruct front as [|a m]; cbn [startswith app] in Hs.
  - reflexivity.
  - apply andb_true_iff in Hs as [Ha _]. apply N.eqb_eq in Ha.
    subst a.
    assert (Hmid : slice 1 (-1) ([star] ++ m ++ [star]) = m)
      by (apply (slice_mid [star] m [star]); discriminate).
    change ((star :: m) ++ [star]) with ([star] ++ m ++ [star]).
    rewrite Hmid, !without_stars_app.
    change (without_stars [star]) with (@nil N).
    rewrite app_nil_r. reflexivity.
Qed.

Lemma add_part_text (p : paragraph) (part : str) :
  exists r, add_part p part = add_run p r
            /\ without_stars (run_text r) = without_stars part.
Proof.
  unfold add_part.
  destruct (startswith (lit "**") part) eqn:Hs2;
    [destruct (endswith (lit "**") part) eqn:He2|]; cbn [andb].
  - eexists. split; [reflexivity|]. apply bold_part_text; assumption.
  - destruct (startswith (lit "*") part) eqn:Hs1;
      [destruct (endswith (lit "*") part) eqn:He1|]; cbn [andb];
      eexists; (split; [reflexivity|]); try reflexivity.
    apply italic_part_text; assumption.
  - destruct (startswith (lit "*") part) eqn:Hs1;
      [destruct (endswith (lit "*") part) eqn:He1|]; cbn [andb];
      eexists; (split; [reflexivity|]); try reflexivity.
    apply italic_part_text; assumption.
Qed.

Lemma add_parts_text (parts : list str) :
  forall p : paragraph,
  exists runs,
    p_runs (fold_left add_part parts p) = p_runs p ++ runs
    /\ length runs = length parts
    /\ without_stars (concat (List.map run_text runs)) =
         without_stars (concat parts).
Proof.
  induction parts as [|part parts IH]; intros p.
  - exists []. cbn. rewrite app_nil_r. auto.
  - cbn [fold_left]. destruct (add_part_text p part) as (r & -> & Hr).
    destruct (IH (add_run p r)) as (runs & -> & Hlen & Hruns).
    exists (r :: runs). cbn [add_run p_runs]. rewrite <- app_assoc.
    split; [reflexivity|]. split; [cbn; lia|].
    cbn [List.map concat]. rewrite !without_stars_app, Hr, Hruns. reflexivity.
Qed.

Lemma split_scan_odd (r : regex) (s : str) :
  forall (inside : nat) (piece : str),
    Nat.odd (length (split_scan r s inside piece)) = true.
Proof.
  induction s as [|c s IH]; intros inside piece; cbn [split_scan].
  - reflexivity.
  - destruct inside as [|k]; [|apply IH].
    destruct (match_len r (c :: s)) as [[|k]|]; apply IH.
Qed.

(** X2. Whatever the text, [_add_formatted_runs] leaves the runs the
    paragraph had and adds an odd number of runs (so at least one) after
    them, and the texts of the added runs, joined in order, are the text
    but for stars: the rendering drops star characters only, and changes
    and reorders nothing else. *)
Theorem formatted_runs_keep_the_text (p : paragraph) (text : str) :
  exists runs,
    p_runs (_add_formatted_runs p text) = p_runs p ++ runs
    /\ Nat.odd (length runs) = true
    /\ without_stars (concat (List.map run_text runs)) = without_stars text.
Proof.
  unfold _add_formatted_runs.
  destruct (add_parts_text (Re.split inline_markup text) p)
    as (runs & Hruns & Hlen & Htext).
  exists runs. split; [exact Hruns|]. split.
  - rewrite Hlen. apply split_scan_odd.
  - rewrite Htext, split_concat. reflexivity.
Qed.


Lemma split_scan_skip (r : regex) (a b piece : str) :
  split_scan r (a ++ b) (length a) piece = split_scan r b O piece.
Proof. induction a as [|c a IH]; [reflexivity|exact IH]. Qed.

Lemma split_scan_plain_prefix (pre s : str) :
  star_free pre = true ->
  forall piece,
    split_scan inline_markup (pre ++ s) O piece =
    split_scan inline_markup s O (rev pre ++ piece).
Proof.
  induction pre as [|c pre IH]; intros H piece; [reflexivity|].
  cbn [star_free forallb] in H. apply andb_true_iff in H as [Hc Hpre].
  apply negb_true_iff in Hc.
  cbn [app split_scan]. pose proof (no_markup_at c (pre ++ s) Hc) as Hm.
  unfold char, str in *. rewrite Hm, (IH Hpre). cbn [rev].
  rewrite <- app_assoc. reflexivity.
Qed.

Lemma split_scan_match (r : regex) (m post piece : str) :
  m <> [] ->
  match_len r (m ++ post) = Some (length m) ->
  split_scan r (m ++ post) O piece = rev piece :: m :: split_scan r post O [].
Proof.
  intros Hm Hlen. destruct m as [|c m]; [contradiction|].
  cbn [app split_scan]. cbn [app] in Hlen. unfold char, str in *.
  rewrite Hlen. cbn [length]. rewrite split_scan_skip.
  f_equal. f_equal. change (c :: m ++ post) with ((c :: m) ++ post).
  apply (take_app_length (c :: m) post).
Qed.

Lemma lazy_cons (cls : char -> bool) (c : char) (s : str)
    (k : str -> option str) :
  rmatch (LazyStar cls) (c :: s) k =
    match k (c :: s) with
    | Some rest => Some rest
    | None => if cls c then rmatch (LazyStar cls) s k else None
    end.
Proof. reflexivity. Qed.

Lemma lazy_skips (k : str -> option str) (body rest : str) :
  (forall c s, (c =? star) = false -> k (c :: s) = None) ->
  star_free body = true -> one_line body = true ->
  rmatch (LazyStar dot) (body ++ rest) k = rmatch (LazyStar dot) rest k.
Proof.
  intros Hk. induction body as [|c body IH]; intros Hs Hl; [reflexivity|].
  cbn [star_free one_line forallb] in Hs, Hl.
  apply andb_true_iff in Hs as [Hc Hs]. apply andb_true_iff in Hl as [Hd Hl].
  apply negb_true_iff in Hc.
  cbn [app]. rewrite lazy_cons, (Hk c _ Hc), Hd. apply IH; assumption.
Qed.

Lemma bold_match (body post : str) :
  star_free body = true -> one_line body = true ->
  match_len inline_markup (lit "**" ++ body ++ lit "**" ++ post) =
    Some (length (lit "**" ++ body ++ lit "**")).
Proof.
  intros Hs Hl. unfold match_len.
  assert (Hm : rmatch inline_markup (lit "**" ++ body ++ lit "**" ++ post) Some
               = Some post).
  { change (rmatch inline_markup (lit "**" ++ body ++ lit "**" ++ post) Some)
      with (match rmatch (LazyStar dot) (body ++ lit "**" ++ post) closes_bold with
            | Some rest => Some rest
            | None =>
                rmatch (Seq (Chr (only star)) (Seq (LazyStar dot) (Chr (only star))))
                  (lit "**" ++ body ++ lit "**" ++ post) Some
            end).
    rewrite (lazy_skips closes_bold body); try assumption.
    - reflexivity.
    - intros c s Hc. unfold closes_bold. cbn [rmatch]. unfold only.
      rewrite N.eqb_sym, Hc. reflexivity. }
  rewrite Hm. f_equal. rewrite !length_app. lia.
Qed.

Lemma italic_match (c : N) (body post : list N) :
  star_free (c :: body) = true -> one_line (c :: body) = true ->
  match_len inline_markup (lit "*" ++ (c :: body) ++ lit "*" ++ post) =
    Some (length (lit "*" ++ (c :: body) ++ lit "*")).
Proof.
  intros Hs Hl. unfold match_len.
  assert (Hm : rmatch inline_markup (lit "*" ++ (c :: body) ++ lit "*" ++ post) Some
               = Some post).
  { assert (Hc : (c =? star) = false).
    { cbn [star_free forallb] in Hs. apply andb_true_iff in Hs as [Hc _].
      apply negb_true_iff in Hc. exact Hc. }
    change (rmatch inline_markup (lit "*" ++ (c :: body) ++ lit "*" ++ post) Some)
      with (match (if only star c
                   then rmatch (Seq (LazyStar dot) (Seq (Chr (only star)) (Chr (only star))))
                          (body ++ lit "*" ++ post) Some
                   else None) with
            | Some rest => Some rest
            | None =>
                rmatch (LazyStar dot) ((c :: body) ++ lit "*" ++ post) closes_italic
            end).
    unfold only at 1. rewrite N.eqb_sym, Hc.
    rewrite (lazy_skips closes_italic (c :: body)); try assumption.
    - reflexivity.
    - intros c' s Hc'. unfold closes_italic. cbn [rmatch]. unfold only.
      rewrite N.eqb_sym, Hc'. reflexivity. }
  rewrite Hm. f_equal. rewrite !length_app. unfold char, str in *. lia.
Qed.

Lemma startswith_prefix (p rest : str) : startswith p (p ++ rest) = true.
Proof.
  induction p as [|a p IH]; [reflexivity|].
  cbn [app startswith]. rewrite N.eqb_refl. exact IH.
Qed.

Lemma endswith_suffix (p front : str) : endswith p (front ++ p) = true.
Proof. unfold endswith. rewrite rev_app_distr. apply startswith_prefix. Qed.

Lemma add_part_bold (p : paragraph) (body : str) :
  add_part p (lit "**" ++ body ++ lit "**") = add_run p (bold_run body).
Proof.
  unfold add_part. rewrite startswith_prefix.
  rewrite (app_assoc (lit "**") body (lit "**")), endswith_suffix.
  rewrite <- app_assoc. cbn [andb].
  assert (Hmid : slice 2 (-2) (lit "**" ++ body ++ lit "**") = body)
    by (apply (slice_mid (lit "**") body (lit "**")); discriminate).
  rewrite Hmid. reflexivity.
Qed.

Lemma add_part_italic (p : paragraph) (c : N) (body : list N) :
  (c =? star) = false ->
  add_part p (lit "*" ++ (c :: body) ++ lit "*") = add_run p (italic_run (c :: body)).
Proof.
  intros Hc. unfold add_part. unfold char, str in *.
  assert (H2 : startswith (lit "**") (lit "*" ++ (c :: body) ++ lit "*") = false).
  { change (lit "**") with [star; star]. change (lit "*") with [star].
    cbn [app startswith]. rewrite (N.eqb_sym star c), Hc.
    rewrite andb_false_r. reflexivity. }
  rewrite H2. cbn [andb]. rewrite startswith_prefix.
  rewrite (app_assoc (lit "*") (c :: body) (lit "*")), endswith_suffix.
  rewrite <- app_assoc. cbn [andb].
  assert (Hmid : slice 1 (-1) (lit "*" ++ (c :: body) ++ lit "*") = c :: body)
    by (apply (slice_mid (lit "*") (c :: body) (lit "*")); discriminate).
  rewrite Hmid. reflexivity.
Qed.

Lemma runs_after_span (p : paragraph) (pre m post : str) :
  star_free pre = true -> m <> [] ->
  match_len inline_markup (m ++ post) = Some (length m) ->
  _add_formatted_runs p (pre ++ m ++ post) =
    _add_formatted_runs (add_part (add_run p (plain_run pre)) m) post.
Proof.
  intros Hpre Hm Hlen. unfold _add_formatted_runs, Re.split.
  rewrite (split_scan_plain_prefix pre (m ++ post) Hpre).
  rewrite (split_scan_match inline_markup m post _ Hm Hlen).
  rewrite app_nil_r, rev_involutive. cbn [fold_left].
  rewrite (add_part_plain p pre Hpre). reflexivity.
Qed.

(** X3. A first marked span becomes one styled run. When [pre] has no star
    and [body] has neither a star nor a line break, the text
    [pre **body** post] renders as the unstyled run [pre], the bold run
    [body], and then the runs of [post] on their own; with single stars
    and a non-empty [body], the same with an italic run. *)
Theorem marked_span_is_one_styled_run (p : paragraph) (pre body post : str) :
  star_free pre = true -> star_free body = true -> one_line body = true ->
  _add_formatted_runs p (pre ++ lit "**" ++ body ++ lit "**" ++ post) =
    _add_formatted_runs
      (add_run (add_run p (plain_run pre)) (bold_run body)) post
  /\ (body <> [] ->
      _add_formatted_runs p (pre ++ lit "*" ++ body ++ lit "*" ++ post) =
        _add_formatted_runs
          (add_run (add_run p (plain_run pre)) (italic_run body)) post).
Proof.
  intros Hpre Hbody Hline. split.
  - rewrite <- (add_part_bold _ body).
    rewrite <- (runs_after_span p pre (lit "**" ++ body ++ lit "**") post Hpre).
    + rewrite <- !app_assoc. reflexivity.
    + discriminate.
    + rewrite <- !app_assoc. apply bold_match; assumption.
  - intros Hne. destruct body as [|c body]; [contradiction|].
    assert (Hc : (c =? star) = false).
    { cbn [star_free forallb] in Hbody. apply andb_true_iff in Hbody as [Hc _].
      apply negb_true_iff in Hc. exact Hc. }
    rewrite <- (add_part_italic _ c body Hc).
    rewrite <- (runs_after_span p pre (lit "*" ++ (c :: body) ++ lit "*") post Hpre).
    + rewrite <- !app_assoc. reflexivity.
    + discriminate.
    + rewrite <- !app_assoc. apply italic_match; assumption.
Qed.

Lemma marked_span_is_one_styled_run_witness :
  let p := new_paragraph None in
  _add_formatted_runs p
    (lit "Risk: " ++ lit "**" ++ lit "high" ++ lit "**" ++ lit " in *Q3*") =
    _add_formatted_runs
      (add_run (add_run p (plain_run (lit "Risk: "))) (bold_run (lit "high")))
      (lit " in *Q3*")
  /\ _add_formatted_runs p
       (lit "Risk: " ++ lit "*" ++ lit "high" ++ lit "*" ++ lit " in *Q3*") =
       _add_formatted_runs
         (add_run (add_run p (plain_run (lit "Risk: "))) (italic_run (lit "high")))
         (lit " in *Q3*").
Proof.
  intros p.
  destruct (marked_span_is_one_styled_run p (lit "Risk: ") (lit "high")
              (lit " in *Q3*") eq_refl eq_refl eq_refl)
    as [Hbold Hitalic].
  split; [exact Hbold|]. apply Hitalic. discriminate.
Defined.


(** ** Lines of markdown: [_md_lines_to_docx] *)


Lemma split_on_not_nil (sep : char) (s : str) : split_on sep s <> [].
Proof.
  induction s as [|c s IH]; cbn [split_on]; [discriminate|].
  destruct (c =? sep); [discriminate|].
  destruct (split_on sep s); [contradiction|discriminate].
Qed.

Lemma split_on_app (sep : char) (a b : str) :
  split_on sep (a ++ sep :: b) = split_on sep a ++ split_on sep b.
Proof.
  induction a as [|c a IH]; cbn [app split_on].
  - rewrite N.eqb_refl. reflexivity.
  - destruct (c =? sep); [rewrite IH; reflexivity|].
    rewrite IH. pose proof (split_on_not_nil sep a) as Hne.
    destruct (split_on sep a) as [|piece pieces]; [contradiction|reflexivity].
Qed.

(** X4. [_md_lines_to_docx] renders a text line by line: the empty text
    leaves the document as it is, and a text [a], a line break and a text
    [b] render as [a] and then, on the document that gives, [b]. *)
Theorem md_text_renders_line_by_line (doc : document) (a b : str) :
  _md_lines_to_docx doc [] = doc
  /\ _md_lines_to_docx doc (a ++ newline :: b) =
       _md_lines_to_docx (_md_lines_to_docx doc a) b.
Proof.
  split; [reflexivity|].
  unfold _md_lines_to_docx. rewrite split_on_app. apply fold_left_app.
Qed.

Lemma startswith_truthy (p s : str) :
  p <> [] -> startswith p s = true -> truthy s = true.
Proof.
  intros Hp H. destruct p; [contradiction|]. destruct s; [discriminate|reflexivity].
Qed.

Lemma elements_count (line : str) :
  length (elements (classify line)) =
    if truthy (strip line) then 1%nat else 0%nat.
Proof.
  unfold classify, prefix_rules. cbn [first_rule].
  repeat match goal with
  | |- context [startswith ?p (strip line)] =>
      destruct (startswith p (strip line)) eqn:?H;
        [rewrite (startswith_truthy p (strip line)) by (discriminate || assumption);
         reflexivity|]
  end.
  destruct (truthy (strip line)); reflexivity.
Qed.

(** X5. [_md_lines_to_docx] adds exactly one element for every line that is
    not blank after trimming, and none for a blank line: no line is
    dropped and none makes two elements. *)
Theorem one_block_per_nonblank_line (doc : document) (text : str) :
  length (doc_blocks (_md_lines_to_docx doc text)) =
    (length (doc_blocks doc)
     + length (List.filter (fun line => truthy (strip line))
                 (split_on newline text)))%nat.
Proof.
  rewrite md_lines_blocks, length_app. f_equal.
  induction (split_on newline text) as [|line lines IH]; [reflexivity|].
  cbn [flat_map List.filter]. rewrite length_app, elements_count, IH.
  destruct (truthy (strip line)); reflexivity.
Qed.

Lemma lstrip_head (s : str) (c : char) (rest : str) :
  lstrip s = c :: rest -> is_space c = false.
Proof.
  induction s as [|a s IH]; cbn [lstrip]; [discriminate|].
  destruct (is_space a) eqn:Ha; [exact IH|].
  intros H. injection H as <- _. exact Ha.
Qed.

Lemma strip_last (s front : str) (c : char) :
  strip s = front ++ [c] -> is_space c = false.
Proof.
  unfold strip, rstrip. intros H.
  apply (f_equal (@rev N)) in H.
  rewrite rev_involutive, rev_app_distr in H. cbn [rev app] in H.
  exact (lstrip_head _ _ _ H).
Qed.

Lemma heading_rest (p s : list N) :
  startswith (p ++ [space]) (strip s) = true ->
  strip s = p ++ space :: skipn (length (p ++ [space])) (strip s)
  /\ skipn (length (p ++ [space])) (strip s) <> [].
Proof.
  intros H. destruct (startswith_app _ _ H) as [rest Hrest].
  unfold char, str in *.
  assert (Hskip : skipn (length (p ++ [space])) (strip s) = rest)
    by (rewrite Hrest; apply drop_app_length).
  rewrite Hskip. split.
  - rewrite Hrest, <- app_assoc. reflexivity.
  - intros ->. rewrite app_nil_r in Hrest.
    apply strip_last in Hrest. discriminate.
Qed.

(** X6. A heading of the document that [_md_lines_to_docx] did not find
    there has a level from 1 to 3 and a text that is not empty, and it
    comes from a line of the text that reads, trimmed, as [level] hash
    signs, a space and the text of the heading. *)
Theorem headings_come_from_marked_lines (doc : document) (text : str)
    (level : nat) (t : str) :
  In (Heading level t) (doc_blocks (_md_lines_to_docx doc text)) ->
  In (Heading level t) (doc_blocks doc)
  \/ ((1 <= level <= 3)%nat /\ t <> []
      /\ exists line,
           In line (split_on newline text)
           /\ strip line = repeat hash level ++ space :: t).
Proof.
  rewrite md_lines_blocks. intros Hin.
  apply in_app_or in Hin as [Hin|Hin]; [left; exact Hin|right].
  apply in_flat_map in Hin as (line & Hline & Hin).
  unfold classify, prefix_rules in Hin. cbn [first_rule] in Hin.
  destruct (startswith (lit "### ") (strip line)) eqn:H3.
  { destruct Hin as [Heq|[]]. injection Heq as <- <-.
    destruct (heading_rest (repeat hash 3) line H3) as [Hs Hne].
    split; [lia|]. split; [exact Hne|]. exists line. split; [exact Hline|exact Hs]. }
  destruct (startswith (lit "## ") (strip line)) eqn:H2.
  { destruct Hin as [Heq|[]]. injection Heq as <- <-.
    destruct (heading_rest (repeat hash 2) line H2) as [Hs Hne].
    split; [lia|]. split; [exact Hne|]. exists line. split; [exact Hline|exact Hs]. }
  destruct (startswith (lit "# ") (strip line)) eqn:H1.
  { destruct Hin as [Heq|[]]. injection Heq as <- <-.
    destruct (heading_rest (repeat hash 1) line H1) as [Hs Hne].
    split; [lia|]. split; [exact Hne|]. exists line. split; [exact Hline|exact Hs]. }
  destruct (startswith (lit "- ") (strip line));
    [destruct Hin as [Heq|[]]; discriminate|].
  destruct (startswith (lit "* ") (strip line));
    [destruct Hin as [Heq|[]]; discriminate|].
  destruct (truthy (strip line)); [destruct Hin as [Heq|[]]; discriminate|].
  destruct Hin.
Qed.

Lemma headings_come_from_marked_lines_witness :
  let text := lit "## Market" ++ newline :: lit "Sweden first." in
  In (Heading 2 (lit "Market")) (doc_blocks new_document)
  \/ ((1 <= 2 <= 3)%nat /\ lit "Market" <> []
      /\ exists line,
           In line (split_on newline text)
           /\ strip line = repeat hash 2 ++ space :: lit "Market").
Proof.
  intros text.
  apply (headings_come_from_marked_lines new_document text 2 (lit "Market")).
  left. reflexivity.
Defined.


(** ** The document and the notices of [save_all] *)


Lemma file_at_docx (base : list file) (d : str) (md meta docx : list chunk) :
  file_at (base ++ [mk_file (md_path_of d) md true;
                    mk_file (meta_path_of d) meta true]
                ++ [mk_file (docx_path_of d) docx true])
          (docx_path_of d) = Some docx.
Proof.
  rewrite app_assoc, file_at_snoc. cbn [f_path f_content].
  rewrite bool_decide_eq_true_2 by reflexivity. reflexivity.
Qed.

(** X7. When the markdown and the metadata file can be written, [save_all]
    returns and has printed its five notices in this order: the markdown
    path, the metadata path, the notice of the document output, the log
    path, and the directory; the output stream is the one it found. When
    nothing fails in the document output, its notice is the path of the
    document, the file at that path holds the composed document, dated by
    the third reading of the clock, and three files were created. *)
Theorem save_all_reports_in_order (result : result) (config : Config)
    (output_dir : str) (elapsed : float) (w : world) :
  writable (w_files w) (w_stdout w) = true ->
  md_path_of output_dir ∉ w_readonly w ->
  meta_path_of output_dir ∉ w_readonly w ->
  exists w',
    save_all result config output_dir elapsed w = (Ret tt, w')
    /\ w_console w' = w_console w ++ flat_map printed (notices w output_dir)
    /\ w_stdout w' = w_stdout w
    /\ (docx_failure w output_dir = None ->
        docx_notice w output_dir = lit "DOCX:     " ++ docx_path_of output_dir
        /\ file_at (w_files w') (docx_path_of output_dir) =
             Some [DocxPackage
                     (compose result config
                        (strftime_B_d_Y (w_clock w (S (S (w_ticks w))))))]
        /\ length (w_files w') = (length (w_files w) + 3)%nat).
Proof.
  intros Hw Hmd Hmeta.
  destruct (save_all_runs result config output_dir elapsed w Hw Hmd Hmeta)
    as (w' & base' & Hrun & Henv & Hkept & Hfiles & Hcons).
  exists w'. split; [exact Hrun|]. split; [|split].
  - rewrite Hcons. unfold notices. cbn [flat_map].
    rewrite app_nil_r. reflexivity.
  - apply Henv.
  - intros Hok. unfold docx_notice, docx_files in *. rewrite Hok in *.
    split; [reflexivity|]. split.
    + rewrite Hfiles. apply file_at_docx.
    + rewrite Hfiles, !length_app, <- (Forall2_length _ _ _ Hkept). cbn. lia.
Qed.

Lemma save_all_reports_in_order_witness :
  let w := Examples.fresh [] in
  let d := Examples.out_dir in
  exists w',
    save_all Examples.report Examples.config d 12.34 w = (Ret tt, w')
    /\ w_console w' = w_console w ++ flat_map printed (notices w d)
    /\ w_stdout w' = w_stdout w
    /\ docx_notice w d = lit "DOCX:     " ++ docx_path_of d
    /\ file_at (w_files w') (docx_path_of d) =
         Some [DocxPackage
                 (compose Examples.report Examples.config
                    (strftime_B_d_Y (w_clock w (S (S (w_ticks w))))))]
    /\ length (w_files w') = (length (w_files w) + 3)%nat.
Proof.
  intros w d.
  destruct (save_all_reports_in_order Examples.report Examples.config d 12.34 w)
    as (w' & Hrun & Hcons & Hout & Hdocx).
  - reflexivity.
  - apply not_elem_of_nil.
  - apply not_elem_of_nil.
  - exists w'. split; [exact Hrun|]. split; [exact Hcons|].
    split; [exact Hout|]. apply Hdocx. reflexivity.
Defined.


Lemma render_line_keeps_setup (doc : document) (line : str) :
  doc_margins (render_line doc line) = doc_margins doc
  /\ doc_font (render_line doc line) = doc_font doc.
Proof.
  rewrite render_line_classify.
  destruct (elements (classify line)) as [|b [|b' bs]] eqn:He.
  - split; reflexivity.
  - split; reflexivity.
  - exfalso. pose proof (elements_count line) as Hc. rewrite He in Hc.
    destruct (truthy (strip line)); discriminate.
Qed.

Lemma md_lines_keep_setup (doc : document) (text : str) :
  doc_margins (_md_lines_to_docx doc text) = doc_margins doc
  /\ doc_font (_md_lines_to_docx doc text) = doc_font doc.
Proof.
  unfold _md_lines_to_docx. revert doc.
  induction (split_on newline text) as [|line lines IH]; intros doc.
  - split; reflexivity.
  - cbn [fold_left]. destruct (IH (render_line doc line)) as [-> ->].
    apply render_line_keeps_setup.
Qed.

Lemma section_has_no_page_break (text : str) :
  List.filter is_page_break (section_blocks text) = [].
Proof.
  unfold section_blocks. destruct (truthy text); [|reflexivity].
  induction (split_on newline text) as [|line lines IH]; [reflexivity|].
  cbn [flat_map]. rewrite List.filter_app, IH, app_nil_r.
  destruct (classify line); reflexivity.
Qed.

(** X8. The document [save_all] composes is laid out as: the five centred
    lines of the cover page, a page break, the elements of the
    recommendation, a page break, the elements of the action plan. It has
    exactly these two page breaks, whatever the two texts hold, and its
    margins of 2.5 cm and its Calibri 11 pt font are as set before the
    texts were rendered. *)
Theorem document_layout (result : result) (config : Config) (date : str) :
  let doc := compose result config date in
  let cover := doc_blocks (cover_page config date) in
  doc_blocks doc =
    cover ++ [PageBreak]
    ++ section_blocks (get result (lit "recommendation")) ++ [PageBreak]
    ++ section_blocks (get result (lit "action_plan"))
  /\ length cover = 5%nat
  /\ forallb centred_line cover = true
  /\ length (List.filter is_page_break (doc_blocks doc)) = 2%nat
  /\ doc_margins doc = Some (Cm_mm 25, Cm_mm 25, Cm_mm 25, Cm_mm 25)
  /\ doc_font doc = Some (lit "Calibri", Pt 11).
Proof.
  intros doc cover. split; [apply compose_blocks|].
  split; [reflexivity|]. split; [reflexivity|]. split.
  - unfold doc. rewrite compose_blocks, !List.filter_app,
      !section_has_no_page_break.
    reflexivity.
  - unfold doc, compose. cbn zeta.
    destruct (truthy (get result (lit "recommendation")));
      destruct (truthy (get result (lit "action_plan")));
      unfold add_page_break, add_block;
      cbn [doc_margins doc_font];
      repeat match goal with
      | |- context [doc_margins (_md_lines_to_docx ?d ?t)] =>
          rewrite (proj1 (md_lines_keep_setup d t))
      | |- context [doc_font (_md_lines_to_docx ?d ?t)] =>
          rewrite (proj2 (md_lines_keep_setup d t))
      | _ => progress cbn [doc_margins doc_font]
      end; split; reflexivity.
Qed.


Lemma save_all_without_markdown (result : result) (config : Config)
    (d : str) (elapsed : float) (w : world) :
  md_path_of d ∈ w_readonly w ->
  save_all result config d elapsed w = (Raise (mk_exn OSError (md_path_of d)), w).
Proof.
  intros Hro. unfold save_all, save_markdown, with_open. fold (md_path_of d).
  unfold bind, open_w. rewrite bool_decide_eq_true_2 by exact Hro. reflexivity.
Qed.

Lemma save_all_without_metadata (result : result) (config : Config)
    (d : str) (elapsed : float) (w : world) :
  writable (w_files w) (w_stdout w) = true ->
  md_path_of d ∉ w_readonly w ->
  meta_path_of d ∈ w_readonly w ->
  exists w',
    save_all result config d elapsed w =
      (Raise (mk_exn OSError (meta_path_of d)), w')
    /\ file_at (w_files w') (md_path_of d) =
         Some (markdown_chunks result config (isoformat (w_clock w (w_ticks w))))
    /\ w_console w' = w_console w ++ printed (lit "Markdown: " ++ md_path_of d)
    /\ length (w_files w') = S (length (w_files w)).
Proof.
  intros Hw Hmd Hro.
  destruct (save_markdown_runs result config (md_path_of d) w
              (w_files w) [] (eq_sym (app_nil_r _)) Hw Hmd)
    as (w1 & base1 & Hrun1 & Henv1 & _ & Hcons1 & Hkept1 & Hfiles1).
  cbn [app] in Hfiles1.
  assert (Hro1 : meta_path_of d ∈ w_readonly w1).
  { destruct Henv1 as (_ & _ & _ & _ & _ & _ & Hro' & _). rewrite Hro'. exact Hro. }
  exists w1. split; [|split; [|split; [exact Hcons1|]]].
  - unfold save_all. fold (md_path_of d).
    rewrite (bind_run _ _ _ _ _ Hrun1).
    unfold save_meta, with_open. fold (meta_path_of d).
    unfold bind, open_w. rewrite bool_decide_eq_true_2 by exact Hro1.
    reflexivity.
  - rewrite Hfiles1, file_at_snoc. cbn [f_path f_content].
    rewrite bool_decide_eq_true_2 by reflexivity. reflexivity.
  - rewrite Hfiles1, length_app, <- (Forall2_length _ _ _ Hkept1). cbn. lia.
Qed.


(** X9. A failure of the markdown or of the metadata output is not
    contained as one of the document output is: when the markdown file
    cannot be opened, [save_all] raises that error and has done nothing;
    when the metadata file cannot be opened, it raises that error after
    the markdown file was written and announced, and goes no further: no
    other file is created. *)
Theorem report_failure_is_not_contained (result : result) (config : Config)
    (output_dir : str) (elapsed : float) (w : world) :
  writable (w_files w) (w_stdout w) = true ->
  (md_path_of output_dir ∈ w_readonly w ->
   exists e,
     save_all result config output_dir elapsed w = (Raise e, w)
     /\ class_of e = OSError)
  /\ (md_path_of output_dir ∉ w_readonly w ->
      meta_path_of output_dir ∈ w_readonly w ->
      exists e w',
        save_all result config output_dir elapsed w = (Raise e, w')
        /\ class_of e = OSError
        /\ file_at (w_files w') (md_path_of output_dir) =
             Some (markdown_chunks result config
                     (isoformat (w_clock w (w_ticks w))))
        /\ w_console w' =
             w_console w ++ printed (lit "Markdown: " ++ md_path_of output_dir)
        /\ length (w_files w') = S (length (w_files w))).
Proof.
  intros Hw. split.
  - intros Hro. exists (mk_exn OSError (md_path_of output_dir)).
    split; [|reflexivity]. apply save_all_without_markdown. exact Hro.
  - intros Hmd Hro.
    destruct (save_all_without_metadata result config output_dir elapsed w
                Hw Hmd Hro)
      as (w' & Hrun & Hfile & Hcons & Hlen).
    exists (mk_exn OSError (meta_path_of output_dir)), w'. auto.
Qed.

Lemma report_failure_is_not_contained_witness :
  let d := Examples.out_dir in
  let no_md := Examples.process [] [md_path_of d] Examples.backend_ok in
  let no_meta := Examples.process [] [meta_path_of d] Examples.backend_ok in
  (exists e,
     save_all Examples.report Examples.config d 12.34 no_md = (Raise e, no_md)
     /\ class_of e = OSError)
  /\ (exists e w',
        save_all Examples.report Examples.config d 12.34 no_meta = (Raise e, w')
        /\ class_of e = OSError
        /\ file_at (w_files w') (md_path_of d) =
             Some (markdown_chunks Examples.report Examples.config
                     (isoformat (w_clock no_meta (w_ticks no_meta))))
        /\ w_console w' =
             w_console no_meta ++ printed (lit "Markdown: " ++ md_path_of d)
        /\ length (w_files w') = S (length (w_files no_meta))).
Proof.
  intros d no_md no_meta. split.
  - apply (report_failure_is_not_contained Examples.report Examples.config d
             12.34 no_md); [reflexivity|]. left.
  - apply (report_failure_is_not_contained Examples.report Examples.config d
             12.34 no_meta); [reflexivity| |left].
    apply not_elem_of_cons. split; [|apply not_elem_of_nil].
    intros H. exact (md_path_not_meta d (eq_sym H)).
Defined.


(** ** The log tee: [start_log], [stop_log] and [_TeeWriter] *)


(** A write through a tee whose log is the file after [base]. *)
Lemma tee_write_runs (o : stream) (s : str) (w : world) (base rest : list file)
    (p : str) (c : list chunk) :
  w_files w = base ++ mk_file p c false :: rest ->
  writable base o = true ->
  exists base',
    stream_write (TeeWriter (length base) o) s w =
      (Ret tt,
       set_files (base' ++ mk_file p (c ++ [Chars s]) false :: rest)
         (set_console (w_console w ++ [s]) w))
    /\ Forall2 kept base base'.
Proof.
  intros Hfiles Ho.
  destruct (stream_write_runs o s w base _ Hfiles Ho) as (base' & Hrun & Hkept).
  exists base'. split; [|exact Hkept].
  cbn [stream_write]. rewrite (bind_run _ _ _ _ _ Hrun).
  unfold file_write. cbn [w_files set_files set_console].
  rewrite (Forall2_length _ _ _ Hkept).
  rewrite list_lookup_middle by reflexivity. cbn [f_closed f_path f_content].
  rewrite insert_app_r_alt, Nat.sub_diag by lia. reflexivity.
Qed.

Lemma tee_print_runs (o : stream) (s : str) (w : world) (base rest : list file)
    (p : str) (c : list chunk) :
  w_stdout w = TeeWriter (length base) o ->
  w_files w = base ++ mk_file p c false :: rest ->
  writable base o = true ->
  exists base',
    print s w =
      (Ret tt,
       set_files
         (base' ++ mk_file p (c ++ List.map Chars (printed s)) false :: rest)
         (set_console (w_console w ++ printed s) w))
    /\ Forall2 kept base base'.
Proof.
  intros Hout Hfiles Ho.
  destruct (tee_write_runs o s w base rest p c Hfiles Ho)
    as (base1 & Hrun1 & Hkept1).
  match type of Hrun1 with _ = (_, ?W) => set (w1 := W) in * end.
  destruct (tee_write_runs o [newline] w1 base1 rest p (c ++ [Chars s]) eq_refl)
    as (base2 & Hrun2 & Hkept2).
  { rewrite (writable_kept base base1 _ Hkept1). exact Ho. }
  exists base2. split; [|eapply kept_trans; eassumption].
  unfold print, bind at 1, gets. rewrite Hout.
  rewrite (bind_run _ _ _ _ _ Hrun1).
  rewrite (Forall2_length _ _ _ Hkept1), Hrun2.
  unfold printed. cbn [List.map w1 w_console set_console set_files].
  rewrite <- !app_assoc. reflexivity.
Qed.

Lemma tee_prints_run (o : stream) (p : str) (texts : list str) :
  forall (w : world) (base : list file) (c : list chunk),
    w_stdout w = TeeWriter (length base) o ->
    w_files w = base ++ [mk_file p c false] ->
    writable base o = true ->
    exists w' base',
      prints texts w = (Ret tt, w')
      /\ same_env w w'
      /\ w_console w' = w_console w ++ flat_map printed texts
      /\ Forall2 kept base base'
      /\ w_files w' =
           base' ++ [mk_file p (c ++ List.map Chars (flat_map printed texts)) false].
Proof.
  unfold prints.
  induction texts as [|s texts IH]; intros w base c Hout Hfiles Ho.
  - exists w, base. cbn [for_in flat_map List.map]. rewrite !app_nil_r.
    split; [reflexivity|]. split; [apply same_env_refl|].
    split; [reflexivity|]. split; [apply kept_refl|exact Hfiles].
  - destruct (tee_print_runs o s w base [] p c Hout Hfiles Ho)
      as (base1 & Hrun1 & Hkept1).
    match type of Hrun1 with _ = (_, ?W) => set (w1 := W) in * end.
    destruct (IH w1 base1 (c ++ List.map Chars (printed s)))
      as (w' & base' & Hrun & Henv & Hcons & Hkept & Hfiles').
    { cbn [w1 w_stdout set_files set_console]. rewrite Hout.
      rewrite (Forall2_length _ _ _ Hkept1). reflexivity. }
    { reflexivity. }
    { rewrite (writable_kept base base1 _ Hkept1). exact Ho. }
    exists w', base'. cbn [for_in]. rewrite (bind_run _ _ _ _ _ Hrun1).
    split; [exact Hrun|].
    split; [eapply same_env_trans; [|exact Henv]; repeat split|].
    split; [|split; [eapply kept_trans; eassumption|]].
    + rewrite Hcons. cbn [w1 w_console set_console set_files flat_map].
      rewrite <- app_assoc. reflexivity.
    + rewrite Hfiles'. cbn [flat_map]. rewrite List.map_app, <- app_assoc.
      reflexivity.
Qed.

(** X10. Between a [start_log] that succeeded and the [stop_log] after it,
    every write to the output stream reaches both the stream that was
    there before, once, and the log: after [stop_log], the closed log file
    holds exactly what was printed in between, in the order it was
    printed, and the console has received the same. *)
Theorem log_holds_what_was_printed (output_dir : str) (texts : list str)
    (w : world) :
  let log_path := path_join output_dir (lit "log.txt") in
  log_path ∉ w_readonly w ->
  writable (w_files w) (w_stdout w) = true ->
  exists w1 w2 w3,
    start_log output_dir w = (Ret tt, w1)
    /\ prints texts w1 = (Ret tt, w2)
    /\ stop_log w2 = (Ret tt, w3)
    /\ w_console w3 = w_console w ++ flat_map printed texts
    /\ w_files w3 !! length (w_files w) =
         Some (mk_file log_path (List.map Chars (flat_map printed texts)) true).
Proof.
  intros log_path Hfree Hw.
  pose proof (start_log_runs output_dir w Hfree) as Hstart.
  fold log_path in Hstart.
  match type of Hstart with _ = (_, ?W) => set (w1 := W) in * end.
  destruct (tee_prints_run (w_stdout w) log_path texts w1 (w_files w) [])
    as (w2 & base2 & Hrun2 & Henv2 & Hcons2 & Hkept2 & Hfiles2);
    [reflexivity|reflexivity|exact Hw|].
  cbn [app] in Hfiles2.
  pose proof (Forall2_length _ _ _ Hkept2) as Hlen.
  destruct Henv2 as (_ & _ & _ & Htee2 & Horig2 & _).
  cbn [w_tee w_orig_stdout set_stdout set_tee set_files set_orig_stdout
       set_trace w1] in Htee2, Horig2.
  rewrite Hlen in Htee2.
  pose proof (stop_log_paired w2 base2 (w_stdout w) log_path _ Htee2 Hfiles2)
    as Hstop.
  exists w1, w2. eexists. split; [exact Hstart|]. split; [exact Hrun2|].
  split; [exact Hstop|]. split; [exact Hcons2|].
  cbn [w_files set_files set_orig_stdout set_tee]. rewrite Hlen.
  apply list_lookup_middle. reflexivity.
Qed.

Lemma log_holds_what_was_printed_witness :
  let w := Examples.fresh [] in
  let texts := [lit "Output"; lit "Done"] in
  exists w1 w2 w3,
    start_log Examples.out_dir w = (Ret tt, w1)
    /\ prints texts w1 = (Ret tt, w2)
    /\ stop_log w2 = (Ret tt, w3)
    /\ w_console w3 = w_console w ++ flat_map printed texts
    /\ w_files w3 !! length (w_files w) =
         Some (mk_file (path_join Examples.out_dir (lit "log.txt"))
                 (List.map Chars (flat_map printed texts)) true).
Proof.
  intros w texts.
  apply (log_holds_what_was_printed Examples.out_dir texts w).
  - apply not_elem_of_nil.
  - reflexivity.
Defined.

(** X11. [start_log] is not re-entrant. After two calls of [start_log] and
    two calls of [stop_log], the output stream is not the one found at
    first but the tee of the first log, whose file is still open: the
    second [start_log] has overwritten the stream to restore, the first
    [stop_log] closes the second log only, and the second [stop_log]
    finds nothing to do. *)
Theorem nested_logs_are_not_unwound (d1 d2 : str) (w : world) :
  path_join d1 (lit "log.txt") ∉ w_readonly w ->
  path_join d2 (lit "log.txt") ∉ w_readonly w ->
  let h := length (w_files w) in
  exists w',
    (start_log d1 ;; start_log d2 ;; stop_log ;; stop_log) w = (Ret tt, w')
    /\ w_stdout w' = TeeWriter h (w_stdout w)
    /\ w_tee w' = None
    /\ w_orig_stdout w' = PyNone
    /\ is_open (w_files w') h = true
    /\ is_open (w_files w') (S h) = false.
Proof.
  intros H1 H2 h.
  pose proof (start_log_runs d1 w H1) as Hs1.
  match type of Hs1 with _ = (_, ?W) => set (w1 := W) in * end.
  pose proof (start_log_runs d2 w1 H2) as Hs2.
  match type of Hs2 with _ = (_, ?W) => set (w2 := W) in * end.
  pose proof (stop_log_paired w2 (w_files w1) (w_stdout w1)
                (path_join d2 (lit "log.txt")) [] eq_refl eq_refl) as Hs3.
  match type of Hs3 with _ = (_, ?W) => set (w3 := W) in * end.
  pose proof (stop_log_unpaired w3 eq_refl) as Hs4.
  eexists. split.
  - rewrite (bind_run _ _ _ _ _ Hs1), (bind_run _ _ _ _ _ Hs2),
      (bind_run _ _ _ _ _ Hs3). exact Hs4.
  - cbn [w_stdout w_tee w_orig_stdout w_files set_trace set_stdout set_tee
         set_files set_orig_stdout w3 w2 w1].
    split; [reflexivity|]. split; [reflexivity|]. split; [reflexivity|].
    unfold is_open, h. split.
    + rewrite lookup_app_l by (rewrite length_app; cbn; lia).
      rewrite list_lookup_middle by reflexivity. reflexivity.
    + rewrite list_lookup_middle by (rewrite length_app; cbn; lia). reflexivity.
Qed.

Lemma nested_logs_are_not_unwound_witness :
  let w := Examples.fresh [] in
  exists w',
    (start_log (lit "a") ;; start_log (lit "b") ;; stop_log ;; stop_log) w
      = (Ret tt, w')
    /\ w_stdout w' = TeeWriter 0 Console
    /\ w_tee w' = None
    /\ w_orig_stdout w' = PyNone
    /\ is_open (w_files w') 0 = true
    /\ is_open (w_files w') 1 = false.
Proof.
  intros w.
  apply (nested_logs_are_not_unwound (lit "a") (lit "b") w);
    apply not_elem_of_nil.
Defined.


(** ** The calls of [run] to the operator and to the engine *)


Lemma run_body_finish (fuel : nat) (mba : MbaModule) (agent : Agent)
    (config : Config) (output_dir : str) :
  run_body fuel mba agent config output_dir =
    (t0 <- time_time ;;
     result <- invoke agent (Start (INPUT_QUERY mba)) ;;
     vars <- interrupt_loop fuel agent (O, result) ;;
     finish config output_dir t0 (snd vars)).
Proof. reflexivity. Qed.

Lemma gate_trace (agent : Agent) (intr : interrupt) (vars : nat * result)
    (w : world) :
  exists new,
    w_trace (snd (gate agent intr vars w)) = w_trace w ++ new
    /\ (new = banner (S (fst vars)) intr
        \/ exists line raised,
             new = banner (S (fst vars)) intr
                   ++ [EvInput prompt line;
                       EvInvoke (Resume (feedback_of line)) raised]).
Proof.
  unfold gate, bind, input, invoke. run_step.
  destruct (w_stdin w) as [|line rest]; run_step.
  - exists (banner (S (fst vars)) intr). split; [|left; reflexivity].
    rewrite <- !app_assoc. reflexivity.
  - destruct (agent_invoke agent _) as [r|e]; run_step.
    + exists (banner (S (fst vars)) intr
              ++ [EvInput prompt line; EvInvoke (Resume (feedback_of line)) None]).
      split; [rewrite <- !app_assoc; reflexivity|].
      right. exists line, None. reflexivity.
    + exists (banner (S (fst vars)) intr
              ++ [EvInput prompt line;
                  EvInvoke (Resume (feedback_of line)) (Some e)]).
      split; [rewrite <- !app_assoc; reflexivity|].
      right. exists line, (Some e). reflexivity.
Qed.


Section Sequencing.
Context {A B : Type}.
Variables P Q R : list event -> Prop.
Hypothesis R_left : forall a, P a -> R a.
Hypothesis R_both : forall a b, P a -> Q b -> R (a ++ b).

Lemma emits_bind (m : M A) (k : A -> M B) :
  traces m (fun _ => P) -> (forall a, traces (k a) (fun _ => Q)) ->
  traces (bind m k) (fun _ => R).
Proof.
  intros Hm Hk w. unfold bind. destruct (Hm w) as (new1 & Htrace1 & Hnew1).
  destruct (m w) as [[a|e|] w1]; cbn [fst snd] in *.
  - destruct (Hk a w1) as (new2 & Htrace2 & Hnew2).
    exists (new1 ++ new2). rewrite Htrace2, Htrace1, app_assoc. auto.
  - exists new1. auto.
  - exists new1. auto.
Qed.

Lemma emits_try_finally (body : M A) (final : M unit) :
  traces body (fun _ => P) -> traces final (fun _ => Q) ->
  traces (try_finally body final) (fun _ => R).
Proof.
  intros Hb Hf w. unfold try_finally.
  destruct (Hb w) as (new1 & Htrace1 & Hnew1).
  destruct (body w) as [[a|e|] w1]; cbn [fst snd] in *.
  - destruct (Hf w1) as (new2 & Htrace2 & Hnew2).
    exists (new1 ++ new2).
    destruct (final w1) as [[[]|e'|] w2]; cbn [fst snd] in *;
      rewrite Htrace2, Htrace1, app_assoc; auto.
  - destruct (Hf w1) as (new2 & Htrace2 & Hnew2).
    exists (new1 ++ new2).
    destruct (final w1) as [[[]|e'|] w2]; cbn [fst snd] in *;
      rewrite Htrace2, Htrace1, app_assoc; auto.
  - exists new1. auto.
Qed.

End Sequencing.

Lemma each_silent (P : list event -> Prop) {A : Type} (m : M A) :
  monoidal P -> silent m -> traces m (fun _ => P).
Proof.
  intros HP Hm w. destruct (Hm w) as [Htrace _]. exists [].
  rewrite app_nil_r. split; [exact Htrace|apply HP].
Qed.

Lemma each_bind (P : list event -> Prop) {A B : Type} (m : M A) (k : A -> M B) :
  monoidal P ->
  traces m (fun _ => P) -> (forall a, traces (k a) (fun _ => P)) ->
  traces (bind m k) (fun _ => P).
Proof. intros HP. apply emits_bind; [auto|apply HP]. Qed.

Lemma each_try_finally (P : list event -> Prop) {A : Type} (body : M A)
    (final : M unit) :
  monoidal P ->
  traces body (fun _ => P) -> traces final (fun _ => P) ->
  traces (try_finally body final) (fun _ => P).
Proof. intros HP. apply emits_try_finally; [auto|apply HP]. Qed.

Lemma each_for_in (P : list event -> Prop) {X S : Type} (l : list X)
    (body : X -> S -> M S) :
  monoidal P ->
  (forall x s, traces (body x s) (fun _ => P)) ->
  forall s, traces (for_in l body s) (fun _ => P).
Proof.
  intros HP Hbody. induction l as [|x l IH]; intros s; cbn [for_in].
  - apply each_silent; [exact HP|apply silent_ret].
  - apply each_bind; [exact HP|apply Hbody|exact IH].
Qed.

Lemma each_emit (P : list event -> Prop) (ev : event) :
  P [ev] -> traces (emit ev) (fun _ => P).
Proof. intros Hev w. exists [ev]. split; [reflexivity|exact Hev]. Qed.

Lemma each_get_state (P : list event -> Prop) (agent : Agent) :
  P [EvGetState] -> traces (get_state agent) (fun _ => P).
Proof.
  intros Hq w. unfold get_state. exists [EvGetState].
  destruct (agent_get_state agent _); (split; [reflexivity|exact Hq]).
Qed.

Lemma each_interrupt_loop (P : list event -> Prop) (agent : Agent) (fuel : nat) :
  monoidal P -> P [EvGetState] ->
  (forall intr vars, traces (gate agent intr vars) (fun _ => P)) ->
  forall vars, traces (interrupt_loop fuel agent vars) (fun _ => P).
Proof.
  intros HP Hq Hgate.
  induction fuel as [|fuel IH]; intros vars; cbn [interrupt_loop].
  - intros w. exists []. rewrite app_nil_r. split; [reflexivity|apply HP].
  - apply each_bind; [exact HP|apply each_get_state; exact Hq|]. intros snap.
    destruct (next snap).
    + apply each_silent; [exact HP|apply silent_ret].
    + apply each_bind; [exact HP| |exact IH].
      unfold snapshot_gates. apply each_for_in; [exact HP|]. intros t vars1.
      unfold task_gates. destruct (interrupts t) as [intrs|].
      * apply each_for_in; [exact HP|]. intros intr vars2. apply Hgate.
      * apply each_silent; [exact HP|apply silent_ret].
Qed.

Lemma each_finish (P : list event -> Prop) (config : Config) (output_dir : str)
    (t0 : float) (result : result) :
  monoidal P -> (forall d, P [EvDisplay d]) ->
  traces (finish config output_dir t0 result) (fun _ => P).
Proof.
  intros HP Hd. unfold finish.
  apply each_bind; [exact HP|apply each_silent; [exact HP|apply silent_time_time]|].
  intros t1. cbn zeta.
  apply each_bind; [exact HP|apply each_silent; [exact HP|apply silent_save_all]|].
  intros _.
  apply each_bind; [exact HP|apply each_silent; [exact HP|apply silent_gets]|].
  intros mounted.
  apply each_bind; [exact HP| |].
  { apply each_silent; [exact HP|]. destruct mounted; silence. }
  intros _. unfold display.
  repeat (apply each_bind; [exact HP|apply each_emit; apply Hd|intros _]).
  apply each_bind; [exact HP|apply each_silent; [exact HP|apply silent_print]|].
  intros _. apply each_silent; [exact HP|apply silent_ret].
Qed.



Lemma replies_resumed_app (a b : list event) :
  replies_resumed a = true -> replies_resumed b = true ->
  replies_resumed (a ++ b) = true.
Proof.
  intros Ha Hb. remember (length a) as n eqn:Hn.
  assert (Hle : (length a <= n)%nat) by lia. clear Hn.
  revert a Ha Hle. induction n as [|n IH]; intros a Ha Hle.
  - destruct a; [exact Hb|cbn in Hle; lia].
  - destruct a as [|ev a]; [exact Hb|]. cbn [length] in Hle.
    destruct ev as [[q|f] raised| |d|text line| |]; cbn [app replies_resumed] in *;
      try (apply IH; [exact Ha|lia]); try discriminate.
    destruct a as [|ev' a]; [discriminate|].
    destruct ev' as [[q|f] raised| |d|text' line'| |]; try discriminate.
    cbn [app]. apply andb_true_iff in Ha as [Hf Ha]. rewrite Hf. cbn [andb].
    apply IH; [exact Ha|cbn [length] in Hle; lia].
Qed.

Lemma gate_replies_resumed (agent : Agent) (intr : interrupt)
    (vars : nat * result) :
  traces (gate agent intr vars) (fun _ new => replies_resumed new = true).
Proof.
  intros w. destruct (gate_trace agent intr vars w)
    as (new & Htrace & [->|(line & raised & ->)]);
    eexists; (split; [exact Htrace|]).
  - reflexivity.
  - cbn [banner app replies_resumed].
    rewrite bool_decide_eq_true_2 by reflexivity. reflexivity.
Qed.

Lemma traces_start_log (P : list event -> Prop) (output_dir : str) :
  P [] -> P [EvLogStarted] -> traces (start_log output_dir) (fun _ => P).
Proof.
  intros Hnil Hstart w.
  destruct (start_log_outcome output_dir w)
    as [(e & w1 & -> & Htrace)|(w1 & -> & Htrace)].
  - exists []. rewrite app_nil_r. auto.
  - exists [EvLogStarted]. auto.
Qed.

Lemma traces_stop_log (P : list event -> Prop) :
  P [EvStopLog] -> traces stop_log (fun _ => P).
Proof.
  intros Hstop w. destruct (stop_log_returns w) as (w1 & -> & Htrace).
  exists [EvStopLog]. auto.
Qed.

Lemma traces_invoke_start (agent : Agent) (query : str) :
  traces (invoke agent (Start query))
    (fun _ new => exists raised, new = [EvInvoke (Start query) raised]).
Proof.
  intros w. unfold invoke. destruct (agent_invoke agent _) as [r|e].
  - exists [EvInvoke (Start query) None]. split; [reflexivity|]. eauto.
  - exists [EvInvoke (Start query) (Some e)]. split; [reflexivity|]. eauto.
Qed.

Lemma traces_weaken {A : Type} (m : M A) (P Q : list event -> Prop) :
  (forall new, P new -> Q new) ->
  traces m (fun _ => P) -> traces m (fun _ => Q).
Proof.
  intros HPQ Hm w. destruct (Hm w) as (new & Htrace & Hnew).
  exists new. auto.
Qed.

Lemma each_run (P : list event -> Prop) (fuel : nat) (mba : MbaModule)
    (config : Config) :
  monoidal P -> P [EvGetState] -> (forall d, P [EvDisplay d]) ->
  P [EvLogStarted] -> P [EvStopLog] ->
  (forall raised, P [EvInvoke (Start (INPUT_QUERY mba)) raised]) ->
  (forall agent intr vars, traces (gate agent intr vars) (fun _ => P)) ->
  traces (RunAgent.run fuel mba config) (fun _ => P).
Proof.
  intros HP Hq Hd Hstart Hstop Hinvoke Hgate.
  unfold RunAgent.run, resolve.
  apply each_bind; [exact HP|apply each_silent; [exact HP|silence]|intros agent].
  apply each_bind; [exact HP|apply each_silent; [exact HP|silence]|intros now].
  cbn zeta.
  apply each_bind; [exact HP|apply each_silent; [exact HP|silence]|intros _].
  apply each_bind; [exact HP|apply each_silent; [exact HP|silence]|intros resolved].
  apply each_bind; [exact HP|apply each_silent; [exact HP|silence]|intros _].
  apply each_bind;
    [exact HP|apply traces_start_log; [apply HP|exact Hstart]|intros _].
  apply each_try_finally; [exact HP| |apply traces_stop_log; exact Hstop].
  rewrite run_body_finish.
  apply each_bind;
    [exact HP|apply each_silent; [exact HP|apply silent_time_time]|intros t0].
  apply each_bind; [exact HP| |intros r0].
  { apply (traces_weaken _ _ P) with (2 := traces_invoke_start agent (INPUT_QUERY mba)).
    intros new [raised ->]. apply Hinvoke. }
  apply each_bind; [exact HP| |intros vars].
  - apply each_interrupt_loop; [exact HP|exact Hq|apply Hgate].
  - apply each_finish; [exact HP|exact Hd].
Qed.

Lemma replies_resumed_monoidal :
  monoidal (fun new => replies_resumed new = true).
Proof. split; [reflexivity|exact replies_resumed_app]. Qed.

Lemma run_replies_resumed (fuel : nat) (mba : MbaModule) (config : Config) :
  traces (RunAgent.run fuel mba config)
    (fun _ new => replies_resumed new = true).
Proof.
  apply (each_run (fun new => replies_resumed new = true));
    try reflexivity.
  - exact replies_resumed_monoidal.
  - intros agent intr vars. apply gate_replies_resumed.
Qed.


Lemma no_call_monoidal : monoidal no_call.
Proof.
  split; [reflexivity|]. unfold no_call. intros a b Ha Hb.
  rewrite invocations_app, Ha, Hb. reflexivity.
Qed.

Lemma only_resumes_monoidal : monoidal only_resumes.
Proof.
  split; [exists []; reflexivity|].
  intros a b [va Ha] [vb Hb]. exists (va ++ vb).
  rewrite invocations_app, Ha, Hb, List.map_app. reflexivity.
Qed.

Lemma no_call_then (query : str) (a b : list event) :
  no_call a -> starts_then_resumes query (invocations b) ->
  starts_then_resumes query (invocations (a ++ b)).
Proof. unfold no_call. intros Ha Hb. rewrite invocations_app, Ha. exact Hb. Qed.

Lemma then_no_call (query : str) (a b : list event) :
  starts_then_resumes query (invocations a) -> no_call b ->
  starts_then_resumes query (invocations (a ++ b)).
Proof.
  unfold no_call. intros Ha Hb. rewrite invocations_app, Hb, app_nil_r. exact Ha.
Qed.

Lemma gate_only_resumes (agent : Agent) (intr : interrupt) (vars : nat * result) :
  traces (gate agent intr vars) (fun _ => only_resumes).
Proof.
  intros w. destruct (gate_trace agent intr vars w)
    as (new & Htrace & [->|(line & raised & ->)]);
    eexists; (split; [exact Htrace|]).
  - exists []. reflexivity.
  - exists [feedback_of line]. reflexivity.
Qed.

Lemma run_body_calls (fuel : nat) (mba : MbaModule) (agent : Agent)
    (config : Config) (output_dir : str) :
  traces (run_body fuel mba agent config output_dir)
    (fun _ new => starts_then_resumes (INPUT_QUERY mba) (invocations new)).
Proof.
  rewrite run_body_finish.
  apply (emits_bind no_call
           (fun new => starts_then_resumes (INPUT_QUERY mba) (invocations new))).
  { intros a Ha. left. exact Ha. }
  { apply no_call_then. }
  { apply each_silent; [exact no_call_monoidal|apply silent_time_time]. }
  intros t0.
  apply (emits_bind
           (fun new => exists raised, new = [EvInvoke (Start (INPUT_QUERY mba)) raised])
           only_resumes).
  { intros a [raised ->]. right. exists []. reflexivity. }
  { intros a b [raised ->] [values Hb]. right. exists values.
    rewrite invocations_app, Hb. reflexivity. }
  { apply traces_invoke_start. }
  intros r0.
  apply each_bind; [exact only_resumes_monoidal| |intros vars].
  - apply each_interrupt_loop;
      [exact only_resumes_monoidal|exists []; reflexivity|apply gate_only_resumes].
  - apply each_finish; [exact only_resumes_monoidal|].
    intros d. exists []. reflexivity.
Qed.

Lemma run_calls (fuel : nat) (mba : MbaModule) (config : Config) :
  traces (RunAgent.run fuel mba config)
    (fun _ new => starts_then_resumes (INPUT_QUERY mba) (invocations new)).
Proof.
  set (S3 := fun new => starts_then_resumes (INPUT_QUERY mba) (invocations new)).
  assert (Hleft : forall a, no_call a -> S3 a) by (intros a Ha; left; exact Ha).
  assert (Hboth : forall a b, no_call a -> S3 b -> S3 (a ++ b))
    by (intros a b; apply no_call_then).
  unfold RunAgent.run, resolve.
  apply (emits_bind no_call S3 S3 Hleft Hboth);
    [apply each_silent; [exact no_call_monoidal|silence]|intros agent].
  apply (emits_bind no_call S3 S3 Hleft Hboth);
    [apply each_silent; [exact no_call_monoidal|silence]|intros now].
  cbn zeta.
  apply (emits_bind no_call S3 S3 Hleft Hboth);
    [apply each_silent; [exact no_call_monoidal|silence]|intros _].
  apply (emits_bind no_call S3 S3 Hleft Hboth);
    [apply each_silent; [exact no_call_monoidal|silence]|intros resolved].
  apply (emits_bind no_call S3 S3 Hleft Hboth);
    [apply each_silent; [exact no_call_monoidal|silence]|intros _].
  apply (emits_bind no_call S3 S3 Hleft Hboth);
    [apply traces_start_log; reflexivity|intros _].
  apply (emits_try_finally S3 no_call S3).
  - auto.
  - intros a b. apply then_no_call.
  - apply run_body_calls.
  - apply traces_stop_log. reflexivity.
Qed.


Lemma lstrip_fixed (s : str) :
  match s with c :: _ => is_space c = false | [] => True end ->
  lstrip s = s.
Proof. destruct s as [|c s]; [reflexivity|]. cbn [lstrip]. intros ->. reflexivity. Qed.

Lemma lstrip_lstrip (s : str) : lstrip (lstrip s) = lstrip s.
Proof.
  apply lstrip_fixed. destruct (lstrip s) as [|c r] eqn:H; [exact I|].
  exact (lstrip_head s c r H).
Qed.

Lemma rstrip_prefix (s : str) :
  exists ws, s = rstrip s ++ ws /\ forallb is_space ws = true.
Proof.
  destruct (lstrip_spaces (rev s)) as (ws & Heq & Hws).
  exists (rev ws). split.
  - unfold rstrip. rewrite <- rev_app_distr, <- Heq, rev_involutive. reflexivity.
  - rewrite forallb_forall in *. intros c Hc. apply Hws, in_rev. exact Hc.
Qed.

Lemma strip_strip (s : str) : strip (strip s) = strip s.
Proof.
  unfold strip.
  assert (Hl : lstrip (rstrip (lstrip s)) = rstrip (lstrip s)).
  { apply lstrip_fixed.
    destruct (rstrip_prefix (lstrip s)) as (ws & Heq & _).
    destruct (rstrip (lstrip s)) as [|c r]; [exact I|].
    cbn [app] in Heq. exact (lstrip_head s c _ Heq). }
  rewrite Hl. unfold rstrip at 1 2.
  rewrite rev_involutive, lstrip_lstrip. reflexivity.
Qed.

Lemma feedback_trimmed (line : str) :
  feedback_of line <> [] /\ strip (feedback_of line) = feedback_of line.
Proof.
  unfold feedback_of. destruct (strip line) as [|c r] eqn:Hs; cbn [truthy negb].
  - split; [discriminate|reflexivity].
  - split; [discriminate|]. rewrite <- Hs. apply strip_strip.
Qed.

(** X12. In every run, however it ends and whatever the engine and the
    operator do: each reply read from the operator is followed at once by
    a resume invocation with the value made of that reply, and there is
    no resume invocation without its reply; the engine is called first
    with the initial query and after that with resumes only; and the
    value of a resume is never empty and has no whitespace around it. *)
Theorem every_reply_is_resumed (fuel : nat) (mba : MbaModule) (config : Config)
    (w : world) :
  let new := new_events w (snd (RunAgent.run fuel mba config w)) in
  replies_resumed new = true
  /\ starts_then_resumes (INPUT_QUERY mba) (invocations new)
  /\ forall line,
       feedback_of line <> [] /\ strip (feedback_of line) = feedback_of line.
Proof.
  intros new. split; [|split].
  - destruct (run_replies_resumed fuel mba config w) as (evs & Htrace & Hevs).
    unfold new. rewrite (new_events_app _ _ _ Htrace). exact Hevs.
  - destruct (run_calls fuel mba config w) as (evs & Htrace & Hevs).
    unfold new. rewrite (new_events_app _ _ _ Htrace). exact Hevs.
  - exact feedback_trimmed.
Qed.


Lemma bind_ret_inv {A B : Type} (m : M A) (k : A -> M B) (w w' : world) (b : B) :
  bind m k w = (Ret b, w') ->
  exists a w1, m w = (Ret a, w1) /\ k a w1 = (Ret b, w').
Proof.
  unfold bind. destruct (m w) as [[a|e|] w1]; intros H; try discriminate.
  exists a, w1. auto.
Qed.

Lemma try_finally_ret_inv {A : Type} (body : M A) (final : M unit)
    (w w' : world) (a : A) :
  try_finally body final w = (Ret a, w') ->
  exists w1, body w = (Ret a, w1) /\ final w1 = (Ret tt, w').
Proof.
  unfold try_finally. destruct (body w) as [[a'|e|] w1]; [| |discriminate];
    (destruct (final w1) as [[[]|e'|] w2] eqn:Hf; intros H; try discriminate).
  injection H as -> ->. exists w1. auto.
Qed.

Lemma answered_after (agent : Agent) (w w' : world) (new : list event)
    (r : result) :
  w_trace w' = w_trace w ++ new -> no_call new ->
  answered agent w r -> answered agent w' r.
Proof.
  unfold answered, no_call. intros -> Hnew.
  rewrite invocations_app, Hnew, app_nil_r. auto.
Qed.

Lemma answered_silent {A : Type} (agent : Agent) (m : M A) (w : world)
    (r : result) :
  traces m (fun _ => no_call) ->
  answered agent w r -> answered agent (snd (m w)) r.
Proof.
  intros Hm. destruct (Hm w) as (new & Htrace & Hnew).
  exact (answered_after agent w _ new r Htrace Hnew).
Qed.

Lemma invoke_answered (agent : Agent) (p : payload) (w w' : world) (r : result) :
  invoke agent p w = (Ret r, w') -> answered agent w' r.
Proof.
  unfold invoke, answered.
  destruct (agent_invoke agent (invocations (w_trace w) ++ [p])) as [r'|e] eqn:Ha;
    intros H; [|discriminate].
  injection H as -> <-. cbn [w_trace set_trace].
  rewrite invocations_app. exact Ha.
Qed.

Lemma gate_answered (agent : Agent) (intr : interrupt) (vars vars' : nat * result)
    (w w' : world) :
  gate agent intr vars w = (Ret vars', w') -> answered agent w' (snd vars').
Proof.
  unfold gate. intros H.
  do 5 (apply bind_ret_inv in H as (? & ? & _ & H)).
  apply bind_ret_inv in H as (r & w1 & Hinv & H).
  injection H as <- <-. exact (invoke_answered agent _ _ _ _ Hinv).
Qed.

Lemma for_in_keeps {X S : Type} (I : S -> world -> Prop) (l : list X)
    (body : X -> S -> M S) :
  (forall x s w s' w', I s w -> body x s w = (Ret s', w') -> I s' w') ->
  forall s w s' w', I s w -> for_in l body s w = (Ret s', w') -> I s' w'.
Proof.
  intros Hbody. induction l as [|x l IH]; intros s w s' w' Hs H; cbn [for_in] in H.
  - injection H as <- <-. exact Hs.
  - apply bind_ret_inv in H as (s1 & w1 & Hx & H).
    exact (IH s1 w1 s' w' (Hbody x s w s1 w1 Hs Hx) H).
Qed.

Lemma snapshot_gates_answered (agent : Agent) (tasks : list task)
    (vars vars' : nat * result) (w w' : world) :
  answered agent w (snd vars) ->
  snapshot_gates agent tasks vars w = (Ret vars', w') ->
  answered agent w' (snd vars').
Proof.
  unfold snapshot_gates.
  apply (for_in_keeps (fun vars w => answered agent w (snd vars))).
  intros t s w0 s' w0' Hs. unfold task_gates.
  destruct (interrupts t) as [intrs|].
  - apply (for_in_keeps (fun vars w => answered agent w (snd vars))); [|exact Hs].
    intros intr s1 w1 s1' w1' _. apply gate_answered.
  - intros H. injection H as <- <-. exact Hs.
Qed.

Lemma interrupt_loop_answered (agent : Agent) (fuel : nat) :
  forall (vars vars' : nat * result) (w w' : world),
    answered agent w (snd vars) ->
    interrupt_loop fuel agent vars w = (Ret vars', w') ->
    answered agent w' (snd vars').
Proof.
  induction fuel as [|fuel IH]; intros vars vars' w w' Hvars H;
    cbn [interrupt_loop] in H; [discriminate|].
  apply bind_ret_inv in H as (snap & w1 & Hstate & H).
  assert (Hvars1 : answered agent w1 (snd vars)).
  { pose proof (answered_silent agent (get_state agent) w (snd vars)) as Hs.
    rewrite Hstate in Hs. apply Hs; [|exact Hvars].
    apply each_get_state. reflexivity. }
  destruct (next snap).
  - injection H as <- <-. exact Hvars1.
  - apply bind_ret_inv in H as (vars1 & w2 & Hgates & H).
    exact (IH vars1 vars' w2 w' (snapshot_gates_answered _ _ _ _ _ _ Hvars1 Hgates) H).
Qed.

Lemma finish_returns (config : Config) (output_dir : str) (t0 : float)
    (result r : result) (w w' : world) :
  finish config output_dir t0 result w = (Ret r, w') -> r = result.
Proof.
  unfold finish. intros H.
  do 7 (apply bind_ret_inv in H as (? & ? & _ & H)).
  injection H as <- _. reflexivity.
Qed.

Lemma no_call_display (d : displayable) : no_call [EvDisplay d].
Proof. reflexivity. Qed.

(** X13. The result [run] returns is the state the engine returned to the
    last invocation of the run: to the last resume, or to the initial
    invocation when nothing was resumed. *)
Theorem run_returns_the_last_answer (fuel : nat) (mba : MbaModule)
    (config : Config) (agent : Agent) (w w' : world) (r : result) :
  build_graph mba = Returns agent ->
  RunAgent.run fuel mba config w = (Ret r, w') ->
  answered agent w' r.
Proof.
  intros Hbuild H. unfold RunAgent.run in H.
  apply bind_ret_inv in H as (agent' & w1 & Hagent & H).
  unfold call_build_graph in Hagent. rewrite Hbuild in Hagent.
  injection Hagent as <- _.
  do 5 (apply bind_ret_inv in H as (? & ? & _ & H)).
  apply try_finally_ret_inv in H as (w2 & Hbody & Hstop).
  rewrite run_body_finish in Hbody.
  apply bind_ret_inv in Hbody as (t0 & w3 & _ & Hbody).
  apply bind_ret_inv in Hbody as (r0 & w4 & Hinvoke & Hbody).
  apply bind_ret_inv in Hbody as (vars & w5 & Hloop & Hfinish).
  pose proof (finish_returns _ _ _ _ _ _ _ Hfinish) as ->.
  assert (H5 : answered agent w5 (snd vars)).
  { apply (interrupt_loop_answered agent fuel (O, r0) vars w4 w5); [|exact Hloop].
    exact (invoke_answered agent _ _ _ _ Hinvoke). }
  assert (H2 : answered agent w2 (snd vars)).
  { match type of Hfinish with ?m _ = _ =>
      pose proof (answered_silent agent m w5 (snd vars)) as Hs end.
    rewrite Hfinish in Hs. apply Hs; [|exact H5].
    apply each_finish; [exact no_call_monoidal|exact no_call_display]. }
  pose proof (answered_silent agent stop_log w2 (snd vars)) as Hs.
  rewrite Hstop in Hs. apply Hs; [|exact H2].
  apply traces_stop_log. reflexivity.
Qed.

Lemma run_returns_the_last_answer_witness :
  let w := Examples.fresh [lit " "; lit "more detail"; lit "ok"] in
  let out := RunAgent.run 2 (Examples.mba_of Examples.engine) Examples.config w in
  fst out = Ret Examples.report
  /\ answered Examples.engine (snd out) Examples.report.
Proof.
  intros w out.
  assert (Hout : out = (Ret Examples.report, snd out)) by (vm_compute; reflexivity).
  split; [rewrite Hout; reflexivity|].
  apply (run_returns_the_last_answer 2 (Examples.mba_of Examples.engine)
           Examples.config Examples.engine w (snd out) Examples.report).
  - reflexivity.
  - exact Hout.
Defined.


(** ** A run that returns *)


Lemma keeps_ret {A : Type} (I : world -> Prop) (a : A) : keeps I (ret a).
Proof. intros w H. exact H. Qed.

Lemma keeps_gets {A : Type} (I : world -> Prop) (f : world -> A) :
  keeps I (gets f).
Proof. intros w H. exact H. Qed.

Lemma keeps_bind {A B : Type} (I : world -> Prop) (m : M A) (k : A -> M B) :
  keeps I m -> (forall a, keeps I (k a)) -> keeps I (bind m k).
Proof.
  intros Hm Hk w H. unfold bind. specialize (Hm w H).
  destruct (m w) as [[a|e|] w1]; cbn [snd] in *; [apply Hk; exact Hm|exact Hm..].
Qed.

Lemma keeps_for_in {X S : Type} (I : world -> Prop) (l : list X)
    (body : X -> S -> M S) :
  (forall x s, keeps I (body x s)) -> forall s, keeps I (for_in l body s).
Proof.
  intros Hbody. induction l as [|x l IH]; intros s; cbn [for_in].
  - apply keeps_ret.
  - apply keeps_bind; [apply Hbody|exact IH].
Qed.

Lemma keeps_emit (I : world -> Prop) (ev : event) :
  ignores_talk I -> keeps I (emit ev).
Proof. intros [Ht _] w H. apply Ht. exact H. Qed.

Lemma keeps_input (I : world -> Prop) (text : str) :
  ignores_talk I -> keeps I (input text).
Proof.
  intros [Ht Hs] w H. unfold input. destruct (w_stdin w); [exact H|].
  apply Ht, Hs. exact H.
Qed.

Lemma keeps_invoke (I : world -> Prop) (agent : Agent) (p : payload) :
  ignores_talk I -> keeps I (invoke agent p).
Proof.
  intros [Ht _] w H. unfold invoke.
  destruct (agent_invoke agent _); apply Ht; exact H.
Qed.

Lemma keeps_get_state (I : world -> Prop) (agent : Agent) :
  ignores_talk I -> keeps I (get_state agent).
Proof.
  intros [Ht _] w H. unfold get_state.
  destruct (agent_get_state agent _); apply Ht; exact H.
Qed.

Lemma keeps_gate (I : world -> Prop) (agent : Agent) (intr : interrupt)
    (vars : nat * result) :
  ignores_talk I -> keeps I (gate agent intr vars).
Proof.
  intros HI. unfold gate, display.
  repeat (apply keeps_bind; [apply keeps_emit; exact HI|intros _]).
  apply keeps_bind; [apply keeps_input; exact HI|intros line].
  apply keeps_bind; [apply keeps_invoke; exact HI|intros r].
  apply keeps_ret.
Qed.

Lemma keeps_interrupt_loop (I : world -> Prop) (agent : Agent) (fuel : nat) :
  ignores_talk I ->
  forall vars, keeps I (interrupt_loop fuel agent vars).
Proof.
  intros HI. induction fuel as [|fuel IH]; intros vars; cbn [interrupt_loop].
  - intros w H. exact H.
  - apply keeps_bind; [apply keeps_get_state; exact HI|intros snap].
    destruct (next snap); [apply keeps_ret|].
    apply keeps_bind; [|exact IH].
    unfold snapshot_gates. apply keeps_for_in. intros t vars1.
    unfold task_gates. destruct (interrupts t) as [intrs|]; [|apply keeps_ret].
    apply keeps_for_in. intros intr vars2. apply keeps_gate. exact HI.
Qed.

Lemma logging_ignores_talk (h : nat) (o : stream) (p : str) (saved : list file) :
  ignores_talk (logging h o p saved).
Proof. split; intros w x H; exact H. Qed.

Lemma at_tick_ignores_talk (n : nat) (clock : nat -> datetime)
    (time : nat -> float) :
  ignores_talk (at_tick n clock time).
Proof. split; intros w x H; exact H. Qed.

Lemma keeps_print (h : nat) (o : stream) (p : str) (saved : list file) (s : str) :
  keeps (logging h o p saved) (print s).
Proof.
  intros w (Hout & Htee & Horig & base & rest & Hfiles & Hlen & Hw & [c Hlog] & Hsaved).
  rewrite <- Hout in Hw.
  destruct (print_runs s w base rest Hfiles Hw) as (base' & -> & Hkept).
  cbn [snd]. split; [exact Hout|]. split; [exact Htee|]. split; [exact Horig|].
  exists base', rest. split; [reflexivity|].
  split; [rewrite <- (Forall2_length _ _ _ Hkept); exact Hlen|].
  split; [rewrite (writable_kept base base' _ Hkept), <- Hout; exact Hw|].
  split; [|exact Hsaved].
  destruct (Forall2_lookup_l _ _ _ _ _ Hkept Hlog) as ([p' c' closed] & Hlog' & Hp & Hc).
  cbn in Hp, Hc. subst p' closed. exists c'. exact Hlog'.
Qed.

Lemma keeps_mkdir (h : nat) (o : stream) (p : str) (saved : list file) (d : str) :
  keeps (logging h o p saved) (mkdir d).
Proof.
  intros w H. unfold mkdir. repeat destruct (bool_decide _); exact H.
Qed.

Lemma keeps_copytree (h : nat) (o : stream) (p : str) (saved : list file)
    (src dst : str) :
  keeps (logging h o p saved) (copytree src dst).
Proof.
  intros w H. unfold copytree. repeat destruct (bool_decide _); try exact H.
  destruct H as (Hout & Htee & Horig & base & rest & Hfiles & Hlen & Hw & Hlog & Hsaved).
  cbn [snd]. split; [exact Hout|]. split; [exact Htee|]. split; [exact Horig|].
  exists base, (rest ++ flat_map (copy_under src dst) (w_files w)).
  cbn [w_files set_files set_dirs]. rewrite Hfiles at 1. rewrite <- app_assoc.
  split; [reflexivity|]. split; [exact Hlen|]. split; [exact Hw|].
  split; [exact Hlog|].
  eapply Forall_impl; [exact Hsaved|]. intros f Hf. apply in_or_app. left. exact Hf.
Qed.

Lemma save_all_while_logging (h : nat) (o : stream) (p : str)
    (result : result) (config : Config) (d : str) (elapsed : float)
    (n : nat) (clock : nat -> datetime) (time : nat -> float) (w w' : world) :
  logging h o p [] w -> at_tick n clock time w ->
  save_all result config d elapsed w = (Ret tt, w') ->
  logging h o p
    [md_file result config d (isoformat (clock n));
     meta_file config d (isoformat (clock (S n))) elapsed] w'.
Proof.
  intros (Hout & Htee & Horig & base & rest & Hfiles & Hlen & Hw & [c Hlog] & _)
    (Hticks & Hclock & _) Hrun.
  assert (Hwall : writable (w_files w) (w_stdout w) = true).
  { rewrite Hfiles, Hout. apply writable_app. exact Hw. }
  destruct (decide (md_path_of d ∈ w_readonly w)) as [Hro|Hmd].
  { rewrite (save_all_without_markdown _ _ _ _ _ Hro) in Hrun. discriminate. }
  destruct (decide (meta_path_of d ∈ w_readonly w)) as [Hro|Hmeta].
  { destruct (save_all_without_metadata result config d elapsed w Hwall Hmd Hro)
      as (w1 & Hraise & _).
    rewrite Hraise in Hrun. discriminate. }
  destruct (save_all_runs result config d elapsed w Hwall Hmd Hmeta)
    as (w1 & base1 & Hrun1 & Henv & Hkept & Hfiles1 & _).
  rewrite Hrun1 in Hrun. injection Hrun as <-.
  rewrite Hticks, Hclock, represent_meta_record in Hfiles1.
  rewrite Hfiles in Hkept.
  apply Forall2_app_inv_l in Hkept as (b1 & b2 & Hk1 & Hk2 & ->).
  destruct Henv as (_ & _ & Hout1 & Htee1 & Horig1 & _).
  split; [rewrite Hout1; exact Hout|]. split; [rewrite Htee1; exact Htee|].
  split; [rewrite Horig1; exact Horig|].
  exists b1. eexists. split; [rewrite Hfiles1, <- app_assoc; reflexivity|].
  split; [rewrite <- (Forall2_length _ _ _ Hk1); exact Hlen|].
  split; [rewrite (writable_kept base b1 _ Hk1); exact Hw|]. split.
  - destruct (Forall2_lookup_l _ _ _ _ _ Hk1 Hlog) as ([p' c' closed] & Hlog' & Hp & Hc).
    cbn in Hp, Hc. subst p' closed. exists c'. exact Hlog'.
  - unfold md_file, meta_file. repeat constructor.
    + apply in_or_app. right. left. reflexivity.
    + apply in_or_app. right. right. left. reflexivity.
Qed.

Lemma keeps_after_save (h : nat) (o : stream) (p : str) (saved : list file)
    (output_dir : str) (elapsed : float) (result : result) :
  keeps (logging h o p saved)
    (mounted <- path_exists (lit "/content/drive/MyDrive") ;;
     (if mounted : bool then
        mkdir DRIVE_OUTPUT_DIR ;;
        let drive_dest := path_join DRIVE_OUTPUT_DIR (path_name output_dir) in
        copytree output_dir drive_dest ;;
        print (lit "Drive:    " ++ drive_dest)
      else
        print (lit "[SKIP] Google Drive not mounted " ++ 8212 :: lit " Drive save skipped")) ;;
     display (HTML (lit "<hr style='border:4px solid #1B2A4A; margin:24px 0'>")) ;;
     display (Markdown (lit "## Agent Complete")) ;;
     print (lit "Elapsed: " ++ PyFloat.format_0f elapsed ++ lit "s") ;;
     ret result).
Proof.
  apply keeps_bind; [apply keeps_gets|intros mounted].
  apply keeps_bind.
  { destruct mounted; [|apply keeps_print].
    apply keeps_bind; [apply keeps_mkdir|intros _]. cbn zeta.
    apply keeps_bind; [apply keeps_copytree|intros _]. apply keeps_print. }
  intros _. unfold display.
  repeat (apply keeps_bind;
          [apply keeps_emit, logging_ignores_talk|intros _]).
  apply keeps_bind; [apply keeps_print|intros _]. apply keeps_ret.
Qed.

Lemma finish_while_logging (h : nat) (o : stream) (p : str)
    (result r : result) (config : Config) (d : str) (t0 : float)
    (n : nat) (clock : nat -> datetime) (time : nat -> float) (w w' : world) :
  logging h o p [] w -> at_tick n clock time w ->
  finish config d t0 result w = (Ret r, w') ->
  logging h o p
    [md_file result config d (isoformat (clock (S n)));
     meta_file config d (isoformat (clock (S (S n)))) (time n - t0)%float] w'.
Proof.
  intros Hlog (Hticks & Hclock & Htime) H. unfold finish in H.
  apply bind_ret_inv in H as (t1 & w1 & Ht1 & H).
  unfold time_time in Ht1. injection Ht1 as <- <-. cbn zeta in H.
  apply bind_ret_inv in H as ([] & w2 & Hsave & H).
  rewrite Hticks, Htime in Hsave, H.
  assert (Hlog2 := save_all_while_logging h o p result config d _ (S n) clock time
                     (set_ticks (S n) w) w2 Hlog
                     (conj eq_refl (conj Hclock Htime)) Hsave).
  change w' with (snd (Ret r, w')). rewrite <- H.
  exact (keeps_after_save h o p _ d (time n - t0)%float result w2 Hlog2).
Qed.


Lemma keeps_and {A : Type} (I J : world -> Prop) (m : M A) :
  keeps I m -> keeps J m -> keeps (fun w => I w /\ J w) m.
Proof. intros HI HJ w [Hi Hj]. split; [apply HI|apply HJ]; assumption. Qed.

Lemma ignores_talk_and (I J : world -> Prop) :
  ignores_talk I -> ignores_talk J -> ignores_talk (fun w => I w /\ J w).
Proof.
  intros [It Is] [Jt Js]. split; intros w x [Hi Hj]; split; auto.
Qed.

Lemma stop_log_while_logging (h : nat) (o : stream) (p : str)
    (saved : list file) (w : world) :
  logging h o p saved w ->
  exists w',
    stop_log w = (Ret tt, w')
    /\ w_stdout w' = o /\ w_tee w' = None
    /\ (exists c, w_files w' !! h = Some (mk_file p c true))
    /\ Forall (fun f => In f (w_files w')) saved
    /\ w_dirs w' = w_dirs w.
Proof.
  intros (Hout & Htee & Horig & base & rest & Hfiles & Hlen & Hw & [c Hlog] & Hsaved).
  assert (Hh : w_files w !! h = Some (mk_file p c false))
    by (rewrite Hfiles; apply lookup_app_l_Some; exact Hlog).
  eexists. split; [|split; [|split; [|split; [|split]]]].
  - unfold stop_log, bind, gets, file_close, modify, emit. run_step.
    rewrite Htee. run_step. rewrite Hh. reflexivity.
  - cbn. exact Horig.
  - reflexivity.
  - exists c. cbn [w_files set_files set_orig_stdout set_tee f_path f_content].
    apply list_lookup_insert_eq. apply lookup_lt_Some in Hh. exact Hh.
  - cbn [w_files set_files set_orig_stdout set_tee set_stdout set_trace
         f_path f_content].
    rewrite Hfiles, insert_app_l by lia.
    eapply Forall_impl; [exact Hsaved|]. intros f Hf.
    apply in_or_app. right. exact Hf.
  - reflexivity.
Qed.

Lemma mkdir_ret (d : str) (w w' : world) :
  mkdir d w = (Ret tt, w') ->
  w_files w' = w_files w /\ w_stdout w' = w_stdout w
  /\ w_console w' = w_console w /\ w_readonly w' = w_readonly w
  /\ w_ticks w' = w_ticks w /\ w_clock w' = w_clock w /\ w_time w' = w_time w.
Proof.
  unfold mkdir. repeat destruct (bool_decide _); intros H; try discriminate;
    injection H as <-; repeat split.
Qed.

Lemma keeps_raise {A : Type} (I : world -> Prop) (e : exn) : keeps I (@raise A e).
Proof. intros w H. exact H. Qed.

Lemma keeps_try_finally {A : Type} (I : world -> Prop) (body : M A)
    (final : M unit) :
  keeps I body -> keeps I final -> keeps I (try_finally body final).
Proof.
  intros Hb Hf w H. unfold try_finally. specialize (Hb w H).
  destruct (body w) as [[a|e|] w1]; cbn [snd] in *; [| |exact Hb];
    specialize (Hf w1 Hb); destruct (final w1) as [[[]|e'|] w2]; exact Hf.
Qed.

Lemma keeps_try_except {A : Type} (I : world -> Prop) (body : M A)
    (handler : exn -> M A) :
  keeps I body -> (forall e, keeps I (handler e)) ->
  keeps I (try_except body handler).
Proof.
  intros Hb Hh w H. unfold try_except. specialize (Hb w H).
  destruct (body w) as [[a|e|] w1]; cbn [snd] in *;
    [exact Hb|apply Hh; exact Hb|exact Hb].
Qed.

Lemma dir_open_w (p path : str) : keeps (has_dir p) (open_w path).
Proof. intros w H. unfold open_w. destruct (bool_decide _); exact H. Qed.

Lemma dir_file_write (p : str) (h : nat) (c : chunk) :
  keeps (has_dir p) (file_write h c).
Proof.
  intros w H. unfold file_write. destruct (w_files w !! h) as [f|];
    [destruct (f_closed f)|]; exact H.
Qed.

Lemma dir_file_close (p : str) (h : nat) : keeps (has_dir p) (file_close h).
Proof.
  intros w H. unfold file_close, modify. destruct (w_files w !! h); exact H.
Qed.

Lemma dir_stream_write (p : str) (st : stream) (s : str) :
  keeps (has_dir p) (stream_write st s).
Proof.
  induction st as [| |h o IH]; cbn [stream_write].
  - apply keeps_raise.
  - intros w H. exact H.
  - apply keeps_bind; [exact IH|intros _; apply dir_file_write].
Qed.

Lemma dir_print (p s : str) : keeps (has_dir p) (print s).
Proof.
  unfold print. apply keeps_bind; [apply keeps_gets|].
  intros [| |h o]; [apply keeps_ret| |];
    (apply keeps_bind; [apply dir_stream_write|intros _; apply dir_stream_write]).
Qed.

Lemma dir_datetime_now (p : str) : keeps (has_dir p) datetime_now.
Proof. intros w H. exact H. Qed.

Lemma dir_time_time (p : str) : keeps (has_dir p) time_time.
Proof. intros w H. exact H. Qed.

Lemma dir_raise_if (p : str) (e : option exn) : keeps (has_dir p) (raise_if e).
Proof. destruct e; [apply keeps_raise|apply keeps_ret]. Qed.

Lemma dir_emit (p : str) (ev : event) : keeps (has_dir p) (emit ev).
Proof. intros w H. exact H. Qed.

Lemma dir_mkdir (p d : str) : keeps (has_dir p) (mkdir d).
Proof.
  intros w H. unfold mkdir. repeat destruct (bool_decide _); try exact H.
  apply elem_of_app. left. exact H.
Qed.

Lemma dir_copytree (p src dst : str) : keeps (has_dir p) (copytree src dst).
Proof.
  intros w H. unfold copytree. repeat destruct (bool_decide _); try exact H.
  apply elem_of_app. left. exact H.
Qed.

(** Closes a goal [keeps (has_dir p) m] for [m] built from the operations
    above. *)
Ltac keep_dir :=
  repeat first
    [ progress cbn beta zeta
    | match goal with |- forall _, _ => intro end
    | apply dir_print | apply dir_open_w | apply dir_file_write
    | apply dir_file_close | apply dir_datetime_now | apply dir_time_time
    | apply dir_mkdir | apply dir_copytree | apply dir_raise_if
    | apply dir_emit
    | apply keeps_ret | apply keeps_raise | apply keeps_gets
    | apply keeps_try_finally | apply keeps_try_except
    | apply keeps_bind ].

Lemma dir_save_all (p : str) (result : result) (config : Config)
    (output_dir : str) (elapsed : float) :
  keeps (has_dir p) (save_all result config output_dir elapsed).
Proof.
  unfold save_all, save_markdown, save_meta, save_docx, write_markdown,
    write_meta, write_docx, docx_failed, yaml_dump, with_open, import_docx,
    composed, doc_save, with_open.
  keep_dir. destruct (is_ImportError _); keep_dir.
Qed.

Lemma dir_finish (p : str) (config : Config) (output_dir : str) (t0 : float)
    (result : result) :
  keeps (has_dir p) (finish config output_dir t0 result).
Proof.
  unfold finish, path_exists, display.
  apply keeps_bind; [apply dir_time_time|intros t1]. cbn zeta.
  apply keeps_bind; [apply dir_save_all|intros _].
  apply keeps_bind; [apply keeps_gets|intros mounted].
  apply keeps_bind; [destruct mounted; keep_dir|intros _].
  keep_dir.
Qed.

Lemma mkdir_dirs (d : str) (w w' : world) :
  mkdir d w = (Ret tt, w') -> dirs_grow w w' /\ d ∈ w_dirs w'.
Proof.
  unfold mkdir, dirs_grow. destruct (bool_decide (d ∈ w_readonly w));
    [discriminate|].
  destruct (bool_decide (d ∈ w_dirs w)) eqn:Hd; intros H; injection H as <-.
  - apply bool_decide_eq_true_1 in Hd. auto.
  - cbn [w_dirs set_dirs]. split.
    + intros p Hp. apply elem_of_app. left. exact Hp.
    + apply elem_of_app. right. left.
Qed.

Lemma dirs_ignore_talk (w : world) : ignores_talk (dirs_grow w).
Proof. split; intros w0 x H; exact H. Qed.

(** A run that returns reached the end of its [try] block: the log was
    started in the directory named by the first reading of the clock, the
    loop ended, and the rest of the block and [stop_log] returned. *)
Lemma run_ret_inv (fuel : nat) (mba : MbaModule) (config : Config)
    (w w' : world) (r : result) :
  writable (w_files w) (w_stdout w) = true ->
  RunAgent.run fuel mba config w = (Ret r, w') ->
  let t := w_ticks w in
  let d := strftime_Ymd_HMS (w_clock w t) in
  exists w1 w2,
    logging (length (w_files w)) (w_stdout w) (path_join d (lit "log.txt")) [] w1
    /\ at_tick (2 + t) (w_clock w) (w_time w) w1
    /\ dirs_grow w w1 /\ d ∈ w_dirs w1
    /\ finish config d (w_time w (1 + t)) r w1 = (Ret r, w2)
    /\ stop_log w2 = (Ret tt, w').
Proof.
  intros Hw H t d. unfold RunAgent.run in H.
  apply bind_ret_inv in H as (agent & w1 & Hagent & H).
  assert (w1 = w) as ->.
  { unfold call_build_graph in Hagent. destruct (build_graph mba);
      [injection Hagent as _ <-; reflexivity|discriminate]. }
  apply bind_ret_inv in H as (now & w2 & Hnow & H).
  unfold datetime_now in Hnow. injection Hnow as <- <-. cbn zeta in H.
  fold t in H. fold d in H.
  apply bind_ret_inv in H as ([] & w3 & Hmkdir & H).
  destruct (mkdir_dirs _ _ _ Hmkdir) as [Hgrow3 Hd3].
  apply mkdir_ret in Hmkdir
    as (Hfiles3 & Hout3 & _ & Hro3 & Hticks3 & Hclock3 & Htime3).
  cbn [w_files w_stdout w_readonly w_ticks w_clock w_time set_ticks]
    in Hfiles3, Hout3, Hro3, Hticks3, Hclock3, Htime3.
  apply bind_ret_inv in H as (resolved & w4 & Hresolve & H).
  unfold resolve, bind, gets, ret in Hresolve. injection Hresolve as _ <-.
  apply bind_ret_inv in H as ([] & w5 & Hprint & H).
  destruct (print_runs (lit "Output dir: " ++ resolved ++ [newline]) w3
              (w_files w) [])
    as (base1 & Hprint' & Hkept1).
  { rewrite Hfiles3, app_nil_r. reflexivity. }
  { rewrite Hout3. exact Hw. }
  rewrite Hprint' in Hprint. injection Hprint as <-. rewrite app_nil_r in H.
  apply bind_ret_inv in H as ([] & w6 & Hstart & H).
  match type of Hstart with start_log _ ?W = _ => set (w5 := W) in * end.
  destruct (decide (path_join d (lit "log.txt") ∈ w_readonly w5)) as [Hro|Hfree].
  { rewrite (start_log_raises d w5 Hro) in Hstart. discriminate. }
  rewrite (start_log_runs d w5 Hfree) in Hstart. injection Hstart as <-.
  cbn [w_files w_stdout w5 set_files set_console] in H. rewrite Hout3 in H.
  pose proof (Forall2_length _ _ _ Hkept1) as Hlen1.
  match type of H with try_finally _ _ ?W = _ => set (w6 := W) in * end.
  set (I := fun (n : nat) (w0 : world) =>
         (logging (length (w_files w)) (w_stdout w) (path_join d (lit "log.txt")) [] w0
          /\ at_tick n (w_clock w) (w_time w) w0)
         /\ (dirs_grow w w0 /\ d ∈ w_dirs w0)).
  assert (HI : forall n, ignores_talk (I n)).
  { intros n. apply ignores_talk_and;
      [apply ignores_talk_and;
       [apply logging_ignores_talk|apply at_tick_ignores_talk]|].
    split; intros w0 x Hx; exact Hx. }
  assert (H6 : I (S t) w6).
  { split; [split|split; [exact Hgrow3|exact Hd3]].
    - split; [cbn; rewrite Hlen1; reflexivity|].
      split; [cbn; rewrite Hlen1; reflexivity|].
      split; [reflexivity|].
      exists (base1 ++ [mk_file (path_join d (lit "log.txt")) [] false]), [].
      split; [cbn; rewrite app_nil_r; reflexivity|].
      split; [rewrite length_app, <- Hlen1; cbn; lia|].
      split; [|split; [|constructor]].
      + cbn [writable]. apply andb_true_iff. split.
        * unfold is_open. rewrite Hlen1, list_lookup_middle by reflexivity.
          reflexivity.
        * apply writable_app. rewrite (writable_kept _ _ _ Hkept1). exact Hw.
      + exists []. rewrite Hlen1. apply list_lookup_middle. reflexivity.
    - split; [exact Hticks3|]. split; [exact Hclock3|exact Htime3]. }
  clearbody w6. clear w5 Hfree.
  apply try_finally_ret_inv in H as (w7 & Hbody & Hstop).
  rewrite run_body_finish in Hbody.
  apply bind_ret_inv in Hbody as (t0 & w8 & Ht0 & Hbody).
  destruct H6 as [[Hlog6 (Hticks6 & Hclock6 & Htime6)] Hdirs6].
  unfold time_time in Ht0. injection Ht0 as <- <-.
  rewrite Hticks6, Htime6 in Hbody.
  assert (H8 : I (S (S t)) (set_ticks (S (S t)) w6)).
  { split; [split|exact Hdirs6]; [exact Hlog6|].
    split; [reflexivity|]. split; [exact Hclock6|exact Htime6]. }
  apply bind_ret_inv in Hbody as (r0 & w9 & Hinvoke & Hbody).
  assert (H9 : I (S (S t)) w9).
  { change w9 with (snd (Ret r0, w9)). rewrite <- Hinvoke.
    apply keeps_invoke; [apply HI|exact H8]. }
  apply bind_ret_inv in Hbody as (vars & w10 & Hloop & Hfinish).
  assert (H10 : I (S (S t)) w10).
  { change w10 with (snd (Ret vars, w10)). rewrite <- Hloop.
    apply keeps_interrupt_loop; [apply HI|exact H9]. }
  pose proof (finish_returns _ _ _ _ _ _ _ Hfinish) as ->.
  destruct H10 as [[Hlog10 Htick10] [Hgrow10 Hd10]].
  exists w10, w7. auto 10.
Qed.

(** X14. A run that returns has saved what it returns. With an output
    stream that can be written to, when [run] returns [r]: the directory
    named by the first reading of the clock exists; the markdown file of
    the report in it holds the texts of [r], and the metadata file the
    time elapsed between the two readings around the workflow, rounded;
    the log file is closed; and the output stream is the one [run] found,
    with the hook of the log cleared. *)
Theorem run_saves_what_it_returns (fuel : nat) (mba : MbaModule)
    (config : Config) (w w' : world) (r : result) :
  writable (w_files w) (w_stdout w) = true ->
  RunAgent.run fuel mba config w = (Ret r, w') ->
  let t := w_ticks w in
  let d := strftime_Ymd_HMS (w_clock w t) in
  let elapsed := (w_time w (2 + t) - w_time w (1 + t))%float in
  In (md_file r config d (isoformat (w_clock w (3 + t)))) (w_files w')
  /\ In (meta_file config d (isoformat (w_clock w (4 + t))) elapsed) (w_files w')
  /\ (exists c,
        w_files w' !! length (w_files w) =
          Some (mk_file (path_join d (lit "log.txt")) c true))
  /\ w_stdout w' = w_stdout w
  /\ w_tee w' = None
  /\ d ∈ w_dirs w'.
Proof.
  intros Hw H t d elapsed.
  destruct (run_ret_inv fuel mba config w w' r Hw H)
    as (w1 & w2 & Hlog1 & Htick1 & _ & Hd1 & Hfinish & Hstop).
  pose proof (finish_while_logging _ _ _ _ _ _ _ _ _ _ _ _ _ Hlog1 Htick1 Hfinish)
    as Hlog2.
  assert (Hd2 : d ∈ w_dirs w2).
  { change w2 with (snd (Ret r, w2)). rewrite <- Hfinish.
    exact (dir_finish d config d _ r w1 Hd1). }
  destruct (stop_log_while_logging _ _ _ _ _ Hlog2)
    as (w'' & Hstop' & Hout' & Htee' & Hlog' & Hsaved & Hdirs').
  rewrite Hstop' in Hstop. injection Hstop as <-.
  inversion Hsaved as [|? ? Hmd Hrest]; subst.
  inversion Hrest as [|? ? Hmeta _]; subst.
  split; [exact Hmd|]. split; [exact Hmeta|]. split; [exact Hlog'|].
  split; [exact Hout'|]. split; [exact Htee'|].
  rewrite Hdirs'. exact Hd2.
Qed.

Lemma run_saves_what_it_returns_witness :
  let w := Examples.fresh [lit " "; lit "more detail"; lit "ok"] in
  let out := RunAgent.run 2 (Examples.mba_of Examples.engine) Examples.config w in
  let d := Examples.out_dir in
  fst out = Ret Examples.report
  /\ In (md_file Examples.report Examples.config d (lit "2026-01-01T12:00:00"))
       (w_files (snd out))
  /\ In (meta_file Examples.config d (lit "2026-01-01T12:00:00") 1)
       (w_files (snd out))
  /\ (exists c,
        w_files (snd out) !! 0%nat =
          Some (mk_file (path_join d (lit "log.txt")) c true))
  /\ w_stdout (snd out) = Console
  /\ w_tee (snd out) = None
  /\ d ∈ w_dirs (snd out).
Proof.
  intros w out d.
  assert (Hout : out = (Ret Examples.report, snd out)) by (vm_compute; reflexivity).
  split; [rewrite Hout; reflexivity|].
  apply (run_saves_what_it_returns 2 (Examples.mba_of Examples.engine)
           Examples.config w (snd out) Examples.report eq_refl Hout).
Defined.


Lemma copy_under_child (src dst name : str) (c : list chunk) (closed : bool) :
  copy_under src dst (mk_file (path_join src name) c closed) =
    [mk_file (path_join dst name) c true].
Proof.
  unfold copy_under, path_join. cbn [f_path f_content].
  change (src ++ slash :: name) with (src ++ [slash] ++ name).
  rewrite app_assoc, startswith_prefix, drop_app_length. reflexivity.
Qed.

Lemma copytree_ret (src dst : str) (w w' : world) :
  copytree src dst w = (Ret tt, w') ->
  w' = set_files (w_files w ++ flat_map (copy_under src dst) (w_files w))
         (set_dirs (w_dirs w ++ [dst]) w).
Proof.
  unfold copytree. repeat destruct (bool_decide _); intros H; try discriminate.
  injection H as <-. reflexivity.
Qed.

Lemma copytree_while_logging (h : nat) (o : stream) (p : str)
    (src dst name1 name2 : str) (c1 c2 : list chunk) (w w' : world) :
  logging h o p
    [mk_file (path_join src name1) c1 true; mk_file (path_join src name2) c2 true] w ->
  copytree src dst w = (Ret tt, w') ->
  logging h o p
    [mk_file (path_join src name1) c1 true; mk_file (path_join src name2) c2 true;
     mk_file (path_join dst name1) c1 true; mk_file (path_join dst name2) c2 true]
    w'
  /\ has_dir dst w'.
Proof.
  intros (Hout & Htee & Horig & base & rest & Hfiles & Hlen & Hw & Hlog & Hsaved) H.
  apply copytree_ret in H as ->.
  apply Forall_cons in Hsaved as [H1 Hrest].
  apply Forall_cons in Hrest as [H2 _].
  split; [|apply elem_of_app; right; left].
  split; [exact Hout|]. split; [exact Htee|]. split; [exact Horig|].
  exists base, (rest ++ flat_map (copy_under src dst) (w_files w)).
  cbn [w_files set_files set_dirs]. rewrite Hfiles at 1. rewrite <- app_assoc.
  split; [reflexivity|]. split; [exact Hlen|]. split; [exact Hw|].
  split; [exact Hlog|].
  assert (Hcopy : forall name c,
            In (mk_file (path_join src name) c true) rest ->
            In (mk_file (path_join dst name) c true)
               (rest ++ flat_map (copy_under src dst) (w_files w))).
  { intros name c Hin. apply in_or_app. right. apply in_flat_map.
    exists (mk_file (path_join src name) c true). split.
    - rewrite Hfiles. apply in_or_app. right. exact Hin.
    - rewrite copy_under_child. left. reflexivity. }
  repeat constructor; try (apply in_or_app; left; assumption);
    apply Hcopy; assumption.
Qed.

Lemma finish_copies (h : nat) (o : stream) (p : str)
    (result r : result) (config : Config) (d : str) (t0 : float)
    (n : nat) (clock : nat -> datetime) (time : nat -> float) (w w' : world) :
  logging h o p [] w -> at_tick n clock time w -> has_dir MyDrive w ->
  finish config d t0 result w = (Ret r, w') ->
  let dest := path_join DRIVE_OUTPUT_DIR (path_name d) in
  let md := md_file result config d (isoformat (clock (S n))) in
  let meta :=
    meta_file config d (isoformat (clock (S (S n)))) (time n - t0)%float in
  logging h o p
    [md; meta;
     mk_file (path_join dest (lit "report_" ++ path_name d ++ lit ".md"))
       (f_content md) true;
     mk_file (path_join dest (lit "meta.yaml")) (f_content meta) true] w'
  /\ has_dir DRIVE_OUTPUT_DIR w' /\ has_dir dest w'.
Proof.
  intros Hlog (Hticks & Hclock & Htime) Hdrive H dest md meta.
  unfold finish in H.
  apply bind_ret_inv in H as (t1 & w1 & Ht1 & H).
  unfold time_time in Ht1. injection Ht1 as <- <-. cbn zeta in H.
  apply bind_ret_inv in H as ([] & w2 & Hsave & H).
  rewrite Hticks, Htime in Hsave, H.
  assert (Hlog2 := save_all_while_logging h o p result config d _ (S n) clock time
                     (set_ticks (S n) w) w2 Hlog
                     (conj eq_refl (conj Hclock Htime)) Hsave).
  assert (Hdrive2 : has_dir MyDrive w2).
  { change w2 with (snd (Ret tt, w2)). rewrite <- Hsave.
    apply dir_save_all. exact Hdrive. }
  apply bind_ret_inv in H as (mounted & w3 & Hexists & H).
  unfold path_exists, gets in Hexists. injection Hexists as <- <-.
  unfold has_dir, MyDrive in Hdrive2.
  rewrite (bool_decide_eq_true_2 _ Hdrive2) in H. cbn [orb] in H.
  apply bind_ret_inv in H as ([] & w4 & Hbranch & H).
  apply bind_ret_inv in Hbranch as ([] & w5 & Hmkdir & Hbranch).
  cbn zeta in Hbranch.
  apply bind_ret_inv in Hbranch as ([] & w6 & Hcopy & Hprint).
  assert (Hlog5 : logging h o p [md; meta] w5).
  { change w5 with (snd (Ret tt, w5)). rewrite <- Hmkdir.
    apply keeps_mkdir. exact Hlog2. }
  destruct (mkdir_dirs _ _ _ Hmkdir) as [_ Hd5].
  fold dest in Hcopy, Hprint.
  destruct (copytree_while_logging h o p d dest _ _ _ _ w5 w6 Hlog5 Hcopy)
    as [Hlog6 Hdest6].
  assert (Hd6 : has_dir DRIVE_OUTPUT_DIR w6).
  { change w6 with (snd (Ret tt, w6)). rewrite <- Hcopy.
    apply dir_copytree. exact Hd5. }
  set (saved := [md; meta;
                 mk_file (path_join dest (lit "report_" ++ path_name d ++ lit ".md"))
                   (f_content md) true;
                 mk_file (path_join dest (lit "meta.yaml")) (f_content meta) true]).
  set (I := fun w0 =>
         logging h o p saved w0
         /\ (has_dir DRIVE_OUTPUT_DIR w0 /\ has_dir dest w0)).
  assert (HI : forall (A : Type) (m : M A),
            keeps (logging h o p saved) m -> keeps (has_dir DRIVE_OUTPUT_DIR) m ->
            keeps (has_dir dest) m -> keeps I m).
  { intros A m K1 K2 K3 w0 (L1 & L2 & L3).
    split; [apply K1|split; [apply K2|apply K3]]; assumption. }
  assert (H4 : I w4).
  { change w4 with (snd (Ret tt, w4)). rewrite <- Hprint.
    apply HI; [apply keeps_print|apply dir_print|apply dir_print|].
    split; [exact Hlog6|]. split; [exact Hd6|exact Hdest6]. }
  change w' with (snd (Ret r, w')). rewrite <- H.
  revert H4. generalize w4. change (keeps I
    (display (HTML (lit "<hr style='border:4px solid #1B2A4A; margin:24px 0'>")) ;;
     display (Markdown (lit "## Agent Complete")) ;;
     print (lit "Elapsed: " ++ PyFloat.format_0f (time n - t0) ++ lit "s") ;;
     ret result)).
  unfold display.
  repeat (apply keeps_bind;
          [apply HI;
           [apply keeps_emit, logging_ignores_talk|apply dir_emit|apply dir_emit]
          |intros _]).
  apply keeps_bind;
    [apply HI; [apply keeps_print|apply dir_print|apply dir_print]|intros _].
  apply keeps_ret.
Qed.

(** X15. When the Drive is mounted, a run that returns has copied the
    report: the Drive output directory and the directory of the run in it
    exist, and the copies of the markdown file and of the metadata file
    there hold what the files of the output directory hold. *)
Theorem run_copies_the_report_to_the_drive (fuel : nat) (mba : MbaModule)
    (config : Config) (w w' : world) (r : result) :
  writable (w_files w) (w_stdout w) = true ->
  MyDrive ∈ w_dirs w ->
  RunAgent.run fuel mba config w = (Ret r, w') ->
  let t := w_ticks w in
  let d := strftime_Ymd_HMS (w_clock w t) in
  let dest := path_join DRIVE_OUTPUT_DIR (path_name d) in
  let elapsed := (w_time w (2 + t) - w_time w (1 + t))%float in
  In (mk_file (path_join dest (lit "report_" ++ path_name d ++ lit ".md"))
        (markdown_chunks r config (isoformat (w_clock w (3 + t)))) true)
     (w_files w')
  /\ In (mk_file (path_join dest (lit "meta.yaml"))
           [YamlDoc (metadata (isoformat (w_clock w (4 + t))) config
                       (PyFloat.round1 elapsed))] true)
        (w_files w')
  /\ DRIVE_OUTPUT_DIR ∈ w_dirs w'
  /\ dest ∈ w_dirs w'.
Proof.
  intros Hw Hdrive H t d dest elapsed.
  destruct (run_ret_inv fuel mba config w w' r Hw H)
    as (w1 & w2 & Hlog1 & Htick1 & Hgrow1 & _ & Hfinish & Hstop).
  destruct (finish_copies _ _ _ _ _ _ _ _ _ _ _ _ _ Hlog1 Htick1
              (Hgrow1 _ Hdrive) Hfinish)
    as (Hlog2 & Hd2 & Hdest2).
  destruct (stop_log_while_logging _ _ _ _ _ Hlog2)
    as (w'' & Hstop' & _ & _ & _ & Hsaved & Hdirs').
  rewrite Hstop' in Hstop. injection Hstop as <-.
  apply Forall_cons in Hsaved as [_ Hs1].
  apply Forall_cons in Hs1 as [_ Hs2].
  apply Forall_cons in Hs2 as [Hmd Hs3].
  apply Forall_cons in Hs3 as [Hmeta _].
  split; [exact Hmd|]. split; [exact Hmeta|].
  rewrite Hdirs'. split; [exact Hd2|exact Hdest2].
Qed.

Lemma run_copies_the_report_to_the_drive_witness :
  let w := Cases.with_drive in
  let mba := Examples.mba_of Cases.direct in
  let out := RunAgent.run 1 mba Examples.config w in
  let dest := path_join DRIVE_OUTPUT_DIR Examples.out_dir in
  fst out = Ret Examples.report
  /\ In (mk_file (path_join dest (lit "report_20260101_120000.md"))
          (markdown_chunks Examples.report Examples.config
             (lit "2026-01-01T12:00:00")) true)
       (w_files (snd out))
  /\ In (mk_file (path_join dest (lit "meta.yaml"))
           [YamlDoc (metadata (lit "2026-01-01T12:00:00") Examples.config 1)] true)
        (w_files (snd out))
  /\ DRIVE_OUTPUT_DIR ∈ w_dirs (snd out)
  /\ dest ∈ w_dirs (snd out).
Proof.
  intros w mba out dest.
  assert (Hout : out = (Ret Examples.report, snd out)) by (vm_compute; reflexivity).
  split; [rewrite Hout; reflexivity|].
  apply (run_copies_the_report_to_the_drive 1 mba Examples.config w (snd out)
           Examples.report eq_refl).
  - left.
  - exact Hout.
Defined.


(** ** Loading the agent: [load] and [get_config] *)

Local Open Scope load_scope.

Lemma load_runs (code : source) (config_ui : form) (repo_dir : str) (s : session) :
  path_join (path_join repo_dir MBA_course) (lit "config.yaml") ∉ s_readonly s ->
  load code config_ui repo_dir s =
    (mba <- import_agent code ;; lret (mba, get_config config_ui))
      (prepared config_ui repo_dir s).
Proof.
  intros Hfree. unfold load, prepared. cbn zeta.
  unfold lbind at 1, dump. rewrite bool_decide_eq_false_2 by exact Hfree.
  unfold lbind at 1, lprint. unfold lbind at 1. cbn [sys_path].
  destruct (bool_decide (path_join repo_dir MBA_course ∈ sys_path s)).
  - unfold lbind at 1, lret. rewrite app_nil_r. reflexivity.
  - unfold lbind at 1 2, path_insert, lprint. cbn.
    rewrite <- app_assoc. reflexivity.
Qed.

Lemma import_agent_keeps (code : source) (s : session) :
  let s' := snd (import_agent code s) in
  s_files s' = s_files s /\ s_readonly s' = s_readonly s
  /\ s_console s' = s_console s /\ sys_path s' = sys_path s.
Proof.
  unfold import_agent, ltry, lbind, import_module, reload, executed.
  destruct (sys_modules s) as [m|]; cbn;
    repeat (match goal with
            | |- context [code ?n ?x] => destruct (code n x) as [? [?|]]; cbn
            end);
    repeat split.
Qed.

Lemma then_ret_session {A B : Type} (m : L A) (f : A -> B) (s : session) :
  snd ((a <- m ;; lret (f a)) s) = snd (m s).
Proof. unfold lbind, lret. destruct (m s) as [[a|e|] s']; reflexivity. Qed.

(** X16. [load] writes the configuration before it touches the module.
    When the configuration file cannot be written, [load] raises that
    error and has changed nothing: no path is added and the code of the
    module is not executed. Otherwise it dumps the dict of [get_config],
    with its eight keys and its four roles in the order of the form, and
    imports the module in the session that holds the file; the dict it
    returns with the module is that snapshot of the form. *)
Theorem load_writes_the_config_first (code : source) (config_ui : form)
    (repo_dir : str) (s : session) :
  let agent_dir := path_join repo_dir MBA_course in
  let config_path := path_join agent_dir (lit "config.yaml") in
  (config_path ∈ s_readonly s ->
   exists e, load code config_ui repo_dir s = (Raise e, s) /\ class_of e = OSError)
  /\ (config_path ∉ s_readonly s ->
      load code config_ui repo_dir s =
        (mba <- import_agent code ;; lret (mba, get_config config_ui))
          (prepared config_ui repo_dir s)
      /\ s_files (snd (load code config_ui repo_dir s)) =
           s_files s ++ [(config_path, config_dict (get_config config_ui))]
      /\ forall mba c s',
           load code config_ui repo_dir s = (Ret (mba, c), s') ->
           c = get_config config_ui)
  /\ dict_keys (config_dict (get_config config_ui)) =
       [lit "input_query"; lit "agents"; lit "max_clarify_rounds";
        lit "max_research_topics"; lit "max_web_search_ct";
        lit "max_debate_rounds"; lit "max_human_revision_on_proposal";
        lit "max_human_revision_on_plan"]
  /\ List.map fst (agents (get_config config_ui)) =
       [lit "intake"; lit "researcher"; lit "critic"; lit "synthesizer"].
Proof.
  intros agent_dir config_path. split; [|split; [|split; reflexivity]].
  - intros Hro. exists (mk_exn OSError config_path). split; [|reflexivity].
    unfold load. cbn zeta. unfold lbind at 1, dump.
    fold agent_dir. fold config_path.
    rewrite bool_decide_eq_true_2 by exact Hro. reflexivity.
  - intros Hfree. pose proof (load_runs code config_ui repo_dir s Hfree) as Hload.
    split; [exact Hload|]. split.
    + rewrite Hload, then_ret_session.
      destruct (import_agent_keeps code (prepared config_ui repo_dir s)) as (-> & _).
      reflexivity.
    + intros mba c s'. rewrite Hload. unfold lbind, lret.
      destruct (import_agent code _) as [[m|e|] s1]; intros H; try discriminate.
      injection H as _ <- _. reflexivity.
Qed.

(** X17. [load] puts the directory of the agent on [sys.path] once: at the
    front if it is not there, and not at all if it is; so after one
    [load] every further [load] of the same repository leaves [sys.path]
    as it is and prints the one notice of the configuration only. *)
Theorem module_path_is_added_once (code : source) (config_ui : form)
    (repo_dir : str) (s : session) :
  let agent_dir := path_join repo_dir MBA_course in
  let config_path := path_join agent_dir (lit "config.yaml") in
  config_path ∉ s_readonly s ->
  let s1 := snd (load code config_ui repo_dir s) in
  sys_path s1 =
    (if bool_decide (agent_dir ∈ sys_path s) then sys_path s
     else agent_dir :: sys_path s)
  /\ agent_dir ∈ sys_path s1
  /\ forall code' config_ui',
       let s2 := snd (load code' config_ui' repo_dir s1) in
       sys_path s2 = sys_path s1
       /\ s_console s2 = s_console s1 ++ [lit "Config written to " ++ config_path].
Proof.
  intros agent_dir config_path Hfree s1.
  assert (Hs1 : forall code0 f0 s0,
            config_path ∉ s_readonly s0 ->
            let s' := snd (load code0 f0 repo_dir s0) in
            s_readonly s' = s_readonly s0
            /\ s_console s' = s_console (prepared f0 repo_dir s0)
            /\ sys_path s' = sys_path (prepared f0 repo_dir s0)).
  { intros code0 f0 s0 Hfree0 s'. unfold s'.
    rewrite (load_runs code0 f0 repo_dir s0 Hfree0), then_ret_session.
    destruct (import_agent_keeps code0 (prepared f0 repo_dir s0))
      as (_ & -> & -> & ->).
    repeat split. }
  destruct (Hs1 code config_ui s Hfree) as (Hro1 & Hcons1 & Hpath1).
  fold s1 in Hro1, Hcons1, Hpath1.
  assert (Hin : agent_dir ∈ sys_path s1).
  { rewrite Hpath1. unfold prepared. cbn [sys_path]. fold agent_dir.
    destruct (bool_decide (agent_dir ∈ sys_path s)) eqn:Hk.
    - apply bool_decide_eq_true_1 in Hk. exact Hk.
    - left. }
  split; [exact Hpath1|]. split; [exact Hin|].
  intros code' f' s2.
  destruct (Hs1 code' f' s1) as (_ & Hcons2 & Hpath2);
    [rewrite Hro1; exact Hfree|].
  fold s2 in Hcons2, Hpath2. rewrite Hcons2, Hpath2. unfold prepared.
  cbn [sys_path s_console]. fold agent_dir. fold config_path.
  rewrite (bool_decide_eq_true_2 _ Hin), app_nil_r. split; reflexivity.
Qed.

(** X18. The [try] statement of [load] raises only when the module was not
    imported before and its code fails twice in a row. When the module
    is in [sys.modules], its code is executed once, by the reload, and
    the module is returned as that execution left it, whether it failed
    or not. When it is not, the code is executed twice: by the import and
    the reload, or, when the import fails, by the import of the handler;
    the module is returned as the second execution left it, unless both
    failed. *)
Theorem import_fails_only_twice_in_a_row (code : source) (s : session) :
  let n := s_runs s in
  let first := code n s in
  (forall m,
     sys_modules s = Some m ->
     import_agent code s = (Ret (fst first), executed (Some (fst first)) s))
  /\ (sys_modules s = None ->
      let s1 := executed (match snd first with
                          | None => Some (fst first)
                          | Some _ => None
                          end) s in
      let second := code (S n) s1 in
      import_agent code s =
        match snd first, snd second with
        | Some _, Some e => (Raise e, executed None s1)
        | _, _ => (Ret (fst second), executed (Some (fst second)) s1)
        end).
Proof.
  intros n first. unfold first, n. split.
  - intros m Hm.
    unfold import_agent, ltry, lbind, import_module, reload. rewrite Hm.
    destruct (code (s_runs s) s) as [m1 [e1|]]; cbn; reflexivity.
  - intros Hnone.
    unfold import_agent, ltry, lbind, import_module, reload. rewrite Hnone.
    destruct (code (s_runs s) s) as [m1 [e1|]]; cbn.
    + destruct (code (S (s_runs s)) _) as [m2 [e2|]]; reflexivity.
    + destruct (code (S (s_runs s)) _) as [m2 [e2|]]; reflexivity.
Qed.

Lemma load_writes_the_config_first_witness :
  (exists e,
     load Cases.sound Cases.defaults Cases.repo Cases.locked_session =
       (Raise e, Cases.locked_session)
     /\ class_of e = OSError)
  /\ (exists s',
        load Cases.sound Cases.defaults Cases.repo Cases.new_session =
          (Ret (Cases.agent_module, get_config Cases.defaults), s')
        /\ s_files s' =
             [(path_join (path_join Cases.repo MBA_course) (lit "config.yaml"),
               config_dict (get_config Cases.defaults))]
        /\ s_runs s' = 2%nat).
Proof.
  destruct (load_writes_the_config_first Cases.sound Cases.defaults Cases.repo
              Cases.locked_session) as (Hlocked & _).
  destruct (load_writes_the_config_first Cases.sound Cases.defaults Cases.repo
              Cases.new_session) as (_ & Hnew & _).
  split; [apply Hlocked; left|].
  destruct Hnew as (Hload & Hfiles & _); [apply not_elem_of_nil|].
  eexists. split; [rewrite Hload; reflexivity|]. split; reflexivity.
Defined.

Lemma module_path_is_added_once_witness :
  let agent_dir := path_join Cases.repo MBA_course in
  let s1 := snd (load Cases.sound Cases.defaults Cases.repo Cases.new_session) in
  sys_path s1 = [agent_dir; lit "/usr/lib/python3"]
  /\ agent_dir ∈ sys_path s1
  /\ sys_path (snd (load Cases.broken Cases.defaults Cases.repo s1)) = sys_path s1.
Proof.
  intros agent_dir s1.
  destruct (module_path_is_added_once Cases.sound Cases.defaults Cases.repo
              Cases.new_session (not_elem_of_nil _))
    as (Hpath & Hin & Hagain).
  split; [exact Hpath|]. split; [exact Hin|].
  apply (Hagain Cases.broken Cases.defaults).
Defined.

Lemma import_fails_only_twice_in_a_row_witness :
  import_agent Cases.broken Cases.warm_session =
    (Ret Cases.agent_module,
     executed (Some Cases.agent_module) Cases.warm_session)
  /\ fst (import_agent Cases.broken Cases.new_session) = Raise Examples.no_key
  /\ s_runs (snd (import_agent Cases.broken Cases.new_session)) = 2%nat.
Proof.
  destruct (import_fails_only_twice_in_a_row Cases.broken Cases.warm_session)
    as [Hwarm _].
  destruct (import_fails_only_twice_in_a_row Cases.broken Cases.new_session)
    as [_ Hnew].
  split; [exact (Hwarm Cases.agent_module eq_refl)|].
  rewrite (Hnew eq_refl). split; reflexivity.
Defined.
